(** * Factiva RTF to CSV: the document-recovery pipeline of [factivartf2csv.py]

    A shallow embedding of the text pipeline of [src/factivartf2csv.py]
    ([rtf_to_text], [clean_factiva_text], [preprocess], [split_articles],
    [body_sanitize], [split_keywords], the company extractor and
    [rtf_factiva_to_rows]) together with the properties that its
    specification states about it.

    Python strings are sequences of Unicode code points; a character is
    modelled by its code point, a string by the list of its characters.
    The behaviour of the interpreter on Basic Latin is written out; what
    the interpreter reads from the Unicode character database for the
    other code points is a parameter of the development ([UnicodeData]). *)

From Stdlib Require Import String Ascii.
From Stdlib Require Import List NArith ZArith Bool Arith Lia.
From Stdlib Require Import Floats Uint63 Permutation Sorted.
Import ListNotations.

Set Implicit Arguments.

(** ** Characters and strings *)

Definition char := N.
Definition pystr := list char.

Local Open Scope N_scope.

(** Source literals are written as UTF-8 text and decoded to code points. *)
Fixpoint utf8_decode (bs : list N) : pystr :=
  match bs with
  | [] => []
  | b :: t =>
      if b <? 128 then b :: utf8_decode t
      else if b <? 224 then
        match t with
        | b1 :: t' => ((b - 192) * 64 + (b1 - 128)) :: utf8_decode t'
        | _ => []
        end
      else if b <? 240 then
        match t with
        | b1 :: b2 :: t' =>
            ((b - 224) * 4096 + (b1 - 128) * 64 + (b2 - 128)) :: utf8_decode t'
        | _ => []
        end
      else
        match t with
        | b1 :: b2 :: b3 :: t' =>
            ((b - 240) * 262144 + (b1 - 128) * 4096 + (b2 - 128) * 64 + (b3 - 128))
              :: utf8_decode t'
        | _ => []
        end
  end.

Definition u (s : string) : pystr :=
  utf8_decode (map N_of_ascii (list_ascii_of_string s)).

Definition LF : char := 10.
Definition CR : char := 13.
Definition TAB : char := 9.
Definition SP : char := 32.
Definition BACKSLASH : char := 92.
Definition DQUOTE : char := 34.

Definition in_range (lo hi c : char) : bool := (lo <=? c) && (c <=? hi).
Arguments in_range (lo hi c)%_N.

Definition is_ascii (c : char) : bool := c <? 128.

Definition ascii_upper (c : char) : bool := in_range 65 90 c.
Definition ascii_lower (c : char) : bool := in_range 97 122 c.
Definition ascii_digit (c : char) : bool := in_range 48 57 c.

Definition ascii_tolower (c : char) : char :=
  if ascii_upper c then c + 32 else c.

(** [str.isspace] per character, which is also [\s] of the pattern engine
    and what [str.strip] removes. *)
Definition isspace (c : char) : bool :=
  in_range 9 13 c || in_range 28 32 c || (c =? 133) || (c =? 160)
  || (c =? 5760) || in_range 8192 8202 c || (c =? 8232) || (c =? 8233)
  || (c =? 8239) || (c =? 8287) || (c =? 12288).

(** The line boundaries of [str.splitlines]. *)
Definition is_linebreak (c : char) : bool :=
  in_range 10 13 c || in_range 28 30 c || (c =? 133) || (c =? 8232)
  || (c =? 8233).

(** What the interpreter takes from the Unicode character database outside
    Basic Latin. *)
Record UnicodeData := {
  u_decimal : char -> option Z;      (* digit value of a decimal digit (Nd) *)
  u_isalnum : char -> bool;          (* str.isalnum *)
  u_isprintable : char -> bool;      (* str.isprintable *)
  u_lower : pystr -> pystr;          (* str.lower *)
  u_ieq : char -> char -> bool       (* IGNORECASE: pattern letter vs text char *)
}.

(** The tables cut down to Basic Latin and the CJK Unified Ideographs block
    (U+4E00..U+9FFF, whose assigned characters are letters, printable, not
    digits and without case); used to evaluate the pipeline on concrete
    documents written with those characters only. *)
Definition is_cjk (c : char) : bool := in_range 19968 40959 c.

Definition cjk_tables : UnicodeData := {|
  u_decimal := fun _ => None;
  u_isalnum := is_cjk;
  u_isprintable := is_cjk;
  u_lower := fun s => s;
  u_ieq := fun _ _ => false
|}.

Section Unicode.

Variable U : UnicodeData.

Definition decimal_value (c : char) : option Z :=
  if is_ascii c then
    if ascii_digit c then Some (Z.of_N (c - 48)) else None
  else u_decimal U c.

Definition isdecimal (c : char) : bool :=
  match decimal_value c with Some _ => true | None => false end.

Definition isalnum (c : char) : bool :=
  if is_ascii c then ascii_upper c || ascii_lower c || ascii_digit c
  else u_isalnum U c.

(** [\w] *)
Definition isword (c : char) : bool := isalnum c || (c =? 95).

Definition isprintable (c : char) : bool :=
  if is_ascii c then in_range 32 126 c else u_isprintable U c.

Definition str_lower (s : pystr) : pystr :=
  if forallb is_ascii s then map ascii_tolower s else u_lower U s.

Definition casematch (p c : char) : bool :=
  if is_ascii c then ascii_tolower p =? ascii_tolower c else u_ieq U p c.

End Unicode.

(** ** String methods *)

Fixpoint dropwhile {A} (f : A -> bool) (l : list A) : list A :=
  match l with
  | [] => []
  | x :: t => if f x then dropwhile f t else l
  end.

Definition lstrip (s : pystr) : pystr := dropwhile isspace s.
Definition rstrip (s : pystr) : pystr := rev (dropwhile isspace (rev s)).
Definition strip (s : pystr) : pystr := rstrip (lstrip s).

(** Truth value of a string: non-empty. *)
Definition nonempty {A} (s : list A) : bool :=
  match s with [] => false | _ => true end.

(** [not line.strip()] *)
Definition is_blank (s : pystr) : bool := negb (nonempty (strip s)).

Definition slice {A} (l : list A) (b e : nat) : list A :=
  firstn (e - b) (skipn b l).

Fixpoint str_eqb (a b : pystr) : bool :=
  match a, b with
  | [], [] => true
  | x :: a', y :: b' => (x =? y) && str_eqb a' b'
  | _, _ => false
  end.

Fixpoint strip_prefix (p s : pystr) : option pystr :=
  match p, s with
  | [], _ => Some s
  | x :: p', y :: s' => if x =? y then strip_prefix p' s' else None
  | _ :: _, [] => None
  end.

(** [sub in s] *)
Fixpoint str_in (sub s : pystr) : bool :=
  match strip_prefix sub s with
  | Some _ => true
  | None => match s with [] => false | _ :: t => str_in sub t end
  end.

(** [s.find(sub)]: index of the first occurrence. *)
Fixpoint str_find (sub s : pystr) : option nat :=
  match strip_prefix sub s with
  | Some _ => Some O
  | None =>
      match s with
      | [] => None
      | _ :: t => option_map S (str_find sub t)
      end
  end.

Fixpoint replace_loop (fuel : nat) (old new s : pystr) : pystr :=
  match fuel with
  | O => s
  | S f =>
      match s with
      | [] => []
      | c :: t =>
          match strip_prefix old s with
          | Some rest => new ++ replace_loop f old new rest
          | None => c :: replace_loop f old new t
          end
      end
  end.

(** [s.replace(old, new)] for a non-empty [old]. *)
Definition str_replace (old new s : pystr) : pystr :=
  replace_loop (length s) old new s.

(** [sep.join(parts)] *)
Fixpoint join (sep : pystr) (parts : list pystr) : pystr :=
  match parts with
  | [] => []
  | [x] => x
  | x :: t => x ++ sep ++ join sep t
  end.

(** [s.split(c)] for a one-character separator. *)
Fixpoint split_char (c : char) (s : pystr) : list pystr :=
  match s with
  | [] => [[]]
  | x :: t =>
      if x =? c then [] :: split_char c t
      else match split_char c t with
           | [] => [[x]]
           | w :: ws => (x :: w) :: ws
           end
  end.

(** [s.splitlines()]: [cur] is the pending line, in reverse. *)
Fixpoint splitlines_aux (cur : pystr) (s : pystr) : list pystr :=
  match s with
  | [] => match cur with [] => [] | _ => [rev cur] end
  | c :: t =>
      if is_linebreak c then
        if c =? CR then
          match t with
          | d :: t' =>
              if d =? LF then rev cur :: splitlines_aux [] t'
              else rev cur :: splitlines_aux [] t
          | [] => [rev cur]
          end
        else rev cur :: splitlines_aux [] t
      else splitlines_aux (c :: cur) t
  end.

Definition splitlines (s : pystr) : list pystr := splitlines_aux [] s.

(** ** Exceptions *)

Inductive exn := ValueError | AttributeError.

Inductive result (A : Type) : Type :=
| Ok (a : A)
| Raise (e : exn).

Arguments Ok {A} a.
Arguments Raise {A} e.

Definition bind {A B} (m : result A) (f : A -> result B) : result B :=
  match m with
  | Ok a => f a
  | Raise e => Raise e
  end.

Notation "x <- m ;; k" := (bind m (fun x => k))
  (at level 61, m at next level, right associativity).

(** A loop over a list whose body may raise. *)
Fixpoint mapM {A B} (f : A -> result B) (l : list A) : result (list B) :=
  match l with
  | [] => Ok []
  | x :: t => y <- f x ;; ys <- mapM f t ;; Ok (y :: ys)
  end.

(** ** The pattern engine

    Patterns of the [re] module as syntax trees, and a backtracking matcher
    that tries the alternatives in the engine's order: the left branch of
    [|] first, one more iteration first for a greedy quantifier, one fewer
    first for a lazy one. *)

Inductive item :=
| ICh (c : char)
| IRange (lo hi : char)
| IDigit                      (* \d *)
| ISpace                      (* \s *)
| IWord.                      (* \w *)

Inductive regex :=
| Eps
| Lit (c : char)
| LitI (c : char)                         (* a literal under re.I *)
| Dot                                     (* .  : anything but \n *)
| CSet (items : list item)                (* [...] *)
| NSet (items : list item)                (* [^...] *)
| Seq (a b : regex)
| Alt (a b : regex)
| Rep (lo : nat) (hi : option nat) (greedy : bool) (a : regex)
| Grp (n : nat) (a : regex)               (* capturing group number n *)
| Bol                                     (* ^ *)
| Wordb.                                  (* \b *)

Fixpoint lits (s : pystr) : regex :=
  match s with
  | [] => Eps
  | [c] => Lit c
  | c :: t => Seq (Lit c) (lits t)
  end.

Fixpoint litsI (s : pystr) : regex :=
  match s with
  | [] => Eps
  | [c] => LitI c
  | c :: t => Seq (LitI c) (litsI t)
  end.

Fixpoint seqs (rs : list regex) : regex :=
  match rs with
  | [] => Eps
  | [r] => r
  | r :: t => Seq r (seqs t)
  end.

Fixpoint alts (rs : list regex) : regex :=
  match rs with
  | [] => NSet [IRange 0 1114111]
  | [r] => r
  | r :: t => Alt r (alts t)
  end.

Definition Star (a : regex) : regex := Rep 0 None true a.
Definition Plus (a : regex) : regex := Rep 1 None true a.
Definition Opt (a : regex) : regex := Rep 0 (Some 1%nat) true a.
Definition Digit : regex := CSet [IDigit].
Definition Space : regex := CSet [ISpace].

(** Where the matcher stands: the index in the subject, the character
    before it, the characters from it on, and the spans of the groups
    closed so far. *)
Record mstate := {
  m_pos : nat;
  m_prev : option char;
  m_rest : pystr;
  m_groups : list (nat * (nat * nat))
}.

Definition start_state (s : pystr) : mstate :=
  {| m_pos := 0; m_prev := None; m_rest := s; m_groups := [] |}.

Definition set_group (n b e : nat) (st : mstate) : mstate :=
  {| m_pos := m_pos st; m_prev := m_prev st; m_rest := m_rest st;
     m_groups := (n, (b, e)) :: m_groups st |}.

Fixpoint lookup_group (n : nat) (gs : list (nat * (nat * nat)))
  : option (nat * nat) :=
  match gs with
  | [] => None
  | (k, span) :: t => if Nat.eqb k n then Some span else lookup_group n t
  end.

Section Engine.

Variable U : UnicodeData.

Definition item_match (c : char) (it : item) : bool :=
  match it with
  | ICh x => c =? x
  | IRange lo hi => in_range lo hi c
  | IDigit => isdecimal U c
  | ISpace => isspace c
  | IWord => isword U c
  end.

Definition eat (p : char -> bool) (st : mstate)
  (k : mstate -> option mstate) : option mstate :=
  match m_rest st with
  | [] => None
  | c :: r =>
      if p c then
        k {| m_pos := S (m_pos st); m_prev := Some c; m_rest := r;
             m_groups := m_groups st |}
      else None
  end.

Definition wordish (c : option char) : bool :=
  match c with Some x => isword U x | None => false end.

(** The loop of a quantifier [a{lo,hi}]: [ma] matches the body once,
    [fuel] bounds the iterations left, [count] is the number done. An
    iteration that is not required and consumes nothing is abandoned. *)
Fixpoint rep_loop (ma : mstate -> (mstate -> option mstate) -> option mstate)
  (lo : nat) (greedy : bool) (k : mstate -> option mstate)
  (fuel count : nat) (st : mstate) {struct fuel} : option mstate :=
  match fuel with
  | O => if Nat.leb lo count then k st else None
  | S fuel' =>
      let again st' :=
        if Nat.leb lo count && Nat.eqb (m_pos st') (m_pos st)
        then None else rep_loop ma lo greedy k fuel' (S count) st' in
      if greedy then
        match ma st again with
        | Some m => Some m
        | None => if Nat.leb lo count then k st else None
        end
      else
        match (if Nat.leb lo count then k st else None) with
        | Some m => Some m
        | None => ma st again
        end
  end.

Fixpoint rmatch (r : regex) (st : mstate) (k : mstate -> option mstate)
  : option mstate :=
  match r with
  | Eps => k st
  | Lit c => eat (fun x => x =? c) st k
  | LitI c => eat (casematch U c) st k
  | Dot => eat (fun x => negb (x =? LF)) st k
  | CSet items => eat (fun x => existsb (item_match x) items) st k
  | NSet items => eat (fun x => negb (existsb (item_match x) items)) st k
  | Seq a b => rmatch a st (fun st' => rmatch b st' k)
  | Alt a b =>
      match rmatch a st k with
      | Some m => Some m
      | None => rmatch b st k
      end
  | Rep lo hi greedy a =>
      let fuel := match hi with
                  | Some h => h
                  | None => (lo + List.length (m_rest st))%nat
                  end in
      rep_loop (rmatch a) lo greedy k fuel O st
  | Grp n a => rmatch a st (fun st' => k (set_group n (m_pos st) (m_pos st') st'))
  | Bol => if Nat.eqb (m_pos st) 0 then k st else None
  | Wordb =>
      if xorb (wordish (m_prev st)) (wordish (hd_error (m_rest st)))
      then k st else None
  end.

(** One attempt at the position of [st]; with [adv] the match must not be
    empty (the engine's rule after an empty match). *)
Definition match_here (r : regex) (adv : bool) (st : mstate) : option mstate :=
  rmatch r st (fun st' =>
    if adv && Nat.eqb (m_pos st') (m_pos st) then None else Some st').

(** Leftmost match at or after the position of the state: the start index
    and the final state. *)
Fixpoint search_from (r : regex) (adv : bool) (pos : nat) (prev : option char)
  (rest : pystr) : option (nat * mstate) :=
  let st := {| m_pos := pos; m_prev := prev; m_rest := rest; m_groups := [] |} in
  match match_here r adv st with
  | Some st' => Some (pos, st')
  | None =>
      match rest with
      | [] => None
      | c :: t => search_from r false (S pos) (Some c) t
      end
  end.

(** A match object: the subject, the span and the groups. *)
Record rmatch_obj := {
  mo_subject : pystr;
  mo_start : nat;
  mo_end : nat;
  mo_groups : list (nat * (nat * nat))
}.

Definition mk_match (s : pystr) (found : nat * mstate) : rmatch_obj :=
  {| mo_subject := s; mo_start := fst found; mo_end := m_pos (snd found);
     mo_groups := m_groups (snd found) |}.

(** [m.group(n)]: [None] for a group that took no part in the match. *)
Definition group (m : rmatch_obj) (n : nat) : option pystr :=
  match n with
  | O => Some (slice (mo_subject m) (mo_start m) (mo_end m))
  | _ =>
      match lookup_group n (mo_groups m) with
      | Some (b, e) => Some (slice (mo_subject m) b e)
      | None => None
      end
  end.

Definition re_search (r : regex) (s : pystr) : option rmatch_obj :=
  option_map (mk_match s) (search_from r false 0 None s).

Definition re_fullmatch (r : regex) (s : pystr) : option rmatch_obj :=
  option_map (fun st => mk_match s (O, st))
    (rmatch r (start_state s)
       (fun st' => match m_rest st' with [] => Some st' | _ => None end)).

(** The successive non-overlapping matches, left to right. *)
Fixpoint matches_loop (fuel : nat) (r : regex) (s : pystr) (adv : bool)
  (pos : nat) (prev : option char) (rest : pystr) : list rmatch_obj :=
  match fuel with
  | O => []
  | S f =>
      match search_from r adv pos prev rest with
      | None => []
      | Some (b, st') =>
          mk_match s (b, st')
            :: matches_loop f r s (Nat.eqb (m_pos st') b)
                 (m_pos st') (m_prev st') (m_rest st')
      end
  end.

Definition re_finditer (r : regex) (s : pystr) : list rmatch_obj :=
  matches_loop (2 * List.length s + 2) r s false 0 None s.

(** [re.findall] for a pattern without groups. *)
Definition re_findall (r : regex) (s : pystr) : list pystr :=
  map (fun m => slice s (mo_start m) (mo_end m)) (re_finditer r s).

(** [re.sub(r, repl, s)] with [repl] a function of the match. *)
Fixpoint sub_pieces (s : pystr) (repl : rmatch_obj -> pystr) (pos : nat)
  (ms : list rmatch_obj) : pystr :=
  match ms with
  | [] => skipn pos s
  | m :: t =>
      slice s pos (mo_start m) ++ repl m ++ sub_pieces s repl (mo_end m) t
  end.

Definition re_sub (r : regex) (repl : rmatch_obj -> pystr) (s : pystr) : pystr :=
  sub_pieces s repl 0 (re_finditer r s).

End Engine.

(** ** Literals *)

Definition uc (s : string) : char := hd 0 (u s).

Definition AZ : item := IRange (uc "A") (uc "Z").
Definition az : item := IRange (uc "a") (uc "z").
Definition d09 : item := IRange (uc "0") (uc "9").

(** ** Numbers and dates *)

Local Open Scope Z_scope.

Section Numbers.

Variable U : UnicodeData.

(** Decimal digits with single underscores between them. *)
Fixpoint digits_value (acc : Z) (after_digit : bool) (s : pystr) : option Z :=
  match s with
  | [] => if after_digit then Some acc else None
  | c :: t =>
      if (c =? 95)%N then
        if after_digit then digits_value acc false t else None
      else
        match decimal_value U c with
        | Some d => digits_value (10 * acc + d) true t
        | None => None
        end
  end.

(** [int(s)] in base ten. *)
Definition py_int (s : pystr) : result Z :=
  let body sign t :=
    match digits_value 0 false t with
    | Some v => Ok (sign * v)
    | None => Raise ValueError
    end in
  match strip s with
  | [] => Raise ValueError
  | c :: t =>
      if (c =? uc "-")%N then body (-1) t
      else if (c =? uc "+")%N then body 1 t
      else body 1 (c :: t)
  end.

End Numbers.

Record datetime := {
  dt_year : Z; dt_month : Z; dt_day : Z; dt_hour : Z; dt_minute : Z
}.

Definition is_leap (y : Z) : bool :=
  (y mod 4 =? 0) && (negb (y mod 100 =? 0) || (y mod 400 =? 0)).

Definition days_in_month (y m : Z) : Z :=
  if m =? 2 then (if is_leap y then 29 else 28)
  else if (m =? 4) || (m =? 6) || (m =? 9) || (m =? 11) then 30
  else 31.

Definition valid_datetime (y mo d hh mm : Z) : bool :=
  (1 <=? y) && (y <=? 9999) && (1 <=? mo) && (mo <=? 12)
  && (1 <=? d) && (d <=? days_in_month y mo)
  && (0 <=? hh) && (hh <=? 23) && (0 <=? mm) && (mm <=? 59).

(** [datetime.datetime(y, mo, d, hh, mm)] *)
Definition mk_datetime (y mo d hh mm : Z) : result datetime :=
  if valid_datetime y mo d hh mm
  then Ok {| dt_year := y; dt_month := mo; dt_day := d;
             dt_hour := hh; dt_minute := mm |}
  else Raise ValueError.

Definition digit_char (d : Z) : char := Z.to_N (48 + d).

Definition pad2 (n : Z) : pystr :=
  [digit_char (n / 10 mod 10); digit_char (n mod 10)].

Definition pad4 (n : Z) : pystr :=
  [digit_char (n / 1000 mod 10); digit_char (n / 100 mod 10);
   digit_char (n / 10 mod 10); digit_char (n mod 10)].

(** [dt.isoformat(sep=" ")]; seconds and microseconds are zero. *)
Definition isoformat (dt : datetime) : pystr :=
  pad4 (dt_year dt) ++ u "-" ++ pad2 (dt_month dt) ++ u "-" ++ pad2 (dt_day dt)
  ++ u " " ++ pad2 (dt_hour dt) ++ u ":" ++ pad2 (dt_minute dt) ++ u ":00".

(** ** Hexadecimal noise *)

Definition is_hex_char (c : char) : bool :=
  existsb (N.eqb c) (u "0123456789ABCDEFabcdef").

(** [sum(c in "0123456789ABCDEFabcdef" for c in l)] *)
Definition hex_chars (l : pystr) : nat :=
  List.length (filter is_hex_char l).

(** True division of two lengths, as a binary64 float. *)
Definition float_of_nat (n : nat) : float :=
  PrimFloat.of_uint63 (Uint63.of_Z (Z.of_nat n)).

Definition true_div (a b : nat) : float :=
  PrimFloat.div (float_of_nat a) (float_of_nat b).

(** The test of [clean_factiva_text] on a stripped line. *)
Definition noise_line (l : pystr) : bool :=
  let ratio := true_div (hex_chars l) (Nat.max 1 (List.length l)) in
  Nat.ltb 120 (List.length l) && PrimFloat.ltb 0.75%float ratio.

(** The float literal [0.8]: the binary64 value nearest to 4/5. *)
Definition float_0_8 : float := 0x1.999999999999ap-1%float.

(** The test of [body_sanitize] on a stripped, non-empty line. *)
Definition corrupt_line (l : pystr) : bool :=
  Nat.ltb 80 (List.length l)
  && PrimFloat.ltb float_0_8 (true_div (hex_chars l) (List.length l)).

(** ** The program *)

Definition const_repl (s : pystr) : rmatch_obj -> pystr := fun _ => s.

(** [re.sub(r"\n{3,}", "\n\n", s)] *)
Definition re_blank_runs : regex := Rep 3 None true (Lit LF).

(** Windows-1252, bytes 0x80 to 0x9F; the five holes are undefined. *)
Definition cp1252_high : list (option char) :=
  map (fun c : N => if (c =? 0)%N then None else Some c)
    [8364; 0; 8218; 402; 8222; 8230; 8224; 8225;
     710; 8240; 352; 8249; 338; 0; 381; 0;
     0; 8216; 8217; 8220; 8221; 8226; 8211; 8212;
     732; 8482; 353; 8250; 339; 0; 382; 376]%N.

(** [bytes([b]).decode("cp1252", errors="ignore")] *)
Definition cp1252_decode (b : N) : pystr :=
  if (b <? 128)%N || (160 <=? b)%N then [b]
  else match nth (N.to_nat (b - 128)) cp1252_high None with
       | Some c => [c]
       | None => []
       end.

Definition hex_digit_value (c : char) : N :=
  if ascii_digit c then (c - 48)%N
  else if in_range 97 102 c then (c - 87)%N
  else (c - 55)%N.

(** [bytes.fromhex] of two hexadecimal digits. *)
Definition fromhex2 (s : pystr) : N :=
  match s with
  | [a; b] => (16 * hex_digit_value a + hex_digit_value b)%N
  | _ => 0%N
  end.

Section Program.

Variable U : UnicodeData.

(** *** RTF to text *)

Definition re_uni_escape : regex :=       (* \\u(-?\d+)\?? *)
  seqs [Lit BACKSLASH; Lit (uc "u");
        Grp 1 (Seq (Opt (Lit (uc "-"))) (Plus Digit)); Opt (Lit (uc "?"))].

Definition re_hex_escape : regex :=       (* \\'([0-9a-fA-F]{2}) *)
  seqs [Lit BACKSLASH; Lit (uc "'");
        Grp 1 (Rep 2 (Some 2%nat) true
                 (CSet [d09; IRange (uc "a") (uc "f"); IRange (uc "A") (uc "F")]))].

Definition re_control_word : regex :=     (* \\[a-zA-Z]+\d* ? *)
  seqs [Lit BACKSLASH; Plus (CSet [az; AZ]); Star Digit; Opt (Lit SP)].

Definition re_control_symbol : regex :=   (* \\[^a-zA-Z] *)
  Seq (Lit BACKSLASH) (NSet [az; AZ]).

Definition re_trailing_blanks : regex :=  (* [ \t]+\n *)
  Seq (Plus (CSet [ICh SP; ICh TAB])) (Lit LF).

(** [uni_repl]: the code point, wrapped once when negative; the empty
    string when [chr] refuses it. *)
Definition uni_repl (m : rmatch_obj) : pystr :=
  match group m 1 with
  | Some g =>
      match py_int U g with
      | Ok n =>
          let n := if n <? 0 then n + 65536 else n in
          if (0 <=? n) && (n <=? 1114111) then [Z.to_N n] else []
      | Raise _ => []
      end
  | None => []
  end.

Definition hex_repl (m : rmatch_obj) : pystr :=
  match group m 1 with
  | Some g => cp1252_decode (fromhex2 g)
  | None => []
  end.

Definition rtf_to_text (rtf : pystr) : pystr :=
  let s := str_replace [CR] [LF] (str_replace [CR; LF] [LF] rtf) in
  let s := re_sub U re_uni_escape uni_repl s in
  let s := re_sub U re_hex_escape hex_repl s in
  let s := str_replace (BACKSLASH :: u "line") [LF]
             (str_replace (BACKSLASH :: u "par") [LF] s) in
  let s := re_sub U re_control_word (const_repl []) s in
  let s := re_sub U re_control_symbol (const_repl []) s in
  let s := str_replace (u "}") [] (str_replace (u "{") [] s) in
  let s := re_sub U re_blank_runs (const_repl [LF; LF]) s in
  let s := re_sub U re_trailing_blanks (const_repl [LF]) s in
  strip s.

(** *** Noise filter *)

(** ["".join(c if c.isprintable() else " " for c in l)] *)
Definition scrub (l : pystr) : pystr :=
  map (fun c => if isprintable U c then c else SP) l.

(** One round of the loop of [clean_factiva_text]: the lines appended to
    [out_lines] for [line]. *)
Definition clean_line (line : pystr) : list pystr :=
  let l := strip line in
  if negb (nonempty l) then [[]]
  else if noise_line l then []
  else [scrub l].

Definition clean_factiva_text (t : pystr) : pystr :=
  let out_lines := flat_map clean_line (splitlines t) in
  let cleaned := join [LF] out_lines in
  let cleaned := re_sub U re_blank_runs (const_repl [LF; LF]) cleaned in
  strip cleaned.

Definition re_hyperlink : regex :=        (* HYPERLINK\s+toc\d+ and a double quote *)
  seqs [lits (u "HYPERLINK"); Plus Space; lits (u "toc"); Plus Digit; Lit DQUOTE].

Definition re_page_footer : regex :=      (* \bd Page\b.* *)
  seqs [Wordb; lits (u "d Page"); Wordb; Star Dot].

Definition re_page : regex :=             (* \bPAGE\d+\b *)
  seqs [Wordb; lits (u "PAGE"); Plus Digit; Wordb].

Definition re_numpages : regex :=         (* \bNUMPAGES\d+\b *)
  seqs [Wordb; lits (u "NUMPAGES"); Plus Digit; Wordb].

Definition re_blanks2 : regex :=          (* [ \t]{2,} *)
  Rep 2 None true (CSet [ICh SP; ICh TAB]).

Definition re_leading_blanks : regex :=   (* \n[ \t]+ *)
  Seq (Lit LF) (Plus (CSet [ICh SP; ICh TAB])).

Definition preprocess (t : pystr) : pystr :=
  let t := str_replace (BACKSLASH :: u "'") (u "'") t in
  let t := re_sub U re_hyperlink (const_repl [LF]) t in
  let t := re_sub U re_page_footer (const_repl []) t in
  let t := re_sub U re_page (const_repl []) t in
  let t := re_sub U re_numpages (const_repl []) t in
  let t := re_sub U re_blank_runs (const_repl [LF; LF]) t in
  let t := re_sub U re_blanks2 (const_repl [SP]) t in
  let t := re_sub U re_leading_blanks (const_repl [LF]) t in
  strip t.

(** *** Parsing helpers *)

Definition ZI : char := uc "字".
Definition RI : char := uc "日".

Definition WORDCOUNT_RE : regex :=        (* ^\s*([\d,]+)\s*字 *)
  seqs [Bol; Star Space; Grp 1 (Plus (CSet [IDigit; ICh (uc ",")]));
        Star Space; Lit ZI].

Definition FILE_ID_PATTERN : regex :=     (* \b[A-Z]{2,10}\d{8,}[A-Za-z0-9]{3,}\b *)
  seqs [Wordb; Rep 2 (Some 10%nat) true (CSet [AZ]); Rep 8 None true Digit;
        Rep 3 None true (CSet [AZ; az; d09]); Wordb].

Definition gap10 : regex := Rep 0 (Some 10%nat) false Dot.   (* .{0,10}? *)
Definition digits12 : regex := Rep 1 (Some 2%nat) true Digit. (* \d{1,2} *)

(** (\d{4}).{0,10}?(\d{1,2}).{0,10}?(\d{1,2}).{0,10}?日(?:.{0,10}?(\d{1,2}):(\d{2}))? *)
Definition re_date : regex :=
  seqs [Grp 1 (Rep 4 (Some 4%nat) true Digit); gap10; Grp 2 digits12; gap10;
        Grp 3 digits12; gap10; Lit RI;
        Opt (seqs [gap10; Grp 4 digits12; Lit (uc ":");
                   Grp 5 (Rep 2 (Some 2%nat) true Digit)])].

(** [int(g or 0)] for an optional group. *)
Definition int_or_zero (g : option pystr) : result Z :=
  match g with
  | Some s => if nonempty s then py_int U s else Ok 0
  | None => Ok 0
  end.

Definition int_group (g : option pystr) : result Z :=
  match g with
  | Some s => py_int U s
  | None => Raise AttributeError
  end.

Definition parse_factiva_date (line : pystr) : result (option datetime) :=
  let s := strip line in
  match re_search U re_date s with
  | None => Ok None
  | Some m =>
      y <- int_group (group m 1) ;;
      mo <- int_group (group m 2) ;;
      d <- int_group (group m 3) ;;
      hh <- int_or_zero (group m 4) ;;
      mm <- int_or_zero (group m 5) ;;
      dt <- mk_datetime y mo d hh mm ;;
      Ok (Some dt)
  end.

Definition re_english : regex := seqs [Wordb; litsI (u "English"); Wordb].
Definition re_chinese : regex := seqs [Wordb; litsI (u "Chinese"); Wordb].

Definition found (m : option rmatch_obj) : bool :=
  match m with Some _ => true | None => false end.

Definition detect_language (line : pystr) : pystr :=
  let l := strip line in
  if str_in (u "英文") l || (str_in (u "英") l && str_in (u "文") l)
     || found (re_search U re_english l)
  then u "英文"
  else if str_in (u "中文") l || (str_in (u "中") l && str_in (u "文") l)
          || found (re_search U re_chinese l)
  then u "中文"
  else [].

Definition re_toc_prefix : regex :=       (* ^(?:toc\d+)+ *)
  Seq Bol (Plus (Seq (lits (u "toc")) (Plus Digit))).

Definition re_nonword_prefix : regex :=   (* ^\W+ *)
  Seq Bol (Plus (NSet [IWord])).

Definition clean_title (title : pystr) : pystr :=
  let t := strip (re_sub U re_toc_prefix (const_repl []) title) in
  strip (re_sub U re_nonword_prefix (const_repl []) t).

(** The loop of [body_sanitize], with its [break]. *)
Fixpoint sanitize_lines (lns : list pystr) : list pystr :=
  match lns with
  | [] => []
  | ln :: rest =>
      let l := strip ln in
      if negb (nonempty l) then [] :: sanitize_lines rest
      else if corrupt_line l then []
      else rstrip ln :: sanitize_lines rest
  end.

Definition body_sanitize (body : pystr) : pystr :=
  let lines := sanitize_lines (splitlines body) in
  let out := strip (join [LF] lines) in
  re_sub U re_blank_runs (const_repl [LF; LF]) out.

Definition re_file_near : regex :=        (* 文件\D{0,15}(FILE_ID_PATTERN) *)
  seqs [lits (u "文件"); Rep 0 (Some 15%nat) true (NSet [IDigit]);
        Grp 1 FILE_ID_PATTERN].

Definition extract_file_id (text : pystr) : pystr :=
  match re_search U re_file_near text with
  | Some m => match group m 1 with Some g => g | None => [] end
  | None => last (re_findall U FILE_ID_PATTERN text) []
  end.

End Program.

(** *** Keyword classifier *)

Definition GEO : list pystr :=
  map u ["Asia"; "China"; "Hong Kong"; "Macau"; "Macao"; "Taiwan";
         "United States"; "U.S."; "US"; "UK"; "Europe";
         "Beijing"; "Shanghai"; "Japan"; "Korea"; "South Korea"; "North Korea";
         "Germany"; "France"; "Netherlands";
         "Ireland"; "Switzerland"; "Latin America"; "Australia"; "Canada";
         "Singapore"; "India"; "Russia"; "Africa"; "Middle East"]%string.

Definition INDUSTRY_HINTS : list pystr :=
  map u ["Finance"; "Investment"; "Materials"; "Technology"; "Energy";
         "Healthcare"; "Pharmaceutical";
         "Mining"; "Metals"; "Oil"; "Gas"; "Shipping"; "Logistics"; "Automotive";
         "Real Estate"; "Telecom"; "AI"; "Chip"]%string.

Inductive bucket := Region | Industry | Topic.

Section Classifier.

Variable U : UnicodeData.

(** The [if]/[elif]/[else] of the loop of [split_keywords]. *)
Definition classify (p : pystr) : bucket :=
  if existsb (str_eqb p) GEO then Region
  else if existsb (fun h => str_in (str_lower U h) (str_lower U p)) INDUSTRY_HINTS
  then Industry
  else Topic.

(** [[p.strip() for p in kw.split(",") if p.strip()]] *)
Definition keyword_parts (kw : pystr) : list pystr :=
  filter nonempty (map strip (split_char (uc ",") kw)).

(** The three lists after the tokens [parts] were appended to
    [(topics, regions, industries)]. *)
Fixpoint route (parts : list pystr) (acc : list pystr * list pystr * list pystr)
  : list pystr * list pystr * list pystr :=
  match parts with
  | [] => acc
  | p :: rest =>
      let '(topics, regions, industries) := acc in
      match classify p with
      | Region => route rest (topics, regions ++ [p], industries)
      | Industry => route rest (topics, regions, industries ++ [p])
      | Topic => route rest (topics ++ [p], regions, industries)
      end
  end.

(** Returns [(topics, regions, industries)]. *)
Definition split_keywords (kw : pystr) : list pystr * list pystr * list pystr :=
  route (keyword_parts kw) ([], [], []).

End Classifier.

(** *** Company extractor *)

Definition company_token : regex :=       (* [A-Z][A-Za-z0-9&.\-]* *)
  Seq (CSet [AZ])
      (Star (CSet [AZ; az; d09; ICh (uc "&"); ICh (uc "."); ICh (uc "-")])).

Definition company_suffix : regex :=
  alts (map (fun s => lits (u s))
          ["Inc."; "Corp."; "Corporation"; "Ltd."; "Limited"; "Group";
           "Company"; "Co."; "PLC"; "LLC"; "S.A."; "AG"]%string).

Definition COMPANY_RE : regex :=
  seqs [Wordb;
        Grp 1 (seqs [company_token;
                     Rep 0 (Some 6%nat) true (Seq (Plus Space) company_token);
                     Plus Space; company_suffix]);
        Wordb].

(** Order of strings: by code point, a prefix first. *)
Fixpoint str_ltb (a b : pystr) : bool :=
  match a, b with
  | [], [] => false
  | [], _ :: _ => true
  | _ :: _, [] => false
  | x :: a', y :: b' => (x <? y)%N || ((x =? y)%N && str_ltb a' b')
  end.

(** Insertion into a sorted list without duplicates. *)
Fixpoint insert_uniq (x : pystr) (l : list pystr) : list pystr :=
  match l with
  | [] => [x]
  | y :: t =>
      if str_eqb x y then l
      else if str_ltb x y then x :: l
      else y :: insert_uniq x t
  end.

(** [sorted(set(xs))] *)
Definition sorted_set (xs : list pystr) : list pystr :=
  fold_right insert_uniq [] xs.

Definition companies_of (U : UnicodeData) (sample_text : pystr) : list pystr :=
  sorted_set
    (flat_map (fun m => match group m 1 with Some g => [g] | None => [] end)
       (re_finditer U COMPANY_RE sample_text)).

(** *** Article segmentation *)

(** What the first loop of [split_articles] appends for an accepted
    anchor. *)
Record draft := {
  d_title : pystr;
  d_author : pystr;
  d_time : pystr;
  d_language : pystr;
  d_publisher : pystr;
  d_ipd : pystr;
  d_word_count : Z;
  d_body_start_idx : option nat;
  d_title_line_idx : nat
}.

(** The entry after the second loop added the body and what is read off
    it. *)
Record article := {
  a_title : pystr;
  a_author : pystr;
  a_time : pystr;
  a_language : pystr;
  a_publisher : pystr;
  a_ipd : pystr;
  a_word_count : Z;
  a_body_start_idx : option nat;
  a_title_line_idx : nat;
  a_keywords : pystr;
  a_file_no : pystr;
  a_body : pystr
}.

(** [lines[i]] for an index in range. *)
Definition line_at (lines : list pystr) (i : nat) : pystr := nth i lines [].

(** [j = n - 1; while j >= 0 and not lines[j].strip(): j -= 1]: the index
    reached, [None] for [j < 0]. *)
Fixpoint scan_up (lines : list pystr) (n : nat) : option nat :=
  match n with
  | O => None
  | S j => if is_blank (line_at lines j) then scan_up lines j else Some j
  end.

(** [while p < len(lines) and test(lines[p]): p += 1] *)
Fixpoint skip_while (test : pystr -> bool) (lines : list pystr)
  (fuel p : nat) : nat :=
  match fuel with
  | O => p
  | S f =>
      match nth_error lines p with
      | Some l => if test l then skip_while test lines f (S p) else p
      | None => p
      end
  end.

Definition skip_blank (lines : list pystr) (p : nat) : nat :=
  skip_while is_blank lines (List.length lines) p.

Definition skip_text (lines : list pystr) (p : nat) : nat :=
  skip_while (fun l => negb (is_blank l)) lines (List.length lines) p.

(** [lines[p].strip() if p < len(lines) else ""] *)
Definition stripped_at (lines : list pystr) (p : nat) : pystr :=
  match nth_error lines p with
  | Some l => strip l
  | None => []
  end.

Definition re_ipd : regex :=              (* [A-Z0-9]{2,10} *)
  Rep 2 (Some 10%nat) true (CSet [AZ; d09]).

Definition re_keywords : regex :=
  (* Keywords for this news article include:\s*(.+) *)
  seqs [lits (u "Keywords for this news article include:"); Star Space;
        Grp 1 (Plus Dot)].

Definition re_byline : regex :=           (* --\s*By\s+([^-\n]+) *)
  seqs [lits (u "--"); Star Space; lits (u "By"); Plus Space;
        Grp 1 (Plus (NSet [ICh (uc "-"); ICh LF]))].

(** [s.rstrip(".")] *)
Definition rstrip_dots (s : pystr) : pystr :=
  rev (dropwhile (N.eqb (uc ".")) (rev s)).

Section Segmenter.

Variable U : UnicodeData.

Definition is_anchor (l : pystr) : bool := found (re_search U WORDCOUNT_RE l).

(** [[i for i, l in enumerate(lines) if WORDCOUNT_RE.search(l)]] *)
Definition anchor_indices (lines : list pystr) : list nat :=
  filter (fun i => is_anchor (line_at lines i)) (seq 0 (List.length lines)).

(** [int(WORDCOUNT_RE.search(line).group(1).replace(",", ""))] *)
Definition word_count_of (line : pystr) : result Z :=
  match re_search U WORDCOUNT_RE line with
  | None => Raise AttributeError
  | Some m =>
      match group m 1 with
      | None => Raise AttributeError
      | Some g => py_int U (str_replace (u ",") [] g)
      end
  end.

(** The language scan: at most [n] lines from [q]; the language found
    and the line where the scan stopped. *)
Fixpoint lang_scan (n : nat) (lines : list pystr) (q : nat) : pystr * nat :=
  match n with
  | O => ([], q)
  | S n' =>
      match nth_error lines q with
      | None => ([], q)
      | Some l =>
          let lang := detect_language U l in
          if nonempty lang then (lang, q) else lang_scan n' lines (S q)
      end
  end.

(** The IPD step at cursor [p] (after the publisher line): the field and
    the cursor it leaves. *)
Definition ipd_step (lines : list pystr) (p : nat) : pystr * nat :=
  let p := skip_blank lines p in
  let ipd_candidate := stripped_at lines p in
  let ipd := if found (re_fullmatch U re_ipd ipd_candidate)
             then ipd_candidate else [] in
  (ipd, if nonempty ipd then S p else p).

(** One round of the first loop: [Ok None] is [continue]. *)
Definition scan_anchor (lines : list pystr) (wc_i : nat) : result (option draft) :=
  match scan_up lines wc_i with
  | None => Ok None
  | Some j =>
      let title := strip (line_at lines j) in
      let p := skip_blank lines (wc_i + 1) in
      dt <- match nth_error lines p with
            | Some l => parse_factiva_date U l
            | None => Ok None
            end ;;
      match dt with
      | None => Ok None
      | Some dt =>
          let author_lines :=
            filter nonempty
              (map (fun k => strip (line_at lines k)) (seq (j + 1) (wc_i - (j + 1)))) in
          let author := join (u " | ") author_lines in
          wc <- word_count_of (line_at lines wc_i) ;;
          let time_iso := isoformat dt in
          let p := skip_blank lines (p + 1) in
          let publisher := stripped_at lines p in
          let '(ipd, p) := ipd_step lines (p + 1) in
          let '(lang, q) := lang_scan 25 lines p in
          let s := skip_blank lines (skip_text lines q) in
          let body_start := if Nat.ltb s (List.length lines) then Some s else None in
          Ok (Some {| d_title := title; d_author := author; d_time := time_iso;
                      d_language := lang; d_publisher := publisher; d_ipd := ipd;
                      d_word_count := wc; d_body_start_idx := body_start;
                      d_title_line_idx := j |})
      end
  end.

(** The first loop over the anchors. *)
Fixpoint first_pass (lines : list pystr) (idxs : list nat) : result (list draft) :=
  match idxs with
  | [] => Ok []
  | wc_i :: rest =>
      r <- scan_anchor lines wc_i ;;
      ds <- first_pass lines rest ;;
      Ok (match r with Some d => d :: ds | None => ds end)
  end.

(** The body of the second loop, for entry [i] of [articles]. *)
Definition attach (lines : list pystr) (articles : list draft) (i : nat)
  (a : draft) : article :=
  let end_ := if Nat.eqb (i + 1) (List.length articles) then List.length lines
              else d_title_line_idx (nth (i + 1) articles a) in
  let body_text :=
    match d_body_start_idx a with
    | Some start => strip (join [LF] (slice lines start end_))
    | None => []
    end in
  let body_text := body_sanitize U body_text in
  let keywords :=
    match re_search U re_keywords body_text with
    | Some km => match group km 1 with
                 | Some g => rstrip_dots (strip g)
                 | None => []
                 end
    | None => []
    end in
  let file_no := extract_file_id U body_text in
  let author :=
    if nonempty (d_author a) then d_author a
    else match re_search U re_byline body_text with
         | Some m => match group m 1 with Some g => strip g | None => [] end
         | None => d_author a
         end in
  {| a_title := d_title a; a_author := author; a_time := d_time a;
     a_language := d_language a; a_publisher := d_publisher a; a_ipd := d_ipd a;
     a_word_count := d_word_count a; a_body_start_idx := d_body_start_idx a;
     a_title_line_idx := d_title_line_idx a;
     a_keywords := keywords; a_file_no := file_no; a_body := body_text |}.

Definition enumerate {A} (l : list A) : list (nat * A) :=
  combine (seq 0 (List.length l)) l.

Definition split_articles (text : pystr) : result (list article) :=
  let lines := map rstrip (splitlines text) in
  let idxs := anchor_indices lines in
  articles <- first_pass lines idxs ;;
  Ok (map (fun ia => attach lines articles (fst ia) (snd ia)) (enumerate articles)).

(** *** Rows *)

Record row := {
  r_title : pystr;        (* 标题 *)
  r_author : pystr;       (* 作者 *)
  r_time : pystr;         (* 时间 *)
  r_language : pystr;     (* 语言 *)
  r_body : pystr;         (* 正文 *)
  r_ipd : pystr;          (* IPD *)
  r_topics : pystr;       (* 关联话题 *)
  r_regions : pystr;      (* 关联地区 *)
  r_publisher : pystr;    (* 发行公司 *)
  r_file_no : pystr;      (* 文件号 *)
  r_companies : pystr;    (* 关联公司 *)
  r_industries : pystr;   (* 关联行业 *)
  r_word_count : Z        (* 文章字数 *)
}.

(** [title + "\n" + "\n".join(body.splitlines()[:30])] *)
Definition sample_text (title body : pystr) : pystr :=
  title ++ [LF] ++ join [LF] (firstn 30 (splitlines body)).

Definition row_of (a : article) : row :=
  let title := clean_title U (a_title a) in
  let '(topics, regions, industries) := split_keywords U (a_keywords a) in
  let companies := companies_of U (sample_text title (a_body a)) in
  {| r_title := title; r_author := a_author a; r_time := a_time a;
     r_language := a_language a; r_body := a_body a; r_ipd := a_ipd a;
     r_topics := join (u "; ") topics; r_regions := join (u "; ") regions;
     r_publisher := a_publisher a; r_file_no := a_file_no a;
     r_companies := join (u "; ") companies;
     r_industries := join (u "; ") industries;
     r_word_count := a_word_count a |}.

Definition BANNER : pystr := u "Factiva RTF Display Format".

(** [rtf_factiva_to_rows], from the text read from the file. *)
Definition rtf_factiva_to_rows (raw : pystr) : result (list row) :=
  let txt := rtf_to_text U raw in
  let txt := match str_find BANNER txt with
             | Some start_idx => skipn start_idx txt
             | None => txt
             end in
  let txt := clean_factiva_text U txt in
  let txt := preprocess U txt in
  articles <- split_articles txt ;;
  Ok (map row_of articles).

End Segmenter.

(** ** Vocabulary of the properties *)

Definition COMMA : char := uc ",".

Definition is_geo (p : pystr) : bool := existsb (str_eqb p) GEO.

Definition has_hint (U : UnicodeData) (p : pystr) : bool :=
  existsb (fun h => str_in (str_lower U h) (str_lower U p)) INDUSTRY_HINTS.

Definition bucket_eqb (a b : bucket) : bool :=
  match a, b with
  | Region, Region | Industry, Industry | Topic, Topic => true
  | _, _ => false
  end.

Definition goes_to (U : UnicodeData) (b : bucket) (p : pystr) : bool :=
  bucket_eqb (classify U p) b.

(** A token as [keyword_parts] produces them. *)
Definition token (p : pystr) : Prop :=
  p <> [] /\ strip p = p /\ ~ In COMMA p.

(** The test that ends the loop of [body_sanitize], on a line of the
    body. *)
Definition is_corrupt (ln : pystr) : bool :=
  nonempty (strip ln) && corrupt_line (strip ln).

(** What the loop of [body_sanitize] keeps of a line it does not stop at. *)
Definition keep_line (ln : pystr) : pystr :=
  if is_blank ln then [] else rstrip ln.

(** The test that drops a line in [clean_factiva_text]. *)
Definition is_noise (line : pystr) : bool := noise_line (strip line).

(** What [re.fullmatch(r"[A-Z0-9]{2,10}", s)] asks of [s], said directly:
    two to ten characters, each an upper-case Basic Latin letter or a
    digit. *)
Definition short_upper_alnum (s : pystr) : bool :=
  Nat.leb 2 (List.length s) && Nat.leb (List.length s) 10
  && forallb (fun c => in_range (uc "A") (uc "Z") c || in_range (uc "0") (uc "9") c) s.

(** The continuation of [re.fullmatch]: the subject is used up. *)
Definition at_end (st : mstate) : option mstate :=
  match m_rest st with [] => Some st | _ => None end.

(** Reading back a timestamp [YYYY-MM-DD HH:MM:00]. *)
Definition digit_of (c : char) : option Z :=
  if ascii_digit c then Some (Z.of_N (c - 48)) else None.

Fixpoint read_number (acc : Z) (s : pystr) : option Z :=
  match s with
  | [] => Some acc
  | c :: t =>
      match digit_of c with
      | Some d => read_number (10 * acc + d) t
      | None => None
      end
  end.

Definition parse_iso (s : pystr) : option datetime :=
  match s with
  | [y1; y2; y3; y4; h1; m1; m2; h2; d1; d2; sp; H1; H2; c1; M1; M2; c2; S1; S2] =>
      if str_eqb [h1; h2; sp; c1; c2; S1; S2] (u "-- ::00") then
        match read_number 0 [y1; y2; y3; y4], read_number 0 [m1; m2],
              read_number 0 [d1; d2], read_number 0 [H1; H2],
              read_number 0 [M1; M2] with
        | Some y, Some mo, Some d, Some hh, Some mm =>
            if valid_datetime y mo d hh mm
            then Some {| dt_year := y; dt_month := mo; dt_day := d;
                         dt_hour := hh; dt_minute := mm |}
            else None
        | _, _, _, _, _ => None
        end
      else None
  | _ => None
  end.

(** What the first loop records for the anchor at line [wc_i] that it
    accepts: [j] is the title line, [p] the date line, [dt] the date. *)
Record accepted (U : UnicodeData) (lines : list pystr) (wc_i j p : nat)
  (dt : datetime) (d : draft) : Prop := {
  acc_title : scan_up lines wc_i = Some j;
  acc_date_at : p = skip_blank lines (wc_i + 1);
  acc_parse :
    exists l, nth_error lines p = Some l
              /\ parse_factiva_date U l = Ok (Some dt);
  acc_count : word_count_of U (line_at lines wc_i) = Ok (d_word_count d);
  acc_d_title : d_title d = strip (line_at lines j);
  acc_d_idx : d_title_line_idx d = j;
  acc_d_time : d_time d = isoformat dt;
  acc_d_pub : d_publisher d = stripped_at lines (skip_blank lines (p + 1));
  acc_d_ipd : d_ipd d = fst (ipd_step U lines (skip_blank lines (p + 1) + 1));
  acc_d_lang :
    d_language d =
      fst (lang_scan U 25 lines
             (snd (ipd_step U lines (skip_blank lines (p + 1) + 1))));
  acc_d_start :
    d_body_start_idx d =
      let q := snd (lang_scan U 25 lines
                      (snd (ipd_step U lines (skip_blank lines (p + 1) + 1)))) in
      let s := skip_blank lines (skip_text lines q) in
      if Nat.ltb s (List.length lines) then Some s else None
}.

(** The text that [rtf_factiva_to_rows] hands to [split_articles]. *)
Definition cleaned_text (U : UnicodeData) (raw : pystr) : pystr :=
  let txt := rtf_to_text U raw in
  let txt := match str_find BANNER txt with
             | Some start_idx => skipn start_idx txt
             | None => txt
             end in
  preprocess U (clean_factiva_text U txt).

(** The lines that [split_articles] works on. *)
Definition lines_of (text : pystr) : list pystr := map rstrip (splitlines text).

(** Where the body of entry [i] ends: the title line of the next entry, or
    the end of the lines for the last one. *)
Definition body_end (lines : list pystr) (arts : list article) (i : nat) : nat :=
  match nth_error arts (S i) with
  | Some b => a_title_line_idx b
  | None => List.length lines
  end.

(** A record that comes from an anchor of [lines]: a non-blank line above
    the anchor gives the raw title, the next non-blank line below it gives
    the date, and the time field is that date, written out. *)
Definition row_from_anchor (U : UnicodeData) (lines : list pystr) (r : row)
  : Prop :=
  exists (wc_i j p : nat) (l : pystr) (dt : datetime),
    is_anchor U (line_at lines wc_i) = true
    /\ scan_up lines wc_i = Some j
    /\ strip (line_at lines j) <> []
    /\ r_title r = clean_title U (strip (line_at lines j))
    /\ p = skip_blank lines (wc_i + 1)
    /\ nth_error lines p = Some l
    /\ parse_factiva_date U l = Ok (Some dt)
    /\ r_time r = isoformat dt
    /\ parse_iso (r_time r) = Some dt.

(** The body of entry [i] is cut from its body start to the title line of
    entry [i+1], and shares no line with the body of entry [i+1]. *)
Definition body_bounded (U : UnicodeData) (lines : list pystr)
  (arts : list article) (i : nat) (a : article) : Prop :=
  let end_ := body_end lines arts i in
  a_body a =
    body_sanitize U
      (match a_body_start_idx a with
       | Some start => strip (join [LF] (slice lines start end_))
       | None => []
       end)
  /\ (forall start k, a_body_start_idx a = Some start ->
        nth_error (slice lines start end_) k =
        if Nat.ltb k (end_ - start) then nth_error lines (start + k) else None)
  /\ (nth_error arts (S i) = None -> end_ = List.length lines)
  /\ (forall start, a_body_start_idx a = Some start ->
        (a_title_line_idx a < start < List.length lines)%nat)
  /\ (forall b, nth_error arts (S i) = Some b ->
        end_ = a_title_line_idx b
        /\ forall start start' k,
             a_body_start_idx a = Some start ->
             a_body_start_idx b = Some start' ->
             (start <= k < end_)%nat ->
             k <> a_title_line_idx b
             /\ ~ (start' <= k < body_end lines arts (S i))%nat).

(** Line [c] is the next non-blank line at or after line [from]: every
    line from [from] up to [c] is there and is blank, and line [c] is not
    blank when it is there. (When no such line is left, [c] is the number
    of lines, or [from] itself if that is already past the end.) *)
Definition next_nonblank (lines : list pystr) (from c : nat) : Prop :=
  (from <= c)%nat
  /\ (forall k, (from <= k < c)%nat ->
        exists l, nth_error lines k = Some l /\ is_blank l = true)
  /\ (forall l, nth_error lines c = Some l -> is_blank l = false).

(** The IPD rule for the article [a] of [lines]. The lines are those of
    the article's own header: [wc_i] is its anchor, the first non-blank
    line below its title line; [p] its date line, the next non-blank line
    below the anchor; [pub] its publisher line, the next non-blank line
    below the date line; [c] the candidate line, the next non-blank line
    below the publisher line. The candidate is the IPD field exactly when
    its stripped text is two to ten upper-case letters or digits, and the
    language scan then starts below it; otherwise the field is empty and
    the scan starts on the candidate line itself. *)
Definition ipd_rule (U : UnicodeData) (lines : list pystr) (a : article)
  (wc_i p pub c : nat) : Prop :=
  (a_title_line_idx a < wc_i)%nat
  /\ is_anchor U (line_at lines wc_i) = true
  /\ (forall k, (a_title_line_idx a < k < wc_i)%nat ->
        is_blank (line_at lines k) = true)
  /\ next_nonblank lines (wc_i + 1) p
  /\ (exists l dt, nth_error lines p = Some l
                   /\ parse_factiva_date U l = Ok (Some dt)
                   /\ a_time a = isoformat dt)
  /\ next_nonblank lines (p + 1) pub
  /\ next_nonblank lines (pub + 1) c
  /\ a_publisher a = stripped_at lines pub
  /\ let cand := stripped_at lines c in
     (short_upper_alnum cand = true ->
        a_ipd a = cand /\ a_language a = fst (lang_scan U 25 lines (S c)))
     /\ (short_upper_alnum cand = false ->
        a_ipd a = [] /\ a_language a = fst (lang_scan U 25 lines c)
        /\ forall l, nth_error lines c = Some l ->
             a_language a =
               if nonempty (detect_language U l) then detect_language U l
               else fst (lang_scan U 24 lines (S c))).

(** ** Documents used in the examples *)

Definition doc_sample : pystr :=
  join [LF] [u "First title"; u "1,234字"; u "2024年3月5日 09:30"; u "Publisher";
             u "IPD1"; u "英文"; []; u "Body text."; [];
             u "Second title"; u "56字"; u "2023年12月31日"; u "Other Press";
             u "not an ipd"; u "Chinese"; []; u "More text."].

Definition doc_dashes : pystr :=
  join [LF] [u "---"; u "100字"; u "2024年3月5日"].

Definition doc_no_digits : pystr :=
  join [LF] [u "Title"; u ",字"; u "2024年3月5日 09:30"].

Definition doc_commas : pystr :=
  join [LF] [u "Title"; u ",,字"; u "2024年3月5日"].

Definition doc_month13 : pystr :=
  join [LF] [u "Title"; u "100字"; u "2024年13月5日"].

Definition doc_noise : pystr :=
  join [LF] [u "x"; u "  ab  "; []; []; []; u "y"].

Definition hex90 : pystr := repeat (uc "a") 90.

Definition body_corrupt : pystr :=
  join [LF] [u "ok line"; hex90; u "lost"].

Definition text_companies : pystr :=
  u "Acme Robotics Inc. and Globex Corp. announced...".

Definition text_companies_plain : pystr :=
  u "Acme Robotics Group and Globex PLC announced...".

(** A header with blank lines between its lines, and a candidate line
    that is no IPD. *)
Definition doc_gaps : pystr :=
  join [LF] [u "Title"; u "100字"; []; u "2024年3月5日"; []; u "Publisher";
             []; []; u "not an ipd"; u "Chinese"; []; u "Body text."].

Definition gaps_articles : list article :=
  Eval vm_compute in
    match split_articles cjk_tables doc_gaps with
    | Ok arts => arts
    | Raise _ => []
    end.

(** What the pipeline gives on [doc_sample]. *)
Definition sample_articles : list article :=
  Eval vm_compute in
    match split_articles cjk_tables doc_sample with
    | Ok arts => arts
    | Raise _ => []
    end.

Definition sample_rows : list row :=
  Eval vm_compute in
    match rtf_factiva_to_rows cjk_tables doc_sample with
    | Ok rows => rows
    | Raise _ => []
    end.

(** Strictly before, in the order of [sorted]. *)
Definition str_lt (a b : pystr) : Prop := str_ltb a b = true.

(** An export as the decoder meets it: control words, escaped code points,
    a paragraph mark after every line. *)
Definition doc_rtf : pystr :=
  join [BACKSLASH]
    [u "{"; u "rtf1"; u "ansi Tom"; u "'27s"; u "par 12"; u "u23383?";
     u "par 2024"; u "u24180?3"; u "u26376?5"; u "u26085?"; u "par Pub";
     u "par }"].

(** ** Vocabulary of the further properties *)

(** The character before the cursor after [pre] was read. *)
Definition last_char (prev : option char) (pre : pystr) : option char :=
  fold_left (fun _ c => Some c) pre prev.

(** [st'] is [st] after the matcher read [pre]. *)
Definition advanced (st st' : mstate) (pre : pystr) : Prop :=
  m_rest st = pre ++ m_rest st'
  /\ m_pos st' = (m_pos st + List.length pre)%nat
  /\ m_prev st' = last_char (m_prev st) pre.

(** A character that [\d,] accepts. *)
Definition digit_or_comma (U : UnicodeData) (c : char) : bool :=
  existsb (item_match U c) [IDigit; ICh (uc ",")].

(** What is assumed of the decimal digits of the character database: none
    is white space, and their values are 0 to 9. *)
Definition sane_digits (U : UnicodeData) : Prop :=
  (forall c, isdecimal U c = true -> isspace c = false)
  /\ (forall c d, decimal_value U c = Some d -> (0 <= d <= 9)%Z).

(** What is assumed of the white space of the character database: no
    white-space character is a word character. *)
Definition space_not_word (U : UnicodeData) : Prop :=
  forall c, isspace c = true -> isword U c = false.

(** [\W] *)
Definition nonword (U : UnicodeData) (c : char) : bool := negb (isword U c).

(** The three values of the language field. *)
Definition language_value (s : pystr) : Prop :=
  s = [] \/ s = u "英文" \/ s = u "中文".

(** A character that the noise filter lets through. *)
Definition clean_char (U : UnicodeData) (c : char) : Prop :=
  c = LF \/ isprintable U c = true.

(** Between the title lines of two drafts there is the anchor of the
    first. *)
Definition anchor_between (U : UnicodeData) (lines : list pystr)
  (d1 d2 : draft) : Prop :=
  exists w, is_anchor U (line_at lines w) = true
            /\ (d_title_line_idx d1 < w <= d_title_line_idx d2)%nat.

(** The groups set in [st] are still set in [st']. *)
Definition keeps_groups (st st' : mstate) : Prop :=
  forall n, lookup_group n (m_groups st) <> None ->
            lookup_group n (m_groups st') <> None.

(** [st'] is [st] after the matcher read [pre], with no group lost. *)
Definition extends (st st' : mstate) (pre : pystr) : Prop :=
  advanced st st' pre /\ keeps_groups st st'.

(** The endings that [COMPANY_RE] lists. *)
Definition COMPANY_SUFFIXES : list pystr :=
  map u ["Inc."; "Corp."; "Corporation"; "Ltd."; "Limited"; "Group";
         "Company"; "Co."; "PLC"; "LLC"; "S.A."; "AG"]%string.

(** [A-Z] *)
Definition upper (c : char) : bool := in_range (uc "A") (uc "Z") c.

(** [A-Za-z0-9] *)
Definition file_id_char (c : char) : bool :=
  upper c || in_range (uc "a") (uc "z") c || in_range (uc "0") (uc "9") c.

(** The three parts of a file number: [[A-Z]{2,10}], [\d{8,}],
    [[A-Za-z0-9]{3,}]. *)
Definition file_id_parts (U : UnicodeData) (a b c : pystr) : Prop :=
  (2 <= List.length a <= 10)%nat /\ forallb upper a = true
  /\ (8 <= List.length b)%nat /\ forallb (isdecimal U) b = true
  /\ (3 <= List.length c)%nat /\ forallb file_id_char c = true.

(** The label that introduces the keywords in a body. *)
Definition KEYWORDS_LABEL : pystr := u "Keywords for this news article include:".

(** What the pipeline gives on [doc_dashes]. *)
Definition dashes_articles : list article :=
  Eval vm_compute in
    match split_articles cjk_tables doc_dashes with
    | Ok arts => arts
    | Raise _ => []
    end.

Definition doc_keywords : pystr :=
  join [LF] [u "Title"; u "100字"; u "2024年3月5日"; u "Publisher"; u "IPD1";
             u "英文"; []; u "Body text.";
             u "Keywords for this news article include: China, Oil."].

Definition keywords_articles : list article :=
  Eval vm_compute in
    match split_articles cjk_tables doc_keywords with
    | Ok arts => arts
    | Raise _ => []
    end.

Definition doc_byline : pystr :=
  join [LF] [u "Title"; u "100字"; u "2024年3月5日";
             u "Publisher"; u "IPD1"; u "英文"; []; u "Body text.";
             u "-- By Jane Doe"].

Definition byline_articles : list article :=
  Eval vm_compute in
    match split_articles cjk_tables doc_byline with
    | Ok arts => arts
    | Raise _ => []
    end.

(** Three line feeds in a row somewhere in [s]. *)
Fixpoint blank_run (s : pystr) : bool :=
  match s with
  | [] => false
  | a :: t =>
      match t with
      | b :: c :: _ => ((a =? LF) && (b =? LF) && (c =? LF))%N || blank_run t
      | _ => false
      end
  end.

(** The steps of [rtf_to_text] that do not look at control sequences. *)
Definition unix_newlines (s : pystr) : pystr :=
  str_replace [CR] [LF] (str_replace [CR; LF] [LF] s).

Definition drop_braces (s : pystr) : pystr :=
  str_replace (u "}") [] (str_replace (u "{") [] s).

Definition squeeze_newlines (U : UnicodeData) (s : pystr) : pystr :=
  re_sub U re_trailing_blanks (const_repl [LF])
    (re_sub U re_blank_runs (const_repl [LF; LF]) s).

Definition doc_plain : pystr :=
  join [LF] [u "Title"; u "100 words"; u "5 March 2024"].

(** * Properties *)

(** ** Strings *)

Lemma str_eqb_eq (a b : pystr) : str_eqb a b = true <-> a = b.
Proof.
  revert b; induction a as [|x a IH]; intros [|y b]; simpl;
    try (split; [discriminate | congruence]); try tauto.
  rewrite andb_true_iff, N.eqb_eq, IH. split.
  - intros [-> ->]; reflexivity.
  - intros H; injection H; auto.
Qed.

Lemma existsb_str_eqb_In (p : pystr) (l : list pystr) :
  existsb (str_eqb p) l = true <-> In p l.
Proof.
  rewrite existsb_exists. split.
  - intros (x & Hin & Heq). apply str_eqb_eq in Heq. now subst.
  - intros Hin. exists p. split; [assumption | now apply str_eqb_eq].
Qed.

Lemma dropwhile_suffix {A} (f : A -> bool) (l : list A) :
  exists pre, l = pre ++ dropwhile f l /\ forallb f pre = true.
Proof.
  induction l as [|x l (pre & Hl & Hpre)]; simpl.
  - exists []; auto.
  - destruct (f x) eqn:Hx.
    + exists (x :: pre). simpl. rewrite Hx, Hpre. split; [congruence | reflexivity].
    + exists []. auto.
Qed.

Lemma dropwhile_head {A} (f : A -> bool) (l : list A) x t :
  dropwhile f l = x :: t -> f x = false.
Proof.
  induction l as [|y l IH]; simpl; [discriminate|].
  destruct (f y) eqn:Hy; [exact IH|].
  intros H; injection H as -> _. exact Hy.
Qed.

Lemma dropwhile_fixed {A} (f : A -> bool) (l : list A) :
  match l with [] => True | x :: _ => f x = false end -> dropwhile f l = l.
Proof. destruct l as [|x l]; simpl; [reflexivity|]. now intros ->. Qed.

Lemma dropwhile_idem {A} (f : A -> bool) (l : list A) :
  dropwhile f (dropwhile f l) = dropwhile f l.
Proof.
  apply dropwhile_fixed. destruct (dropwhile f l) eqn:E; [exact I|].
  eapply dropwhile_head; eassumption.
Qed.

(** [rstrip] keeps a prefix of its argument. *)
Lemma rstrip_prefix (s : pystr) :
  exists tl, s = rstrip s ++ tl /\ forallb isspace tl = true.
Proof.
  unfold rstrip. destruct (dropwhile_suffix isspace (rev s)) as (pre & Hs & Hpre).
  exists (rev pre). split.
  - rewrite <- rev_app_distr, <- Hs, rev_involutive. reflexivity.
  - rewrite forallb_forall in *. intros x Hx. apply Hpre. now apply in_rev.
Qed.

Lemma rstrip_idem (s : pystr) : rstrip (rstrip s) = rstrip s.
Proof. unfold rstrip. rewrite rev_involutive, dropwhile_idem. reflexivity. Qed.

Lemma strip_head (s : pystr) x t : strip s = x :: t -> isspace x = false.
Proof.
  unfold strip. intros H.
  destruct (rstrip_prefix (lstrip s)) as (tl & Hl & _).
  rewrite H in Hl. simpl in Hl. eapply dropwhile_head. exact Hl.
Qed.

Lemma strip_idem (s : pystr) : strip (strip s) = strip s.
Proof.
  unfold strip at 1. unfold lstrip at 1.
  rewrite dropwhile_fixed.
  - unfold strip. apply rstrip_idem.
  - destruct (strip s) eqn:E; [exact I|]. eapply strip_head; eassumption.
Qed.

Lemma strip_nil : strip [] = [].
Proof. reflexivity. Qed.

(** The characters of a stripped string come from the string. *)
Lemma strip_incl (s : pystr) x : In x (strip s) -> In x s.
Proof.
  unfold strip. intros Hx.
  destruct (rstrip_prefix (lstrip s)) as (tl & Hl & _).
  destruct (dropwhile_suffix isspace s) as (pre & Hs & _).
  rewrite Hs. apply in_or_app. right. fold (lstrip s). rewrite Hl.
  apply in_or_app. now left.
Qed.

Lemma split_char_nonnil c s : split_char c s <> [].
Proof.
  destruct s as [|x t]; simpl; [discriminate|].
  destruct (x =? c)%N; [discriminate|]. destruct (split_char c t); discriminate.
Qed.

(** No piece of [s.split(c)] contains the separator. *)
Lemma split_char_free c s w :
  In w (split_char c s) -> ~ In c w.
Proof.
  revert w; induction s as [|x t IH]; simpl; intros w Hw.
  - destruct Hw as [<-|[]]. auto.
  - destruct (x =? c)%N eqn:Hx.
    + destruct Hw as [<-|Hw]; [auto | now apply IH].
    + destruct (split_char c t) as [|w0 ws] eqn:E.
      * destruct Hw as [<-|[]]. simpl. intros [->|[]].
        now rewrite N.eqb_refl in Hx.
      * destruct Hw as [<-|Hw].
        -- simpl. intros [->|H]; [now rewrite N.eqb_refl in Hx|].
           revert H. apply IH. now left.
        -- apply IH. now right.
Qed.

Lemma split_char_single c w :
  ~ In c w -> split_char c w = [w].
Proof.
  induction w as [|x t IH]; simpl; intros H; [reflexivity|].
  destruct (x =? c)%N eqn:Hx.
  - apply N.eqb_eq in Hx. exfalso. apply H. now left.
  - rewrite IH by tauto. reflexivity.
Qed.

Lemma split_char_app c w s :
  ~ In c w -> split_char c (w ++ c :: s) = w :: split_char c s.
Proof.
  induction w as [|x t IH]; simpl; intros H.
  - now rewrite N.eqb_refl.
  - destruct (x =? c)%N eqn:Hx.
    + apply N.eqb_eq in Hx. exfalso. apply H. now left.
    + rewrite IH by tauto. reflexivity.
Qed.

(** Splitting a comma-joined list of separator-free tokens gives the
    tokens back. *)
Lemma split_join c (ps : list pystr) :
  ps <> [] -> Forall (fun w => ~ In c w) ps ->
  split_char c (join [c] ps) = ps.
Proof.
  induction ps as [|p ps IH]; [congruence|]. intros _ Hall.
  inversion Hall as [|? ? Hp Hps]; subst.
  destruct ps as [|q ps].
  - simpl. now apply split_char_single.
  - change (join [c] (p :: q :: ps)) with (p ++ c :: join [c] (q :: ps)).
    rewrite split_char_app by assumption. f_equal. apply IH; [discriminate | assumption].
Qed.

(** ** The keyword classifier *)

Section ClassifierFacts.

Variable U : UnicodeData.

Lemma classify_cases (p : pystr) :
  classify U p =
    if is_geo p then Region else if has_hint U p then Industry else Topic.
Proof. reflexivity. Qed.

Lemma goes_to_region p : goes_to U Region p = is_geo p.
Proof.
  unfold goes_to. rewrite classify_cases.
  destruct (is_geo p), (has_hint U p); reflexivity.
Qed.

Lemma goes_to_industry p : goes_to U Industry p = negb (is_geo p) && has_hint U p.
Proof.
  unfold goes_to. rewrite classify_cases.
  destruct (is_geo p), (has_hint U p); reflexivity.
Qed.

Lemma goes_to_topic p :
  goes_to U Topic p = negb (is_geo p) && negb (has_hint U p).
Proof.
  unfold goes_to. rewrite classify_cases.
  destruct (is_geo p), (has_hint U p); reflexivity.
Qed.

(** The loop of [split_keywords] appends to each list the tokens of its
    bucket, in order. *)
Lemma route_filter (parts : list pystr) (t r i : list pystr) :
  route U parts (t, r, i) =
    (t ++ filter (goes_to U Topic) parts,
     r ++ filter (goes_to U Region) parts,
     i ++ filter (goes_to U Industry) parts).
Proof.
  revert t r i. induction parts as [|p parts IH]; intros t r i; simpl.
  - now rewrite !app_nil_r.
  - unfold goes_to. destruct (classify U p) eqn:E; rewrite IH; simpl;
      rewrite <- ?app_assoc; reflexivity.
Qed.

Lemma split_keywords_filter (kw : pystr) :
  split_keywords U kw =
    (filter (goes_to U Topic) (keyword_parts kw),
     filter (goes_to U Region) (keyword_parts kw),
     filter (goes_to U Industry) (keyword_parts kw)).
Proof. unfold split_keywords. now rewrite route_filter. Qed.

Lemma buckets_permutation (parts : list pystr) :
  Permutation
    (filter (goes_to U Topic) parts ++ filter (goes_to U Region) parts
     ++ filter (goes_to U Industry) parts) parts.
Proof.
  induction parts as [|p parts IH]; simpl; [constructor|].
  unfold goes_to in *. destruct (classify U p); simpl.
  - (* Region *)
    apply Permutation_sym. etransitivity.
    2: { apply Permutation_middle. }
    constructor. now apply Permutation_sym.
  - (* Industry *)
    apply Permutation_sym. etransitivity.
    2: { rewrite app_assoc. apply Permutation_middle. }
    constructor. rewrite <- app_assoc. now apply Permutation_sym.
  - constructor. exact IH.
Qed.

Lemma keyword_parts_In (kw p : pystr) :
  In p (keyword_parts kw) <->
  p <> [] /\ exists raw, In raw (split_char COMMA kw) /\ p = strip raw.
Proof.
  unfold keyword_parts. rewrite filter_In, in_map_iff. fold COMMA. split.
  - intros ((raw & Hs & Hin) & Hne). split.
    + intros ->. discriminate.
    + exists raw. auto.
  - intros (Hne & raw & Hin & ->). split.
    + exists raw. auto.
    + destruct (strip raw); [congruence | reflexivity].
Qed.

Lemma keyword_parts_token (kw p : pystr) : In p (keyword_parts kw) -> token p.
Proof.
  rewrite keyword_parts_In. intros (Hne & raw & Hin & ->).
  repeat split; [assumption | apply strip_idem |].
  intros Hc. apply strip_incl in Hc. exact (@split_char_free _ _ _ Hin Hc).
Qed.

Lemma join_head_app (sep pad q : pystr) (l : list pystr) :
  pad ++ join sep (q :: l) = join sep ((pad ++ q) :: l).
Proof. destruct l; simpl; [reflexivity | now rewrite app_assoc]. Qed.

Lemma split_join_pad (pad p : pystr) (ps : list pystr) :
  ~ In COMMA pad -> ~ In COMMA p -> Forall (fun w => ~ In COMMA w) ps ->
  split_char COMMA (join (COMMA :: pad) (p :: ps)) = p :: map (app pad) ps.
Proof.
  intros Hpad. revert p. induction ps as [|q ps IH]; intros p Hp Hall.
  - simpl. now apply split_char_single.
  - inversion Hall as [|? ? Hq Hps]; subst.
    change (join (COMMA :: pad) (p :: q :: ps))
      with (p ++ COMMA :: (pad ++ join (COMMA :: pad) (q :: ps))).
    rewrite split_char_app by assumption. f_equal.
    rewrite join_head_app. apply IH; [|assumption].
    rewrite in_app_iff. tauto.
Qed.

(** Re-splitting joined tokens gives the tokens back, with or without a
    space after the comma. *)
Lemma keyword_parts_join (pad : pystr) (ps : list pystr) :
  pad = [] \/ pad = [SP] -> Forall token ps ->
  keyword_parts (join (COMMA :: pad) ps) = ps.
Proof.
  intros Hpad Hall. destruct ps as [|p ps]; [reflexivity|].
  unfold keyword_parts. fold COMMA. rewrite split_join_pad.
  - assert (Hstrip : forall w, token w -> strip (pad ++ w) = w).
    { intros w (_ & Hw & _). destruct Hpad as [-> | ->]; exact Hw. }
    assert (Hmap : map strip (p :: map (app pad) ps) = p :: ps).
    { inversion Hall as [|? ? Hp Hps]; subst. simpl. f_equal.
      - now destruct Hp as (_ & Hp & _).
      - rewrite map_map. clear - Hps Hstrip.
        induction Hps as [|w ws Hw _ IH]; simpl; [reflexivity|].
        rewrite Hstrip by assumption. now f_equal. }
    rewrite Hmap. clear - Hall.
    induction Hall as [|w ws Hw _ IH]; simpl; [reflexivity|].
    destruct Hw as (Hne & _). destruct w; [congruence|]. simpl. now f_equal.
  - destruct Hpad as [-> | ->]; simpl; [tauto|]. intros [H|[]]. discriminate.
  - inversion Hall as [|? ? (_ & _ & Hp) _]; assumption.
  - inversion Hall as [|? ? _ Hps]; subst.
    eapply Forall_impl; [|exact Hps]. intros w (_ & _ & Hw). exact Hw.
Qed.

(** Tokens of one bucket are routed to that bucket again. *)
Lemma filter_same (b : bucket) (ps : list pystr) :
  Forall (fun p => goes_to U b p = true) ps -> filter (goes_to U b) ps = ps.
Proof.
  induction 1 as [|p ps Hp _ IH]; simpl; [reflexivity|]. rewrite Hp. now f_equal.
Qed.

Lemma filter_other (b b' : bucket) (ps : list pystr) :
  b <> b' -> Forall (fun p => goes_to U b p = true) ps ->
  filter (goes_to U b') ps = [].
Proof.
  intros Hb. induction 1 as [|p ps Hp _ IH]; simpl; [reflexivity|].
  unfold goes_to in *. destruct (classify U p), b, b'; simpl in *;
    congruence.
Qed.

Lemma bucket_tokens (b : bucket) (kw : pystr) :
  Forall token (filter (goes_to U b) (keyword_parts kw)) /\
  Forall (fun p => goes_to U b p = true) (filter (goes_to U b) (keyword_parts kw)).
Proof.
  split; apply Forall_forall; intros p Hp; apply filter_In in Hp;
    destruct Hp as (Hin & Hb); [eapply keyword_parts_token; eassumption | assumption].
Qed.

Lemma reclassify (b : bucket) (pad : pystr) (kw : pystr) :
  pad = [] \/ pad = [SP] ->
  keyword_parts (join (COMMA :: pad) (filter (goes_to U b) (keyword_parts kw)))
  = filter (goes_to U b) (keyword_parts kw).
Proof. intros Hpad. apply keyword_parts_join; [assumption | apply bucket_tokens]. Qed.

End ClassifierFacts.

(** C5. [split_keywords] splits on commas, trims the pieces, drops the
    empty ones, and routes every remaining token to exactly one list: to
    the regions when it is a member of [GEO]; otherwise to the industries
    when the lowercase of some word of [INDUSTRY_HINTS] occurs in its
    lowercase; otherwise to the topics. No token is in two lists, and the
    three lists together are a rearrangement of the tokens. *)
Theorem split_keywords_partition (U : UnicodeData) (kw : pystr) :
  let parts := keyword_parts kw in
  let '(topics, regions, industries) := split_keywords U kw in
  (forall p, In p parts <->
     p <> [] /\ exists raw, In raw (split_char COMMA kw) /\ p = strip raw)
  /\ (forall p, is_geo p = true <-> In p GEO)
  /\ regions = filter is_geo parts
  /\ industries = filter (fun p => negb (is_geo p) && has_hint U p) parts
  /\ topics = filter (fun p => negb (is_geo p) && negb (has_hint U p)) parts
  /\ (forall p, ~ (In p regions /\ In p industries)
             /\ ~ (In p regions /\ In p topics)
             /\ ~ (In p industries /\ In p topics))
  /\ (forall p, In p parts <-> In p topics \/ In p regions \/ In p industries)
  /\ Permutation (topics ++ regions ++ industries) parts.
Proof.
  intros parts. rewrite split_keywords_filter. fold parts.
  assert (Hr : filter (goes_to U Region) parts = filter is_geo parts).
  { apply filter_ext. apply goes_to_region. }
  assert (Hi : filter (goes_to U Industry) parts
               = filter (fun p => negb (is_geo p) && has_hint U p) parts).
  { apply filter_ext. apply goes_to_industry. }
  assert (Ht : filter (goes_to U Topic) parts
               = filter (fun p => negb (is_geo p) && negb (has_hint U p)) parts).
  { apply filter_ext. apply goes_to_topic. }
  split; [apply keyword_parts_In|].
  split; [intros p; apply existsb_str_eqb_In|].
  repeat split; try assumption.
  - intros (H1 & H2). apply filter_In in H1, H2. unfold goes_to in *.
    destruct H1 as (_ & H1), H2 as (_ & H2). destruct (classify U p); discriminate.
  - intros (H1 & H2). apply filter_In in H1, H2. unfold goes_to in *.
    destruct H1 as (_ & H1), H2 as (_ & H2). destruct (classify U p); discriminate.
  - intros (H1 & H2). apply filter_In in H1, H2. unfold goes_to in *.
    destruct H1 as (_ & H1), H2 as (_ & H2). destruct (classify U p); discriminate.
  - intros Hp. rewrite !filter_In. unfold goes_to.
    destruct (classify U p); simpl; auto.
  - rewrite !filter_In. tauto.
  - apply buckets_permutation.
Qed.

(** C8. The classifier is idempotent: the tokens of each list of
    [split_keywords], joined with commas (with or without a space after
    the comma) and classified again, give that list back and leave the
    other two lists empty. *)
Theorem split_keywords_idempotent (U : UnicodeData) (kw : pystr) (spaced : bool) :
  let '(topics, regions, industries) := split_keywords U kw in
  let sep := COMMA :: (if spaced then [SP] else []) in
  split_keywords U (join sep topics) = (topics, [], [])
  /\ split_keywords U (join sep regions) = ([], regions, [])
  /\ split_keywords U (join sep industries) = ([], [], industries).
Proof.
  rewrite split_keywords_filter.
  set (sep := COMMA :: (if spaced then [SP] else [])).
  assert (Hpad : (if spaced then [SP] else []) = []
                 \/ (if spaced then [SP] else []) = [SP]).
  { destruct spaced; auto. }
  assert (H : forall b, split_keywords U
                (join sep (filter (goes_to U b) (keyword_parts kw)))
              = (filter (goes_to U Topic) (filter (goes_to U b) (keyword_parts kw)),
                 filter (goes_to U Region) (filter (goes_to U b) (keyword_parts kw)),
                 filter (goes_to U Industry) (filter (goes_to U b) (keyword_parts kw)))).
  { intros b. rewrite split_keywords_filter. unfold sep.
    rewrite reclassify by assumption. reflexivity. }
  pose proof (fun b => proj2 (bucket_tokens U b kw)) as Hb.
  repeat split; rewrite H.
  - rewrite (@filter_same U Topic _ (Hb Topic)).
    rewrite (@filter_other U Topic Region _ ltac:(discriminate) (Hb Topic)).
    rewrite (@filter_other U Topic Industry _ ltac:(discriminate) (Hb Topic)).
    reflexivity.
  - rewrite (@filter_same U Region _ (Hb Region)).
    rewrite (@filter_other U Region Topic _ ltac:(discriminate) (Hb Region)).
    rewrite (@filter_other U Region Industry _ ltac:(discriminate) (Hb Region)).
    reflexivity.
  - rewrite (@filter_same U Industry _ (Hb Industry)).
    rewrite (@filter_other U Industry Topic _ ltac:(discriminate) (Hb Industry)).
    rewrite (@filter_other U Industry Region _ ltac:(discriminate) (Hb Industry)).
    reflexivity.
Qed.

(** ** Body sanitization and the noise filter *)

Lemma sanitize_lines_cut (pre post : list pystr) (bad : pystr) :
  is_corrupt bad = true ->
  sanitize_lines (pre ++ bad :: post) = sanitize_lines pre.
Proof.
  unfold is_corrupt. intros Hbad. apply andb_true_iff in Hbad as (Hne & Hc).
  induction pre as [|ln pre IH]; simpl.
  - now rewrite Hne, Hc.
  - rewrite IH. reflexivity.
Qed.

Lemma sanitize_lines_keep (pre : list pystr) :
  Forall (fun l => is_corrupt l = false) pre ->
  sanitize_lines pre = map keep_line pre.
Proof.
  induction 1 as [|ln pre Hln _ IH]; simpl; [reflexivity|].
  unfold keep_line, is_blank. unfold is_corrupt in Hln.
  destruct (nonempty (strip ln)); simpl in *.
  - rewrite Hln. now f_equal.
  - now f_equal.
Qed.

Lemma noise_line_nil : noise_line [] = false.
Proof. reflexivity. Qed.

Lemma clean_line_cases (U : UnicodeData) (line : pystr) :
  clean_line U line = if is_noise line then [] else [scrub U (strip line)].
Proof.
  unfold clean_line, is_noise. destruct (strip line) eqn:E; simpl.
  - reflexivity.
  - reflexivity.
Qed.

Lemma clean_lines_filter (U : UnicodeData) (ls : list pystr) :
  flat_map (clean_line U) ls =
  map (fun l => scrub U (strip l)) (filter (fun l => negb (is_noise l)) ls).
Proof.
  induction ls as [|l ls IH]; simpl; [reflexivity|].
  rewrite clean_line_cases, IH. destruct (is_noise l); reflexivity.
Qed.

Lemma scrub_nth (U : UnicodeData) (l : pystr) (i : nat) :
  nth_error (scrub U l) i =
  option_map (fun c => if isprintable U c then c else SP) (nth_error l i).
Proof. unfold scrub. apply nth_error_map. Qed.

Lemma first_corrupt (lines : list pystr) :
  existsb is_corrupt lines = true ->
  exists pre bad post,
    lines = pre ++ bad :: post /\ is_corrupt bad = true
    /\ Forall (fun l => is_corrupt l = false) pre.
Proof.
  induction lines as [|ln lines IH]; simpl; [discriminate|].
  destruct (is_corrupt ln) eqn:Hln; simpl.
  - intros _. exists [], ln, lines. repeat split; [assumption | constructor].
  - intros H. destruct (IH H) as (pre & bad & post & -> & Hbad & Hpre).
    exists (ln :: pre), bad, post. repeat split; [assumption | now constructor].
Qed.

(** C4. When a line of the body has stripped length above 80 and a
    fraction of hexadecimal digits above 0.8, [body_sanitize] leaves out
    that line and every line after it: the result is computed from the
    lines before it alone. There is a first such line, and every line
    before that one is kept (right-stripped; a blank line as an empty
    line). The noise filter of the whole document, on a line it rejects,
    drops that line only and goes on with the lines after it. *)
Theorem body_sanitize_truncates (U : UnicodeData) (body : pystr)
  (pre post : list pystr) (bad : pystr) :
  splitlines body = pre ++ bad :: post ->
  is_corrupt bad = true ->
  sanitize_lines (splitlines body) = sanitize_lines pre
  /\ body_sanitize U body =
       re_sub U re_blank_runs (const_repl [LF; LF])
         (strip (join [LF] (sanitize_lines pre)))
  /\ (Forall (fun l => is_corrupt l = false) pre ->
      sanitize_lines pre = map keep_line pre)
  /\ (exists pre0 bad0 post0,
        splitlines body = pre0 ++ bad0 :: post0 /\ is_corrupt bad0 = true
        /\ Forall (fun l => is_corrupt l = false) pre0
        /\ sanitize_lines (splitlines body) = map keep_line pre0
        /\ body_sanitize U body =
             re_sub U re_blank_runs (const_repl [LF; LF])
               (strip (join [LF] (map keep_line pre0))))
  /\ (forall pre' bad' post', is_noise bad' = true ->
      flat_map (clean_line U) (pre' ++ bad' :: post') =
      flat_map (clean_line U) pre' ++ flat_map (clean_line U) post').
Proof.
  intros Hsplit Hbad.
  assert (Hcut : sanitize_lines (splitlines body) = sanitize_lines pre).
  { rewrite Hsplit. now apply sanitize_lines_cut. }
  split; [exact Hcut|]. split.
  { unfold body_sanitize. rewrite Hcut. reflexivity. }
  split; [apply sanitize_lines_keep|]. split.
  - assert (Hex : existsb is_corrupt (splitlines body) = true).
    { rewrite Hsplit, existsb_app. simpl. rewrite Hbad. apply orb_true_r. }
    destruct (@first_corrupt _ Hex) as (pre0 & bad0 & post0 & H0 & Hbad0 & Hpre0).
    exists pre0, bad0, post0.
    assert (Hkeep : sanitize_lines (splitlines body) = map keep_line pre0).
    { rewrite H0, (@sanitize_lines_cut pre0 post0 bad0 Hbad0).
      now apply sanitize_lines_keep. }
    repeat split; try assumption.
    unfold body_sanitize. rewrite Hkeep. reflexivity.
  - intros pre' bad' post' Hn. rewrite flat_map_app. simpl.
    rewrite (clean_line_cases U bad'), Hn. reflexivity.
Qed.

(** C7, as the code has it. The noise filter drops exactly the lines
    whose stripped text is longer than 120 characters with a fraction of
    hexadecimal digits above 0.75. Every other line is kept stripped, each
    non-printable character of the stripped line replaced by a space at
    its position; a whitespace-only line is kept as an empty line. The
    kept lines are joined, runs of three or more newlines are collapsed
    to two, and the text is stripped. *)
Theorem clean_factiva_text_filter (U : UnicodeData) (t : pystr) :
  clean_factiva_text U t =
    strip (re_sub U re_blank_runs (const_repl [LF; LF])
             (join [LF]
                (map (fun l => scrub U (strip l))
                   (filter (fun l => negb (is_noise l)) (splitlines t)))))
  /\ (forall line, is_blank line = true ->
        is_noise line = false /\ scrub U (strip line) = [])
  /\ (forall l, List.length (scrub U l) = List.length l)
  /\ (forall l i, nth_error (scrub U l) i =
        option_map (fun c => if isprintable U c then c else SP) (nth_error l i)).
Proof.
  split.
  - unfold clean_factiva_text. now rewrite clean_lines_filter.
  - split.
    + intros line Hb. unfold is_blank, is_noise in *.
      destruct (strip line); [split; reflexivity | discriminate].
    + split; [intros l; apply length_map | apply scrub_nth].
Qed.

(** ** The pattern engine on a bounded run of one character class *)

Lemma forallb_pointwise {A} (f g : A -> bool) (l : list A) :
  (forall x, f x = g x) -> forallb f l = forallb g l.
Proof. intros H. induction l as [|x l IH]; simpl; [reflexivity|]. now rewrite H, IH. Qed.

Section ClassRun.

Variable P : char -> bool.
Variable lo : nat.

(** A greedy quantifier over a one-character matcher, followed by the end
    of the subject: it succeeds exactly when the rest of the subject is a
    run of such characters of an admissible length. *)
Lemma rep_eat_end (fuel count : nat) (st : mstate) :
  rep_loop (eat P) lo true at_end fuel count st <> None <->
  forallb P (m_rest st) = true
  /\ (List.length (m_rest st) <= fuel)%nat
  /\ (lo <= count + List.length (m_rest st))%nat.
Proof.
  revert count st. induction fuel as [|fuel IH]; intros count st; simpl.
  - unfold at_end. destruct (m_rest st) as [|c r]; simpl.
    + destruct (Nat.leb_spec lo count); split; try congruence.
      * intros _. repeat split; lia.
      * intros (_ & _ & H'). lia.
    + destruct (Nat.leb lo count); split; try congruence;
        intros (_ & H' & _); lia.
  - unfold eat at 1. destruct (m_rest st) as [|c r] eqn:Hrest.
    + unfold at_end. rewrite Hrest. simpl.
      destruct (Nat.leb_spec lo count); split; try congruence.
      * intros _. repeat split; lia.
      * intros (_ & _ & H'). lia.
    + destruct (P c) eqn:Hc; simpl.
      * change (match m_pos st with
                | O => false
                | S m' => Nat.eqb (m_pos st) m'
                end) with (Nat.eqb (S (m_pos st)) (m_pos st)).
        replace (Nat.eqb (S (m_pos st)) (m_pos st)) with false
          by (symmetry; apply Nat.eqb_neq; lia).
        rewrite andb_false_r.
        match goal with
        | |- context [rep_loop ?a ?b ?c ?d ?e ?f ?g] =>
            specialize (IH f g); destruct (rep_loop a b c d e f g) eqn:E
        end.
        -- simpl in IH. split; [intros _|congruence].
           destruct IH as (IH & _). destruct (IH ltac:(congruence)) as (H1 & H2 & H3).
           rewrite Hc, H1. repeat split; lia.
        -- simpl in IH. unfold at_end. rewrite Hrest.
           split.
           ++ destruct (Nat.leb lo count); congruence.
           ++ intros (H1 & H2 & H3). exfalso. rewrite Hc in H1. simpl in H1.
              destruct IH as (_ & IH). apply IH; [|reflexivity].
              repeat split; [assumption | lia | lia].
      * unfold at_end. rewrite Hrest. split.
        -- destruct (Nat.leb lo count); congruence.
        -- intros (H' & _). rewrite Hc in H'. discriminate.
Qed.

End ClassRun.

Lemma fullmatch_ipd (U : UnicodeData) (s : pystr) :
  found (re_fullmatch U re_ipd s) = short_upper_alnum s.
Proof.
  unfold re_fullmatch.
  change (rmatch U re_ipd (start_state s)
            (fun st' => match m_rest st' with [] => Some st' | _ => None end))
    with (rep_loop (eat (fun x => existsb (item_match U x) [AZ; d09]))
            2 true at_end 10 0 (start_state s)).
  pose proof (rep_eat_end
                (fun x => existsb (item_match U x) [AZ; d09]) 2 10 0 (start_state s)) as H.
  simpl m_rest in H.
  assert (Hcls : forallb (fun x => existsb (item_match U x) [AZ; d09]) s
               = forallb (fun c => in_range (uc "A") (uc "Z") c
                                   || in_range (uc "0") (uc "9") c) s).
  { apply forallb_pointwise. intros c. simpl. now rewrite orb_false_r. }
  rewrite Hcls in H. clear Hcls. unfold short_upper_alnum.
  match goal with
  | |- found (option_map _ ?m) = _ => destruct m eqn:E
  end; unfold found, option_map.
  - destruct H as (H & _). destruct (H ltac:(congruence)) as (H1 & H2 & H3).
    rewrite H1. simpl in H3.
    destruct (Nat.leb_spec 2 (List.length s)); [|lia].
    destruct (Nat.leb_spec (List.length s) 10); [reflexivity|lia].
  - destruct H as (_ & H).
    destruct (Nat.leb_spec 2 (List.length s)); [|reflexivity].
    destruct (Nat.leb_spec (List.length s) 10); [|reflexivity].
    simpl andb.
    match goal with |- false = ?f => destruct f eqn:Hf; [|reflexivity] end.
    exfalso. apply H; [|reflexivity]. repeat split; simpl; lia.
Qed.

(** ** The cursor of the first loop *)

Lemma skip_while_ge (test : pystr -> bool) (lines : list pystr) (fuel p : nat) :
  (p <= skip_while test lines fuel p)%nat.
Proof.
  revert p. induction fuel as [|fuel IH]; intros p; simpl; [lia|].
  destruct (nth_error lines p); [|lia].
  destruct (test p0); [|lia]. specialize (IH (S p)). lia.
Qed.

(** With enough fuel the loop stops at the end of the lines or at a line
    that fails the test. *)
Lemma skip_while_stops (test : pystr -> bool) (lines : list pystr) (fuel p : nat) :
  (List.length lines <= fuel + p)%nat ->
  match nth_error lines (skip_while test lines fuel p) with
  | Some l => test l = false
  | None => True
  end.
Proof.
  revert p. induction fuel as [|fuel IH]; intros p Hfuel; simpl.
  - destruct (nth_error lines p) eqn:E; [|exact I].
    assert (p < List.length lines)%nat by (apply nth_error_Some; congruence). lia.
  - destruct (nth_error lines p) as [l|] eqn:E.
    + destruct (test l) eqn:Ht.
      * apply IH. lia.
      * now rewrite E.
    + now rewrite E.
Qed.

(** Every line passed over satisfies the test. *)
Lemma skip_while_between (test : pystr -> bool) (lines : list pystr)
  (fuel p k : nat) :
  (p <= k < skip_while test lines fuel p)%nat ->
  exists l, nth_error lines k = Some l /\ test l = true.
Proof.
  revert p. induction fuel as [|fuel IH]; intros p; simpl; [lia|].
  destruct (nth_error lines p) as [l|] eqn:E; [|lia].
  destruct (test l) eqn:Ht; [|lia].
  intros Hk. destruct (Nat.eq_dec k p) as [->|Hne].
  - exists l. auto.
  - apply (IH (S p)). lia.
Qed.

Lemma skip_blank_ge lines p : (p <= skip_blank lines p)%nat.
Proof. apply skip_while_ge. Qed.

Lemma skip_text_ge lines p : (p <= skip_text lines p)%nat.
Proof. apply skip_while_ge. Qed.

Lemma skip_blank_stops lines p l :
  nth_error lines (skip_blank lines p) = Some l -> is_blank l = false.
Proof.
  intros H. pose proof (@skip_while_stops is_blank lines (List.length lines) p) as Hs.
  unfold skip_blank in H. rewrite H in Hs. apply Hs. lia.
Qed.

Lemma scan_up_spec (lines : list pystr) (n j : nat) :
  scan_up lines n = Some j ->
  (j < n)%nat /\ is_blank (line_at lines j) = false
  /\ forall k, (j < k < n)%nat -> is_blank (line_at lines k) = true.
Proof.
  induction n as [|n IH]; simpl; [discriminate|].
  destruct (is_blank (line_at lines n)) eqn:Hb.
  - intros H. destruct (IH H) as (H1 & H2 & H3). repeat split; [lia | assumption |].
    intros k Hk. destruct (Nat.eq_dec k n) as [->|]; [assumption | apply H3; lia].
  - intros H; injection H as <-. repeat split; [lia | assumption |]. intros k Hk. lia.
Qed.

Lemma scan_up_none (lines : list pystr) (n : nat) :
  scan_up lines n = None ->
  forall k, (k < n)%nat -> is_blank (line_at lines k) = true.
Proof.
  induction n as [|n IH]; simpl; [intros _ k Hk; lia|].
  destruct (is_blank (line_at lines n)) eqn:Hb; [|discriminate].
  intros H k Hk. destruct (Nat.eq_dec k n) as [->|]; [assumption | apply IH; [assumption | lia]].
Qed.

Section SegmenterFacts.

Variable U : UnicodeData.

Lemma lang_scan_ge (n : nat) (lines : list pystr) (q : nat) :
  (q <= snd (lang_scan U n lines q))%nat.
Proof.
  revert q. induction n as [|n IH]; intros q; simpl; [lia|].
  destruct (nth_error lines q); simpl; [|lia].
  destruct (nonempty (detect_language U p)); simpl; [lia|].
  specialize (IH (S q)). lia.
Qed.

(** Past the end of the lines the scan finds nothing. *)
Lemma lang_scan_past (n : nat) (lines : list pystr) (q : nat) :
  (List.length lines <= q)%nat -> lang_scan U n lines q = ([], q).
Proof.
  intros Hq. destruct n; simpl; [reflexivity|].
  replace (nth_error lines q) with (@None pystr); [reflexivity|].
  symmetry. now apply nth_error_None.
Qed.

Lemma ipd_step_ge (lines : list pystr) (p : nat) :
  (p <= snd (ipd_step U lines p))%nat.
Proof.
  unfold ipd_step. simpl. pose proof (skip_blank_ge lines p).
  destruct (nonempty _); lia.
Qed.

Lemma stripped_at_past (lines : list pystr) (p : nat) :
  (List.length lines <= p)%nat -> stripped_at lines p = [].
Proof.
  intros Hp. unfold stripped_at.
  replace (nth_error lines p) with (@None pystr); [reflexivity|].
  symmetry. now apply nth_error_None.
Qed.

Lemma skip_while_past test (lines : list pystr) (fuel p : nat) :
  (List.length lines <= p)%nat -> skip_while test lines fuel p = p.
Proof.
  intros Hp. destruct fuel; simpl; [reflexivity|].
  replace (nth_error lines p) with (@None pystr); [reflexivity|].
  symmetry. now apply nth_error_None.
Qed.

(** The IPD step: the candidate is the first non-blank line at or after
    the cursor; it is taken, and the cursor moved past it, exactly when
    it is two to ten upper-case letters or digits. *)
Lemma ipd_step_spec (lines : list pystr) (p : nat) :
  let c := skip_blank lines p in
  ipd_step U lines p =
    if short_upper_alnum (stripped_at lines c)
    then (stripped_at lines c, S c) else ([], c).
Proof.
  unfold ipd_step. rewrite fullmatch_ipd.
  destruct (short_upper_alnum (stripped_at lines (skip_blank lines p))) eqn:E;
    [|reflexivity].
  simpl. destruct (stripped_at lines (skip_blank lines p)); [discriminate | reflexivity].
Qed.


Lemma scan_anchor_accepted (lines : list pystr) (wc_i : nat) (d : draft) :
  scan_anchor U lines wc_i = Ok (Some d) ->
  exists j p dt, accepted U lines wc_i j p dt d.
Proof.
  unfold scan_anchor. destruct (scan_up lines wc_i) as [j|] eqn:Hj; [|discriminate].
  set (p := skip_blank lines (wc_i + 1)).
  destruct (nth_error lines p) as [l|] eqn:Hl; cbn [bind]; [|discriminate].
  destruct (parse_factiva_date U l) as [[dt|]|] eqn:Hdt; cbn [bind];
    try discriminate.
  destruct (word_count_of U (line_at lines wc_i)) as [wc|] eqn:Hwc; cbn [bind];
    [|discriminate].
  destruct (ipd_step U lines (skip_blank lines (p + 1) + 1)) as [ipd p'] eqn:Hipd.
  destruct (lang_scan U 25 lines p') as [lang q] eqn:Hlang.
  intros H; injection H as <-.
  exists j, p, dt. constructor; cbn [d_title d_author d_time d_language d_publisher
    d_ipd d_word_count d_body_start_idx d_title_line_idx];
    try reflexivity; try assumption.
  - exists l. auto.
  - now rewrite Hipd.
  - rewrite Hipd. cbn [snd]. now rewrite Hlang.
  - rewrite Hipd. cbn [snd]. now rewrite Hlang.
Qed.

(** The body starts after the anchor line, hence after the title line. *)
Lemma accepted_start (lines : list pystr) (wc_i j p : nat) dt (d : draft) s :
  accepted U lines wc_i j p dt d ->
  d_body_start_idx d = Some s ->
  (d_title_line_idx d < wc_i < s)%nat /\ (s < List.length lines)%nat.
Proof.
  intros A Hs. pose proof (acc_d_start A) as Hst. cbv zeta in Hst.
  rewrite Hs in Hst.
  set (p1 := skip_blank lines (p + 1)) in Hst.
  set (p2 := snd (ipd_step U lines (p1 + 1))) in Hst.
  set (q := snd (lang_scan U 25 lines p2)) in Hst.
  destruct (Nat.ltb_spec (skip_blank lines (skip_text lines q)) (List.length lines))
    as [Hlt|]; [|discriminate].
  injection Hst as ->.
  pose proof (proj1 (@scan_up_spec _ _ _ (acc_title A))) as Hj.
  rewrite (acc_d_idx A).
  pose proof (skip_blank_ge lines (skip_text lines q)).
  pose proof (skip_text_ge lines q).
  pose proof (lang_scan_ge 25 lines p2). fold q in H1.
  pose proof (ipd_step_ge lines (p1 + 1)). fold p2 in H2.
  pose proof (skip_blank_ge lines (p + 1)). fold p1 in H3.
  pose proof (skip_blank_ge lines (wc_i + 1)) as H4.
  rewrite <- (acc_date_at A) in H4. lia.
Qed.

Lemma first_pass_accepted (lines : list pystr) (idxs : list nat) (ds : list draft) :
  first_pass U lines idxs = Ok ds ->
  Forall (fun d => exists w, In w idxs /\ scan_anchor U lines w = Ok (Some d)) ds.
Proof.
  revert ds. induction idxs as [|w idxs IH]; simpl; intros ds.
  - intros H; injection H as <-. constructor.
  - destruct (scan_anchor U lines w) as [r|] eqn:Hw; simpl; [|discriminate].
    destruct (first_pass U lines idxs) as [ds'|]; simpl; [|discriminate].
    intros H; injection H as <-.
    assert (Hrest : Forall (fun d => exists w0, In w0 (w :: idxs)
                                     /\ scan_anchor U lines w0 = Ok (Some d)) ds').
    { eapply Forall_impl; [|apply IH; reflexivity].
      intros d (w0 & Hin & Hs). exists w0. split; [now right | assumption]. }
    destruct r as [d|]; [|assumption].
    constructor; [|assumption]. exists w. split; [now left | assumption].
Qed.

End SegmenterFacts.

(** ** Timestamps *)

Lemma digit_of_digit_char (d : Z) :
  (0 <= d <= 9)%Z -> digit_of (digit_char d) = Some d.
Proof.
  intros H.
  assert (Hd : d = 0 \/ d = 1 \/ d = 2 \/ d = 3 \/ d = 4 \/ d = 5 \/ d = 6
               \/ d = 7 \/ d = 8 \/ d = 9) by lia.
  repeat (destruct Hd as [-> | Hd]; [reflexivity|]). subst. reflexivity.
Qed.

Lemma read_pad2 (n : Z) : 0 <= n <= 99 -> read_number 0 (pad2 n) = Some n.
Proof.
  intros H. unfold pad2, read_number.
  rewrite !digit_of_digit_char by
    (match goal with
     | |- 0 <= ?a mod 10 <= 9 => pose proof (Z.mod_pos_bound a 10 ltac:(lia)); lia
     end).
  f_equal. Z.div_mod_to_equations. lia.
Qed.

Lemma read_pad4 (n : Z) : 0 <= n <= 9999 -> read_number 0 (pad4 n) = Some n.
Proof.
  intros H. unfold pad4, read_number.
  rewrite !digit_of_digit_char by
    (match goal with
     | |- 0 <= ?a mod 10 <= 9 => pose proof (Z.mod_pos_bound a 10 ltac:(lia)); lia
     end).
  f_equal. Z.div_mod_to_equations. lia.
Qed.

Lemma days_in_month_le (y m : Z) : days_in_month y m <= 31.
Proof.
  unfold days_in_month. destruct (m =? 2); [destruct (is_leap y); lia|].
  destruct ((m =? 4) || (m =? 6) || (m =? 9) || (m =? 11)); lia.
Qed.

(** The timestamp of a date that [datetime] accepts reads back as that
    date. *)
Lemma parse_iso_isoformat (y mo d hh mm : Z) (dt : datetime) :
  mk_datetime y mo d hh mm = Ok dt -> parse_iso (isoformat dt) = Some dt.
Proof.
  unfold mk_datetime. destruct (valid_datetime y mo d hh mm) eqn:Hv; [|discriminate].
  intros H; injection H as <-.
  pose proof Hv as Hb. unfold valid_datetime in Hb.
  repeat (apply andb_true_iff in Hb; destruct Hb as (Hb & ?)).
  pose proof (days_in_month_le y mo).
  unfold isoformat, parse_iso. cbn [dt_year dt_month dt_day dt_hour dt_minute].
  change (u "-") with [45%N]. change (u " ") with [32%N].
  change (u ":") with [58%N]. change (u ":00") with [58%N; 48%N; 48%N].
  change (u "-- ::00") with [45%N; 45%N; 32%N; 58%N; 58%N; 48%N; 48%N].
  cbn [pad4 pad2 app str_eqb N.eqb Pos.eqb andb].
  change [digit_char (y / 1000 mod 10); digit_char (y / 100 mod 10);
          digit_char (y / 10 mod 10); digit_char (y mod 10)] with (pad4 y).
  change [digit_char (mo / 10 mod 10); digit_char (mo mod 10)] with (pad2 mo).
  change [digit_char (d / 10 mod 10); digit_char (d mod 10)] with (pad2 d).
  change [digit_char (hh / 10 mod 10); digit_char (hh mod 10)] with (pad2 hh).
  change [digit_char (mm / 10 mod 10); digit_char (mm mod 10)] with (pad2 mm).
  rewrite read_pad4, !read_pad2 by lia. now rewrite Hv.
Qed.

Lemma parse_factiva_date_valid (U : UnicodeData) (line : pystr) (dt : datetime) :
  parse_factiva_date U line = Ok (Some dt) ->
  exists y mo d hh mm, mk_datetime y mo d hh mm = Ok dt.
Proof.
  unfold parse_factiva_date.
  destruct (re_search U re_date (strip line)) as [m|]; [|discriminate].
  destruct (int_group U (group m 1)) as [y|]; cbn [bind]; [|discriminate].
  destruct (int_group U (group m 2)) as [mo|]; cbn [bind]; [|discriminate].
  destruct (int_group U (group m 3)) as [d|]; cbn [bind]; [|discriminate].
  destruct (int_or_zero U (group m 4)) as [hh|]; cbn [bind]; [|discriminate].
  destruct (int_or_zero U (group m 5)) as [mm|]; cbn [bind]; [|discriminate].
  destruct (mk_datetime y mo d hh mm) as [dt'|] eqn:E; cbn [bind]; [|discriminate].
  intros H; injection H as <-. eauto 6.
Qed.

(** ** The two loops of [split_articles] *)

Lemma nth_error_combine_seq {A} (l : list A) (s i : nat) :
  nth_error (combine (seq s (List.length l)) l) i =
  option_map (pair (s + i)%nat) (nth_error l i).
Proof.
  revert s i. induction l as [|x l IH]; intros s i; simpl.
  - destruct i; reflexivity.
  - destruct i as [|i]; simpl.
    + now rewrite Nat.add_0_r.
    + rewrite IH. now rewrite Nat.add_succ_r.
Qed.

Lemma nth_error_enumerate {A} (l : list A) (i : nat) :
  nth_error (enumerate l) i = option_map (pair i) (nth_error l i).
Proof. unfold enumerate. now rewrite nth_error_combine_seq. Qed.

Lemma nth_error_slice {A} (l : list A) (b e k : nat) :
  nth_error (slice l b e) k =
  if Nat.ltb k (e - b) then nth_error l (b + k) else None.
Proof.
  unfold slice. destruct (Nat.ltb_spec k (e - b)).
  - rewrite nth_error_firstn. destruct (Nat.ltb_spec k (e - b)); [|lia].
    now rewrite nth_error_skipn.
  - rewrite nth_error_firstn. destruct (Nat.ltb_spec k (e - b)); [lia|reflexivity].
Qed.

Section SplitArticles.

Variable U : UnicodeData.

Lemma attach_fields (lines : list pystr) (ds : list draft) (i : nat) (d : draft) :
  let a := attach U lines ds i d in
  a_title a = d_title d /\ a_time a = d_time d /\ a_language a = d_language d
  /\ a_publisher a = d_publisher d /\ a_ipd a = d_ipd d
  /\ a_word_count a = d_word_count d
  /\ a_body_start_idx a = d_body_start_idx d
  /\ a_title_line_idx a = d_title_line_idx d.
Proof. cbv zeta. unfold attach. cbn. repeat split. Qed.

(** The entries of the result are the drafts of the first loop, in order,
    each completed by the second loop. *)
Lemma split_articles_inv (text : pystr) (arts : list article) :
  split_articles U text = Ok arts ->
  exists ds,
    first_pass U (lines_of text) (anchor_indices U (lines_of text)) = Ok ds
    /\ List.length arts = List.length ds
    /\ forall i, nth_error arts i =
         option_map (attach U (lines_of text) ds i) (nth_error ds i).
Proof.
  unfold split_articles. fold (lines_of text).
  destruct (first_pass U (lines_of text) (anchor_indices U (lines_of text)))
    as [ds|] eqn:E; cbn [bind]; [|discriminate].
  intros H; injection H as <-. exists ds. split; [reflexivity|]. split.
  - rewrite length_map. unfold enumerate. rewrite length_combine, length_seq. lia.
  - intros i. rewrite nth_error_map, nth_error_enumerate.
    destruct (nth_error ds i); reflexivity.
Qed.

Lemma split_articles_entry (text : pystr) (arts : list article) (i : nat)
  (a : article) :
  split_articles U text = Ok arts -> nth_error arts i = Some a ->
  exists ds d wc_i j p dt,
    first_pass U (lines_of text) (anchor_indices U (lines_of text)) = Ok ds
    /\ nth_error ds i = Some d
    /\ a = attach U (lines_of text) ds i d
    /\ is_anchor U (line_at (lines_of text) wc_i) = true
    /\ accepted U (lines_of text) wc_i j p dt d.
Proof.
  intros Hs Ha. destruct (@split_articles_inv _ _ Hs) as (ds & Hfp & _ & Hnth).
  rewrite Hnth in Ha. destruct (nth_error ds i) as [d|] eqn:Hd; [|discriminate].
  injection Ha as <-.
  pose proof (@first_pass_accepted _ _ _ _ Hfp) as Hall.
  rewrite Forall_forall in Hall.
  destruct (Hall d (nth_error_In _ _ Hd)) as (w & Hw & Hscan).
  destruct (@scan_anchor_accepted _ _ _ _ Hscan) as (j & p & dt & Hacc).
  exists ds, d, w, j, p, dt.
  split; [assumption|]. split; [assumption|]. split; [reflexivity|].
  split; [|assumption].
  unfold anchor_indices in Hw. apply filter_In in Hw. apply Hw.
Qed.

Lemma body_end_attach (text : pystr) (arts : list article) (ds : list draft)
  (i : nat) (d : draft) :
  List.length arts = List.length ds ->
  (forall k, nth_error arts k =
     option_map (attach U (lines_of text) ds k) (nth_error ds k)) ->
  nth_error ds i = Some d ->
  (if Nat.eqb (i + 1) (List.length ds) then List.length (lines_of text)
   else d_title_line_idx (nth (i + 1) ds d))
  = body_end (lines_of text) arts i.
Proof.
  intros Hlen Hnth Hd. unfold body_end. rewrite Hnth.
  assert (Hi : (i < List.length ds)%nat) by (apply nth_error_Some; congruence).
  destruct (Nat.eqb_spec (i + 1) (List.length ds)) as [He|Hne].
  - replace (nth_error ds (S i)) with (@None draft); [reflexivity|].
    symmetry. apply nth_error_None. lia.
  - destruct (nth_error ds (S i)) as [b|] eqn:Hb.
    + cbn [option_map]. replace (i + 1)%nat with (S i) by lia.
      rewrite (nth_error_nth _ _ _ Hb). reflexivity.
    + apply nth_error_None in Hb. lia.
Qed.

End SplitArticles.

(** ** Records *)

Lemma rtf_factiva_to_rows_eq (U : UnicodeData) (raw : pystr) :
  rtf_factiva_to_rows U raw =
    (articles <- split_articles U (cleaned_text U raw) ;; Ok (map (row_of U) articles)).
Proof. unfold rtf_factiva_to_rows, cleaned_text. cbv zeta. reflexivity. Qed.

Lemma row_of_fields (U : UnicodeData) (a : article) :
  r_title (row_of U a) = clean_title U (a_title a)
  /\ r_time (row_of U a) = a_time a.
Proof.
  unfold row_of. destruct (split_keywords U (a_keywords a)) as [[t r] i].
  split; reflexivity.
Qed.

Lemma not_blank_strip (l : pystr) : is_blank l = false -> strip l <> [].
Proof.
  unfold is_blank. intros Hb Hnil. rewrite Hnil in Hb. discriminate Hb.
Qed.

(** The record made from an accepted anchor. *)
Lemma accepted_row (U : UnicodeData) (lines : list pystr) (ds : list draft)
  (i wc_i j p : nat) (dt : datetime) (d : draft) :
  accepted U lines wc_i j p dt d ->
  exists l,
    scan_up lines wc_i = Some j
    /\ strip (line_at lines j) <> []
    /\ r_title (row_of U (attach U lines ds i d))
       = clean_title U (strip (line_at lines j))
    /\ p = skip_blank lines (wc_i + 1)
    /\ nth_error lines p = Some l
    /\ parse_factiva_date U l = Ok (Some dt)
    /\ r_time (row_of U (attach U lines ds i d)) = isoformat dt
    /\ parse_iso (r_time (row_of U (attach U lines ds i d))) = Some dt.
Proof.
  intros A. destruct (acc_parse A) as (l & Hl & Hdt). exists l.
  destruct (row_of_fields U (attach U lines ds i d)) as (Htitle & Htime).
  destruct (attach_fields U lines ds i d) as (Ht & Htm & _).
  cbv zeta in Ht, Htm. rewrite Ht in Htitle. rewrite Htm in Htime.
  rewrite (acc_d_title A) in Htitle. rewrite (acc_d_time A) in Htime.
  split; [exact (acc_title A)|]. split.
  - apply not_blank_strip. exact (proj1 (proj2 (@scan_up_spec _ _ _ (acc_title A)))).
  - split; [exact Htitle|]. split; [exact (acc_date_at A)|].
    split; [exact Hl|]. split; [exact Hdt|]. split; [exact Htime|].
    rewrite Htime.
    destruct (@parse_factiva_date_valid _ _ _ Hdt) as (y & mo & dd & hh & mm & Hmk).
    exact (@parse_iso_isoformat _ _ _ _ _ _ Hmk).
Qed.

(** The rows are the completed entries of [split_articles], one for one. *)
Lemma rows_inv (U : UnicodeData) (text : pystr) (rows : list row) (r : row) :
  (articles <- split_articles U text ;; Ok (map (row_of U) articles)) = Ok rows ->
  In r rows ->
  exists ds d i wc_i j p dt,
    r = row_of U (attach U (lines_of text) ds i d)
    /\ is_anchor U (line_at (lines_of text) wc_i) = true
    /\ accepted U (lines_of text) wc_i j p dt d.
Proof.
  intros H Hr.
  destruct (split_articles U text) as [arts|] eqn:Hs; cbn [bind] in H; [|discriminate].
  injection H as <-.
  apply in_map_iff in Hr. destruct Hr as (a & <- & Ha).
  apply In_nth_error in Ha. destruct Ha as (i & Ha).
  destruct (@split_articles_entry U _ _ _ _ Hs Ha)
    as (ds & d & wc_i & j & p & dt & _ & _ & -> & Hanchor & A).
  exists ds, d, i, wc_i, j, p, dt. split; [reflexivity|]. split; assumption.
Qed.

(* The hypothesis of the next theorem is costly to normalise. *)
Unset Strict Implicit.

(** C1, as the code has it. Every record that [rtf_factiva_to_rows]
    emits comes from an anchor line with a non-blank line above it, whose
    stripped text is the raw title, and with a date parsed from the next
    non-blank line below it; the time field is that date in the form
    YYYY-MM-DD HH:MM:00 and reads back as that date. The title field is
    the raw title after [clean_title]. *)
Theorem rows_title_and_time (U : UnicodeData) (raw : pystr) (rows : list row) :
  rtf_factiva_to_rows U raw = Ok rows ->
  Forall (row_from_anchor U (lines_of (cleaned_text U raw))) rows.
Proof.
  rewrite rtf_factiva_to_rows_eq. generalize (cleaned_text U raw). intros text H.
  apply Forall_forall. intros r Hr. unfold row_from_anchor.
  destruct (@rows_inv U text rows r H Hr)
    as (ds & d & i & wc_i & j & p & dt & -> & Hanchor & A).
  destruct (@accepted_row U (lines_of text) ds i wc_i j p dt d A) as (l & Hrow).
  exists wc_i, j, p, l, dt. split; [exact Hanchor | exact Hrow].
Qed.

Set Strict Implicit.

(** C2. The body of entry [i] is made of the lines from its body start
    up to, and without, the title line of entry [i+1]; for the last entry
    up to the end of the lines. The title line of an entry lies before its
    own body start, so the bodies of two consecutive entries share no line
    and the first of them does not contain the title line of the second. *)
Theorem body_boundaries (U : UnicodeData) (text : pystr) (arts : list article)
  (i : nat) (a : article) :
  split_articles U text = Ok arts ->
  nth_error arts i = Some a ->
  body_bounded U (lines_of text) arts i a.
Proof.
  intros Hs Ha. unfold body_bounded. cbv zeta.
  destruct (@split_articles_inv U _ _ Hs) as (ds & Hfp & Hlen & Hnth).
  destruct (@split_articles_entry U _ _ _ _ Hs Ha)
    as (ds' & d & wc_i & j & p & dt & Hfp' & Hd & -> & _ & A).
  assert (ds' = ds) by congruence. subst ds'.
  pose proof (@body_end_attach U text arts ds i d Hlen Hnth Hd) as Hend.
  assert (Hstart : forall (x : article) (k0 : nat) (s : nat),
             nth_error arts k0 = Some x -> a_body_start_idx x = Some s ->
             (a_title_line_idx x < s < List.length (lines_of text))%nat).
  { intros x k0 s Hx Hsx.
    destruct (@split_articles_entry U _ _ _ _ Hs Hx)
      as (ds' & dx & wx & jx & px & dtx & _ & _ & -> & _ & Ax).
    destruct (attach_fields U (lines_of text) ds' k0 dx)
      as (_ & _ & _ & _ & _ & _ & Hb & Hi).
    cbv zeta in Hb, Hi. rewrite Hb in Hsx. rewrite Hi.
    pose proof (accepted_start Ax Hsx). lia. }
  split.
  - unfold attach. cbn [a_body a_body_start_idx]. rewrite Hend. reflexivity.
  - split; [intros start k _; apply nth_error_slice|].
    split; [intros Hn; unfold body_end; now rewrite Hn|].
    split; [intros start Hst; eapply Hstart; eassumption|].
    intros b Hb.
    assert (He : body_end (lines_of text) arts i = a_title_line_idx b).
    { unfold body_end. now rewrite Hb. }
    split; [exact He|]. intros start start' k _ Hsb Hk.
    pose proof (Hstart b (S i) start' Hb Hsb). lia.
Qed.

(** ** The IPD step and the language scan *)

Lemma lang_scan_S (U : UnicodeData) (n : nat) (lines : list pystr) (q : nat) :
  lang_scan U (S n) lines q =
    match nth_error lines q with
    | None => ([], q)
    | Some l =>
        if nonempty (detect_language U l) then (detect_language U l, q)
        else lang_scan U n lines (S q)
    end.
Proof. reflexivity. Qed.

Lemma short_upper_alnum_nil : short_upper_alnum [] = false.
Proof. reflexivity. Qed.

(** The fields that the IPD step and the language scan give to a draft. *)
Lemma accepted_ipd (U : UnicodeData) (lines : list pystr) (wc_i j p : nat)
  (dt : datetime) (d : draft) :
  accepted U lines wc_i j p dt d ->
  let pub := skip_blank lines (p + 1) in
  let c := skip_blank lines (pub + 1) in
  let cand := stripped_at lines c in
  d_publisher d = stripped_at lines pub
  /\ (short_upper_alnum cand = true ->
        d_ipd d = cand /\ d_language d = fst (lang_scan U 25 lines (S c)))
  /\ (short_upper_alnum cand = false ->
        d_ipd d = [] /\ d_language d = fst (lang_scan U 25 lines c)
        /\ forall l, nth_error lines c = Some l ->
             d_language d =
               if nonempty (detect_language U l) then detect_language U l
               else fst (lang_scan U 24 lines (S c))).
Proof.
  intros A pub c cand. split; [exact (acc_d_pub A)|].
  pose proof (acc_d_ipd A) as Hipd. pose proof (acc_d_lang A) as Hlang.
  fold pub in Hipd, Hlang. rewrite (ipd_step_spec U lines (pub + 1)) in Hipd, Hlang.
  cbv zeta in Hipd, Hlang. fold c in Hipd, Hlang. fold cand in Hipd, Hlang.
  split; intros Hc; rewrite Hc in Hipd, Hlang; cbn [fst snd] in Hipd, Hlang.
  - split; assumption.
  - split; [assumption|]. split; [assumption|].
    intros l Hl. rewrite Hlang, lang_scan_S, Hl.
    destruct (nonempty (detect_language U l)); reflexivity.
Qed.

(** The loop that skips blank lines stops on the next non-blank line. *)
Lemma skip_blank_next (lines : list pystr) (p : nat) :
  next_nonblank lines p (skip_blank lines p).
Proof.
  split; [apply skip_blank_ge|]. split.
  - intros k Hk. unfold skip_blank in Hk.
    eapply skip_while_between. exact Hk.
  - intros l Hl. eapply skip_blank_stops. exact Hl.
Qed.

(** There is one next non-blank line. *)
Lemma next_nonblank_unique (lines : list pystr) (from c c' : nat) :
  next_nonblank lines from c -> next_nonblank lines from c' -> c = c'.
Proof.
  intros (H1 & H2 & H3) (H1' & H2' & H3').
  destruct (Nat.lt_trichotomy c c') as [Hlt|[Heq|Hgt]]; [|exact Heq|].
  - destruct (H2' c ltac:(lia)) as (l & Hl & Hb).
    rewrite (H3 l Hl) in Hb. discriminate Hb.
  - destruct (H2 c' ltac:(lia)) as (l & Hl & Hb).
    rewrite (H3' l Hl) in Hb. discriminate Hb.
Qed.

(** C6. For every article, take the lines of its own header: the anchor
    below its title line, the date line, the publisher line, and the
    candidate IPD line, each the next non-blank line below the one before.
    The candidate becomes the IPD field exactly when its stripped text is
    two to ten upper-case letters or digits, and then the language scan
    starts on the line after it. Otherwise the IPD field is empty and the
    cursor stays: the language scan starts on the candidate line itself,
    which is the first line it examines. *)
Theorem ipd_not_consumed_on_mismatch (U : UnicodeData) (text : pystr)
  (arts : list article) (a : article) :
  split_articles U text = Ok arts ->
  In a arts ->
  exists wc_i p pub c, ipd_rule U (lines_of text) a wc_i p pub c.
Proof.
  intros Hs Ha.
  apply In_nth_error in Ha. destruct Ha as (i & Ha).
  destruct (@split_articles_entry U _ _ _ _ Hs Ha)
    as (ds & d & wc_i & j & p & dt & _ & _ & -> & Hanchor & A).
  destruct (attach_fields U (lines_of text) ds i d)
    as (_ & Htm & Hl & Hp & Hi & _ & _ & Hidx).
  cbv zeta in Htm, Hl, Hp, Hi, Hidx.
  destruct (@scan_up_spec _ _ _ (acc_title A)) as (Hjw & _ & Hblank).
  destruct (acc_parse A) as (l & Hline & Hdate).
  exists wc_i, p, (skip_blank (lines_of text) (p + 1)),
    (skip_blank (lines_of text) (skip_blank (lines_of text) (p + 1) + 1)).
  unfold ipd_rule. rewrite Htm, Hl, Hp, Hi, Hidx, (acc_d_idx A).
  split; [exact Hjw|]. split; [exact Hanchor|]. split; [exact Hblank|].
  split; [rewrite (acc_date_at A); apply skip_blank_next|].
  split; [exists l, dt; split; [exact Hline|]; split;
          [exact Hdate | exact (acc_d_time A)]|].
  split; [apply skip_blank_next|]. split; [apply skip_blank_next|].
  exact (accepted_ipd A).
Qed.

(** ** Acceptance and rejection of an anchor *)

Section Acceptance.

Variable U : UnicodeData.

(** An anchor with a non-blank line above it, a date on the next non-blank
    line below it and a count that [int] reads is accepted; steps that run
    past the end of the lines leave their fields empty. *)
Lemma scan_anchor_accepts (lines : list pystr) (wc_i j : nat) (l : pystr)
  (dt : datetime) (n : Z) :
  scan_up lines wc_i = Some j ->
  nth_error lines (skip_blank lines (wc_i + 1)) = Some l ->
  parse_factiva_date U l = Ok (Some dt) ->
  word_count_of U (line_at lines wc_i) = Ok n ->
  exists d,
    scan_anchor U lines wc_i = Ok (Some d)
    /\ d_title d = strip (line_at lines j)
    /\ d_time d = isoformat dt
    /\ d_word_count d = n
    /\ ((List.length lines <= skip_blank lines (wc_i + 1) + 1)%nat ->
        d_publisher d = [] /\ d_ipd d = [] /\ d_language d = []
        /\ d_body_start_idx d = None).
Proof.
  intros Hj Hl Hdt Hwc. unfold scan_anchor. rewrite Hj, Hl. cbn [bind].
  rewrite Hdt. cbn [bind]. rewrite Hwc. cbn [bind].
  set (p := skip_blank lines (wc_i + 1)).
  destruct (ipd_step U lines (skip_blank lines (p + 1) + 1)) as [ipd p'] eqn:Hipd.
  destruct (lang_scan U 25 lines p') as [lang q] eqn:Hlang.
  eexists. split; [reflexivity|].
  cbn [d_title d_time d_word_count d_publisher d_ipd d_language d_body_start_idx].
  split; [reflexivity|]. split; [reflexivity|]. split; [reflexivity|].
  intros Hend.
  assert (Hp1 : skip_blank lines (p + 1) = (p + 1)%nat)
    by (apply skip_while_past; lia).
  rewrite Hp1 in *.
  rewrite ipd_step_spec in Hipd. cbv zeta in Hipd.
  assert (Hp2 : skip_blank lines (p + 1 + 1) = (p + 1 + 1)%nat)
    by (apply skip_while_past; lia).
  rewrite Hp2 in Hipd. rewrite (@stripped_at_past lines (p + 1 + 1)) in Hipd by lia.
  rewrite short_upper_alnum_nil in Hipd. injection Hipd as <- <-.
  rewrite lang_scan_past in Hlang by lia. injection Hlang as <- <-.
  split; [apply stripped_at_past; lia|]. split; [reflexivity|]. split; [reflexivity|].
  unfold skip_text. rewrite (@skip_while_past _ lines _ (p + 1 + 1)) by lia.
  rewrite Hp2. destruct (Nat.ltb_spec (p + 1 + 1) (List.length lines)); [lia|reflexivity].
Qed.

(** An anchor is passed over without a record exactly when no non-blank
    line stands above it or no date is parsed from the next non-blank line
    below it. *)
Lemma scan_anchor_rejects (lines : list pystr) (wc_i : nat) :
  scan_anchor U lines wc_i = Ok None <->
  scan_up lines wc_i = None
  \/ (scan_up lines wc_i <> None
      /\ match nth_error lines (skip_blank lines (wc_i + 1)) with
         | Some l => parse_factiva_date U l = Ok None
         | None => True
         end).
Proof.
  unfold scan_anchor. destruct (scan_up lines wc_i) as [j|]; [|tauto].
  destruct (nth_error lines (skip_blank lines (wc_i + 1))) as [l|]; cbn [bind].
  - destruct (parse_factiva_date U l) as [[dt|]|]; cbn [bind].
    + destruct (word_count_of U (line_at lines wc_i)); cbn [bind].
      * destruct (ipd_step U lines _) as [ipd p']. destruct (lang_scan U 25 lines p').
        split; [discriminate|]. intros [H|(_ & H)]; discriminate.
      * split; [discriminate|]. intros [H|(_ & H)]; discriminate.
    + split; [intros _; right; split; [discriminate | reflexivity] | reflexivity].
    + split; [discriminate|]. intros [H|(_ & H)]; discriminate.
  - split; [intros _; right; split; [discriminate | exact I] | reflexivity].
Qed.

End Acceptance.

(** ** [sorted(set(...))] *)

Lemma str_ltb_irrefl (a : pystr) : str_ltb a a = false.
Proof.
  induction a as [|x a IH]; simpl; [reflexivity|].
  now rewrite N.ltb_irrefl, N.eqb_refl, IH.
Qed.

Lemma str_ltb_trans (a b c : pystr) : str_lt a b -> str_lt b c -> str_lt a c.
Proof.
  unfold str_lt. revert b c. induction a as [|x a IH]; intros [|y b] [|z c]; simpl;
    try discriminate; try reflexivity.
  rewrite !orb_true_iff, !andb_true_iff, !N.ltb_lt, !N.eqb_eq.
  intros [Hxy | (Hxy & Hab)] [Hyz | (Hyz & Hbc)].
  - left. now apply N.lt_trans with y.
  - left. now subst.
  - left. now subst.
  - right. split; [congruence | eapply IH; eassumption].
Qed.

Lemma str_ltb_total (a b : pystr) :
  str_eqb a b = false -> str_ltb a b = false -> str_lt b a.
Proof.
  unfold str_lt. revert b. induction a as [|x a IH]; intros [|y b]; simpl;
    try discriminate; try reflexivity.
  rewrite !orb_false_iff, !andb_false_iff.
  intros He (Hlt & Hl).
  apply N.ltb_ge in Hlt.
  destruct (N.eqb_spec x y) as [->|Hne].
  - rewrite N.eqb_refl. simpl. destruct He as [He|He]; [discriminate|].
    destruct Hl as [Hl|Hl]; [discriminate|].
    rewrite (IH b He Hl). apply orb_true_r.
  - apply orb_true_iff. left. apply N.ltb_lt.
    apply N.le_neq. split; [assumption | congruence].
Qed.

Lemma insert_uniq_In (x y : pystr) (l : list pystr) :
  In y (insert_uniq x l) <-> y = x \/ In y l.
Proof.
  induction l as [|z l IH]; simpl; [intuition congruence|].
  destruct (str_eqb x z) eqn:He.
  - apply str_eqb_eq in He. subst. simpl. intuition congruence.
  - destruct (str_ltb x z); simpl; [intuition congruence|].
    rewrite IH. intuition congruence.
Qed.

Lemma insert_uniq_hdrel (a x : pystr) (l : list pystr) :
  str_lt a x -> HdRel str_lt a l -> HdRel str_lt a (insert_uniq x l).
Proof.
  intros Hax Hl. destruct l as [|z l]; simpl; [now constructor|].
  destruct (str_eqb x z); [assumption|].
  destruct (str_ltb x z); constructor; [assumption|].
  now inversion Hl.
Qed.

Lemma insert_uniq_sorted (x : pystr) (l : list pystr) :
  Sorted str_lt l -> Sorted str_lt (insert_uniq x l).
Proof.
  induction 1 as [|z l Hs IH Hhd]; simpl; [repeat constructor|].
  destruct (str_eqb x z) eqn:He; [now constructor|].
  destruct (str_ltb x z) eqn:Hlt.
  - constructor; [now constructor|]. now constructor.
  - constructor; [assumption|].
    apply insert_uniq_hdrel; [|assumption]. now apply str_ltb_total.
Qed.

(** The result is strictly increasing, hence without duplicates, and has
    the elements of the argument. *)
Lemma sorted_set_spec (xs : list pystr) :
  Sorted str_lt (sorted_set xs) /\ forall y, In y (sorted_set xs) <-> In y xs.
Proof.
  unfold sorted_set. induction xs as [|x xs (IHs & IHin)]; simpl.
  - split; [constructor | tauto].
  - split; [now apply insert_uniq_sorted|].
    intros y. rewrite insert_uniq_In, IHin. intuition congruence.
Qed.

(** ** The pipeline on concrete documents *)

(** An export with control words and escapes goes through the decoder. *)
Example doc_rtf_rows :
  option_map (map (fun r => (r_title r, r_time r, r_publisher r, r_word_count r)))
    (match rtf_factiva_to_rows cjk_tables doc_rtf with
     | Ok rows => Some rows
     | Raise _ => None
     end)
  = Some [(u "Tom's", u "2024-03-05 00:00:00", u "Pub", 12%Z)].
Proof. vm_compute. reflexivity. Qed.

(** A count line without a date near it gives no record. *)
Example no_date_no_record :
  rtf_factiva_to_rows cjk_tables (join [LF] [u "Title"; u "100字"; u "no date here"])
  = Ok [].
Proof. vm_compute. reflexivity. Qed.

(** The sample document gives two records. *)
Example sample_rows_fields :
  map (fun r => (r_title r, r_time r, r_language r, r_ipd r, r_publisher r,
                 r_body r, r_word_count r)) sample_rows
  = [(u "First title", u "2024-03-05 09:30:00", u "英文", u "IPD1",
      u "Publisher", u "Body text.", 1234%Z);
     (u "Second title", u "2023-12-31 00:00:00", u "中文", [],
      u "Other Press", u "More text.", 56%Z)].
Proof. vm_compute. reflexivity. Qed.

Lemma rows_title_and_time_witness :
  rtf_factiva_to_rows cjk_tables doc_sample = Ok sample_rows
  /\ Forall (row_from_anchor cjk_tables (lines_of (cleaned_text cjk_tables doc_sample)))
       sample_rows.
Proof.
  assert (H : rtf_factiva_to_rows cjk_tables doc_sample = Ok sample_rows)
    by (vm_compute; reflexivity).
  split; [exact H | exact (@rows_title_and_time cjk_tables doc_sample sample_rows H)].
Defined.

(** A title line of non-word characters gives a record whose title field
    is empty. *)
Lemma empty_title_counterexample :
  exists r,
    rtf_factiva_to_rows cjk_tables doc_dashes = Ok [r]
    /\ r_title r = []
    /\ r_time r = u "2024-03-05 00:00:00".
Proof. eexists. split; [vm_compute; reflexivity|]. split; reflexivity. Qed.

Lemma body_boundaries_witness :
  split_articles cjk_tables doc_sample = Ok sample_articles
  /\ exists a, nth_error sample_articles 0 = Some a
       /\ a_body a = u "Body text."
       /\ body_end (lines_of doc_sample) sample_articles 0 = 9%nat
       /\ body_bounded cjk_tables (lines_of doc_sample) sample_articles 0 a.
Proof.
  assert (Hs : split_articles cjk_tables doc_sample = Ok sample_articles)
    by (vm_compute; reflexivity).
  split; [exact Hs|].
  destruct (nth_error sample_articles 0) as [a|] eqn:Ha; [|discriminate Ha].
  exists a. split; [reflexivity|].
  split; [injection Ha as <-; vm_compute; reflexivity|].
  split; [vm_compute; reflexivity|].
  exact (@body_boundaries cjk_tables doc_sample sample_articles 0 a Hs Ha).
Defined.

Lemma body_sanitize_truncates_witness :
  splitlines body_corrupt = [u "ok line"] ++ hex90 :: [u "lost"]
  /\ is_corrupt hex90 = true
  /\ hex_chars hex90 = 90%nat
  /\ body_sanitize cjk_tables body_corrupt = u "ok line".
Proof.
  assert (H1 : splitlines body_corrupt = [u "ok line"] ++ hex90 :: [u "lost"])
    by (vm_compute; reflexivity).
  assert (H2 : is_corrupt hex90 = true) by (vm_compute; reflexivity).
  split; [exact H1|]. split; [exact H2|]. split; [reflexivity|].
  destruct (@body_sanitize_truncates cjk_tables body_corrupt
              [u "ok line"] [u "lost"] hex90 H1 H2) as (_ & H & _).
  rewrite H. vm_compute. reflexivity.
Defined.

Lemma ipd_not_consumed_on_mismatch_witness :
  split_articles cjk_tables doc_gaps = Ok gaps_articles
  /\ exists a, nth_error gaps_articles 0 = Some a
       /\ a_publisher a = u "Publisher"
       /\ a_ipd a = [] /\ a_language a = u "中文"
       /\ exists wc_i p pub c,
            ipd_rule cjk_tables (lines_of doc_gaps) a wc_i p pub c.
Proof.
  assert (Hs : split_articles cjk_tables doc_gaps = Ok gaps_articles)
    by (vm_compute; reflexivity).
  split; [exact Hs|].
  destruct (nth_error gaps_articles 0) as [a|] eqn:Ha; [|discriminate Ha].
  exists a. split; [reflexivity|].
  split; [injection Ha as <-; vm_compute; reflexivity|].
  split; [injection Ha as <-; vm_compute; reflexivity|].
  split; [injection Ha as <-; vm_compute; reflexivity|].
  exact (@ipd_not_consumed_on_mismatch cjk_tables doc_gaps gaps_articles a Hs
           (nth_error_In _ _ Ha)).
Defined.

(** No line of [doc_noise] is dropped by the filter, yet the line of six
    characters comes out with two, and of the three blank lines one is
    left. *)
Lemma clean_factiva_text_counterexample :
  splitlines doc_noise = [u "x"; u "  ab  "; []; []; []; u "y"]
  /\ forallb (fun l => negb (is_noise l)) (splitlines doc_noise) = true
  /\ splitlines (clean_factiva_text cjk_tables doc_noise)
     = [u "x"; u "ab"; []; u "y"].
Proof. repeat split; vm_compute; reflexivity. Qed.

(** The classifier on the example of the specification. *)
Example split_keywords_example (U : UnicodeData) :
  split_keywords U (u "China, Technology, Quantum Computing")
  = ([u "Quantum Computing"], [u "China"], [u "Technology"]).
Proof. vm_compute. reflexivity. Qed.

(** C3: the anchor of [doc_no_digits] has a title line above it and a date
    on the line below it, and the document ends there; its count is a lone
    comma, and [int] raises on the empty string left of it: no record is
    made, the whole call raises. *)
Theorem anchor_without_digits_raises :
  let lines := lines_of doc_no_digits in
  is_anchor cjk_tables (line_at lines 1) = true
  /\ scan_up lines 1 = Some 0%nat
  /\ parse_factiva_date cjk_tables (line_at lines (skip_blank lines 2))
     = Ok (Some {| dt_year := 2024; dt_month := 3; dt_day := 5;
                   dt_hour := 9; dt_minute := 30 |})
  /\ scan_anchor cjk_tables lines 1 = Raise ValueError
  /\ split_articles cjk_tables doc_no_digits = Raise ValueError
  /\ rtf_factiva_to_rows cjk_tables doc_no_digits = Raise ValueError.
Proof. cbv zeta. repeat split; vm_compute; reflexivity. Qed.

(** C9: on the example of the specification the extractor finds nothing:
    after a suffix that ends in a period, the closing word boundary of
    [COMPANY_RE] fails before a space. Suffixes without a period are
    found. *)
Theorem companies_example_empty (U : UnicodeData) :
  companies_of U text_companies = []
  /\ companies_of U (sample_text (u "Headline") text_companies) = []
  /\ companies_of U text_companies_plain
     = [u "Acme Robotics Group"; u "Globex PLC"].
Proof. repeat split; vm_compute; reflexivity. Qed.

(** C10: [split_articles] raises. The anchor pattern accepts a count made
    of commas only; without the commas nothing is left and [int] raises
    [ValueError]. A date line with a month out of range raises as well. *)
Theorem split_articles_raises :
  is_anchor cjk_tables (u ",,字") = true
  /\ option_map (fun m => group m 1) (re_search cjk_tables WORDCOUNT_RE (u ",,字"))
     = Some (Some (u ",,"))
  /\ py_int cjk_tables (str_replace (u ",") [] (u ",,")) = Raise ValueError
  /\ word_count_of cjk_tables (u ",,字") = Raise ValueError
  /\ split_articles cjk_tables doc_commas = Raise ValueError
  /\ split_articles cjk_tables doc_month13 = Raise ValueError.
Proof. repeat split; vm_compute; reflexivity. Qed.


(** * Further properties *)

(** ** The author of the first loop *)

Lemma filter_none {A} (f : A -> bool) (l : list A) :
  Forall (fun x => f x = false) l -> filter f l = [].
Proof. induction 1 as [|x l Hx _ IH]; simpl; [reflexivity|]. now rewrite Hx. Qed.

(** Between the title line and the anchor all lines are blank, so the
    first loop never finds an author line. *)
Lemma scan_anchor_author (U : UnicodeData) (lines : list pystr) (wc_i : nat)
  (d : draft) :
  scan_anchor U lines wc_i = Ok (Some d) -> d_author d = [].
Proof.
  unfold scan_anchor. destruct (scan_up lines wc_i) as [j|] eqn:Hj; [|discriminate].
  set (p := skip_blank lines (wc_i + 1)).
  destruct (nth_error lines p) as [l|] eqn:Hl; cbn [bind]; [|discriminate].
  destruct (parse_factiva_date U l) as [[dt|]|] eqn:Hdt; cbn [bind];
    try discriminate.
  destruct (word_count_of U (line_at lines wc_i)) as [wc|] eqn:Hwc; cbn [bind];
    [|discriminate].
  destruct (ipd_step U lines (skip_blank lines (p + 1) + 1)) as [ipd p'] eqn:Hipd.
  destruct (lang_scan U 25 lines p') as [lang q] eqn:Hlang.
  intros H; injection H as <-. cbn [d_author].
  rewrite filter_none; [reflexivity|].
  apply Forall_forall. intros s Hs. apply in_map_iff in Hs.
  destruct Hs as (k & <- & Hk). apply in_seq in Hk.
  destruct (@scan_up_spec lines wc_i j Hj) as (Hlt & _ & Hblank).
  specialize (Hblank k ltac:(lia)). unfold is_blank in Hblank.
  now destruct (nonempty (strip (line_at lines k))).
Qed.

(** X1. The author of a record never comes from the lines above the
    anchor: it is empty, or it is the name captured after [-- By] in the
    body. *)
Theorem author_only_from_byline (U : UnicodeData) (text : pystr)
  (arts : list article) (a : article) :
  split_articles U text = Ok arts ->
  In a arts ->
  a_author a = []
  \/ exists m g, re_search U re_byline (a_body a) = Some m
                 /\ group m 1 = Some g /\ a_author a = strip g.
Proof.
  intros Hs Ha. apply In_nth_error in Ha. destruct Ha as (i & Ha).
  destruct (@split_articles_inv U text arts Hs) as (ds & Hfp & _ & Hnth).
  rewrite Hnth in Ha. destruct (nth_error ds i) as [d|] eqn:Hd; [|discriminate].
  injection Ha as <-.
  pose proof (@first_pass_accepted U _ _ _ Hfp) as Hall.
  rewrite Forall_forall in Hall.
  destruct (Hall d (nth_error_In _ _ Hd)) as (w & _ & Hscan).
  pose proof (@scan_anchor_author _ _ _ _ Hscan) as Hauthor.
  unfold attach. cbn [a_author a_body]. rewrite Hauthor. cbn [nonempty].
  match goal with
  | |- context [re_search U re_byline ?b] =>
      destruct (re_search U re_byline b) as [m|] eqn:Hm; [|now left]
  end.
  destruct (group m 1) as [g|] eqn:Hg; [|now left].
  right. exists m, g. auto.
Qed.

(** ** Soundness of the matcher *)

Lemma last_char_app (prev : option char) (a b : pystr) :
  last_char prev (a ++ b) = last_char (last_char prev a) b.
Proof. unfold last_char. apply fold_left_app. Qed.

Lemma advanced_refl (st : mstate) : advanced st st [].
Proof. unfold advanced. simpl. repeat split. lia. Qed.

Lemma advanced_trans (st1 st2 st3 : mstate) (p q : pystr) :
  advanced st1 st2 p -> advanced st2 st3 q -> advanced st1 st3 (p ++ q).
Proof.
  intros (R1 & P1 & V1) (R2 & P2 & V2). unfold advanced.
  rewrite R1, R2, P2, P1, V2, V1, length_app, last_char_app.
  repeat split; [now rewrite app_assoc | lia].
Qed.

Lemma advanced_groups (n b e : nat) (st st' : mstate) (pre : pystr) :
  advanced st st' pre -> advanced st (set_group n b e st') pre.
Proof. intros H. exact H. Qed.

Section Soundness.

Variable U : UnicodeData.

(** One character: the continuation is called after it. *)
Lemma eat_inv (P : char -> bool) (st : mstate) (k : mstate -> option mstate)
  (m : mstate) :
  eat P st k = Some m ->
  exists c r,
    m_rest st = c :: r /\ P c = true
    /\ k {| m_pos := S (m_pos st); m_prev := Some c; m_rest := r;
            m_groups := m_groups st |} = Some m.
Proof.
  unfold eat. destruct (m_rest st) as [|c r]; [discriminate|].
  destruct (P c) eqn:Hc; [|discriminate]. intros H. exists c, r. auto.
Qed.

Lemma eat_sound (P : char -> bool) (st : mstate) (k : mstate -> option mstate)
  (m : mstate) :
  eat P st k = Some m ->
  exists st' pre, k st' = Some m /\ advanced st st' pre.
Proof.
  intros H. destruct (@eat_inv _ _ _ _ H) as (c & r & Hr & _ & Hk).
  eexists. exists [c]. split; [exact Hk|].
  unfold advanced. simpl. repeat split; [assumption | lia].
Qed.

(** A quantifier over a sound body is sound. *)
Lemma rep_loop_sound
  (ma : mstate -> (mstate -> option mstate) -> option mstate)
  (lo : nat) (greedy : bool) (k : mstate -> option mstate) :
  (forall st k' m, ma st k' = Some m ->
     exists st' pre, k' st' = Some m /\ advanced st st' pre) ->
  forall fuel count st m,
    rep_loop ma lo greedy k fuel count st = Some m ->
    exists st' pre, k st' = Some m /\ advanced st st' pre.
Proof.
  intros Hma. induction fuel as [|fuel IH]; intros count st m; cbn [rep_loop].
  - destruct (Nat.leb lo count); [|discriminate].
    intros H. exists st, []. split; [assumption | apply advanced_refl].
  - assert (Hagain : forall m0,
      ma st (fun st' =>
               if Nat.leb lo count && Nat.eqb (m_pos st') (m_pos st) then None
               else rep_loop ma lo greedy k fuel (S count) st') = Some m0 ->
      exists st' pre, k st' = Some m0 /\ advanced st st' pre).
    { intros m0 H. destruct (Hma _ _ _ H) as (st1 & p1 & H1 & A1).
      destruct (Nat.leb lo count && Nat.eqb (m_pos st1) (m_pos st)); [discriminate|].
      destruct (IH _ _ _ H1) as (st2 & p2 & H2 & A2).
      exists st2, (p1 ++ p2). split; [assumption | eapply advanced_trans; eassumption]. }
    assert (Hstop : forall m0,
      (if Nat.leb lo count then k st else None) = Some m0 ->
      exists st' pre, k st' = Some m0 /\ advanced st st' pre).
    { intros m0 H. destruct (Nat.leb lo count); [|discriminate].
      exists st, []. split; [assumption | apply advanced_refl]. }
    destruct greedy.
    + match goal with
      | |- match ?x with _ => _ end = _ -> _ => destruct x as [m1|] eqn:E
      end.
      * intros H; injection H as <-. now apply Hagain.
      * apply Hstop.
    + match goal with
      | |- match ?x with _ => _ end = _ -> _ => destruct x as [m1|] eqn:E
      end.
      * intros H; injection H as <-. now apply Hstop.
      * apply Hagain.
Qed.

(** Whatever the pattern, a successful match is a call of the continuation
    on a state further on in the subject. *)
Lemma rmatch_sound (r : regex) :
  forall st k m,
    rmatch U r st k = Some m ->
    exists st' pre, k st' = Some m /\ advanced st st' pre.
Proof.
  induction r as [| c | c | | items | items | a IHa b IHb | a IHa b IHb
                 | lo hi greedy a IHa | n a IHa | |];
    intros st k m; cbn [rmatch].
  - intros H. exists st, []. split; [assumption | apply advanced_refl].
  - apply eat_sound.
  - apply eat_sound.
  - apply eat_sound.
  - apply eat_sound.
  - apply eat_sound.
  - intros H. destruct (IHa _ _ _ H) as (st1 & p1 & H1 & A1).
    destruct (IHb _ _ _ H1) as (st2 & p2 & H2 & A2).
    exists st2, (p1 ++ p2). split; [assumption | eapply advanced_trans; eassumption].
  - destruct (rmatch U a st k) as [m1|] eqn:E.
    + intros H; injection H as <-. now apply IHa.
    + apply IHb.
  - apply rep_loop_sound. exact IHa.
  - intros H. destruct (IHa _ _ _ H) as (st1 & p1 & H1 & A1).
    exists (set_group n (m_pos st) (m_pos st1) st1), p1. split; assumption.
  - destruct (Nat.eqb (m_pos st) 0); [|discriminate].
    intros H. exists st, []. split; [assumption | apply advanced_refl].
  - destruct (xorb _ _); [|discriminate].
    intros H. exists st, []. split; [assumption | apply advanced_refl].
Qed.

(** A quantifier over a one-character class reads a run of characters of
    the class, at least [lo] of them counting those read before, and
    leaves the groups alone. *)
Lemma rep_eat_inv (P : char -> bool) (lo : nat) (greedy : bool)
  (k : mstate -> option mstate) :
  forall fuel count st m,
    rep_loop (eat P) lo greedy k fuel count st = Some m ->
    exists st' pre,
      k st' = Some m /\ advanced st st' pre
      /\ forallb P pre = true
      /\ (lo <= count + List.length pre)%nat
      /\ m_groups st' = m_groups st.
Proof.
  induction fuel as [|fuel IH]; intros count st m; cbn [rep_loop].
  - destruct (Nat.leb_spec lo count) as [Hle|Hlt]; [|discriminate].
    intros H. exists st, []. split; [exact H|]. split; [apply advanced_refl|].
    split; [reflexivity|]. split; [simpl; lia | reflexivity].
  - assert (Hagain : forall m0,
      eat P st (fun st' =>
               if Nat.leb lo count && Nat.eqb (m_pos st') (m_pos st) then None
               else rep_loop (eat P) lo greedy k fuel (S count) st') = Some m0 ->
      exists st' pre, k st' = Some m0 /\ advanced st st' pre
        /\ forallb P pre = true /\ (lo <= count + List.length pre)%nat
        /\ m_groups st' = m_groups st).
    { intros m0 H. destruct (@eat_inv _ _ _ _ H) as (c & r & Hr & Hc & H1).
      destruct (Nat.leb lo count && Nat.eqb _ _); [discriminate|].
      destruct (IH _ _ _ H1) as (st2 & p2 & H2 & A2 & F2 & L2 & G2).
      exists st2, (c :: p2). split; [exact H2|]. split.
      { change (c :: p2) with ([c] ++ p2).
        eapply advanced_trans; [|exact A2].
        unfold advanced. simpl. repeat split; [assumption | lia]. }
      split; [simpl; now rewrite Hc, F2|].
      split; [simpl; lia | exact G2]. }
    assert (Hstop : forall m0,
      (if Nat.leb lo count then k st else None) = Some m0 ->
      exists st' pre, k st' = Some m0 /\ advanced st st' pre
        /\ forallb P pre = true /\ (lo <= count + List.length pre)%nat
        /\ m_groups st' = m_groups st).
    { intros m0 H. destruct (Nat.leb_spec lo count) as [Hle|Hlt]; [|discriminate].
      exists st, []. split; [exact H|]. split; [apply advanced_refl|].
      split; [reflexivity|]. split; [simpl; lia | reflexivity]. }
    destruct greedy.
    + match goal with
      | |- match ?x with _ => _ end = _ -> _ => destruct x as [m1|] eqn:E
      end.
      * intros H; injection H as <-. now apply Hagain.
      * apply Hstop.
    + match goal with
      | |- match ?x with _ => _ end = _ -> _ => destruct x as [m1|] eqn:E
      end.
      * intros H; injection H as <-. now apply Hstop.
      * apply Hagain.
Qed.

End Soundness.

(** ** The word-count anchor *)

Section Anchor.

Variable U : UnicodeData.

Lemma rmatch_Seq (a b : regex) (st : mstate) (k : mstate -> option mstate) :
  rmatch U (Seq a b) st k = rmatch U a st (fun st' => rmatch U b st' k).
Proof. reflexivity. Qed.

Lemma rmatch_Grp (n : nat) (a : regex) (st : mstate)
  (k : mstate -> option mstate) :
  rmatch U (Grp n a) st k =
  rmatch U a st (fun st' => k (set_group n (m_pos st) (m_pos st') st')).
Proof. reflexivity. Qed.

Lemma rmatch_Lit (c : char) (st : mstate) (k : mstate -> option mstate) :
  rmatch U (Lit c) st k = eat (fun x => (x =? c)%N) st k.
Proof. reflexivity. Qed.

Lemma rmatch_rep_cset (lo : nat) (hi : option nat) (greedy : bool)
  (items : list item) (st : mstate) (k : mstate -> option mstate) :
  rmatch U (Rep lo hi greedy (CSet items)) st k =
  rep_loop (eat (fun x => existsb (item_match U x) items)) lo greedy k
    (match hi with
     | Some h => h
     | None => (lo + List.length (m_rest st))%nat
     end) 0 st.
Proof. reflexivity. Qed.

Lemma rmatch_rep_nset (lo : nat) (hi : option nat) (greedy : bool)
  (items : list item) (st : mstate) (k : mstate -> option mstate) :
  rmatch U (Rep lo hi greedy (NSet items)) st k =
  rep_loop (eat (fun x => negb (existsb (item_match U x) items))) lo greedy k
    (match hi with
     | Some h => h
     | None => (lo + List.length (m_rest st))%nat
     end) 0 st.
Proof. reflexivity. Qed.

Lemma rmatch_Bol (st : mstate) (k : mstate -> option mstate) :
  rmatch U Bol st k = if Nat.eqb (m_pos st) 0 then k st else None.
Proof. reflexivity. Qed.

(** A pattern that starts with [^] is found at index 0 or not at all. *)
Lemma search_bol (r : regex) (rest : pystr) :
  forall adv pos prev b st',
    search_from U (Seq Bol r) adv pos prev rest = Some (b, st') ->
    pos = 0%nat /\ b = 0%nat
    /\ match_here U (Seq Bol r) adv
         {| m_pos := 0; m_prev := prev; m_rest := rest; m_groups := [] |} = Some st'.
Proof.
  induction rest as [|c rest IH]; intros adv pos prev b st'; cbn [search_from].
  - destruct pos as [|pos].
    + destruct (match_here U (Seq Bol r) adv _) as [m|] eqn:E; [|discriminate].
      intros H; injection H as <- <-. auto.
    + unfold match_here. rewrite rmatch_Seq, rmatch_Bol. cbn. discriminate.
  - destruct pos as [|pos].
    + destruct (match_here U (Seq Bol r) adv _) as [m|] eqn:E.
      * intros H; injection H as <- <-. auto.
      * intros H. apply IH in H. destruct H as (H & _). discriminate.
    + unfold match_here at 1. rewrite rmatch_Seq, rmatch_Bol. cbn [m_pos Nat.eqb].
      intros H. apply IH in H. destruct H as (H & _). discriminate.
Qed.

Lemma search_bol_none (r : regex) (rest : pystr) :
  forall adv pos prev,
    search_from U (Seq Bol r) adv (S pos) prev rest = None.
Proof.
  intros adv pos prev.
  destruct (search_from U (Seq Bol r) adv (S pos) prev rest) as [[b st']|] eqn:E;
    [|reflexivity].
  apply search_bol in E. destruct E as (E & _). discriminate.
Qed.

Lemma slice_mid {A} (a b c : list A) :
  slice (a ++ b ++ c) (List.length a) (List.length a + List.length b) = b.
Proof.
  unfold slice. rewrite skipn_app, skipn_all, Nat.sub_diag. simpl.
  replace (List.length a + List.length b - List.length a)%nat
    with (List.length b) by lia.
  rewrite firstn_app, firstn_all, Nat.sub_diag. simpl. now rewrite app_nil_r.
Qed.

Lemma WORDCOUNT_RE_eq :
  WORDCOUNT_RE =
  Seq Bol
    (Seq (Rep 0 None true (CSet [ISpace]))
       (Seq (Grp 1 (Rep 1 None true (CSet [IDigit; ICh (uc ",")])))
          (Seq (Rep 0 None true (CSet [ISpace])) (Lit ZI)))).
Proof. reflexivity. Qed.

(** What a line that [WORDCOUNT_RE] accepts is made of: white space, a
    non-empty run of digits and commas (the group), white space, the
    marker. *)
Lemma wordcount_inv (l : pystr) (m : rmatch_obj) :
  re_search U WORDCOUNT_RE l = Some m ->
  exists ws1 g ws2 rest,
    l = ws1 ++ g ++ ws2 ++ ZI :: rest
    /\ forallb isspace ws1 = true
    /\ forallb (digit_or_comma U) g = true
    /\ g <> []
    /\ forallb isspace ws2 = true
    /\ group m 1 = Some g.
Proof.
  unfold re_search. rewrite WORDCOUNT_RE_eq.
  destruct (search_from U _ false 0 None l) as [[b st']|] eqn:E; [|discriminate].
  intros H; injection H as <-.
  apply search_bol in E. destruct E as (_ & -> & E).
  unfold match_here in E. rewrite rmatch_Seq, rmatch_Bol in E. cbn [m_pos Nat.eqb] in E.
  rewrite rmatch_Seq, rmatch_rep_cset in E.
  apply rep_eat_inv in E. destruct E as (st1 & ws1 & E & A1 & F1 & _ & G1).
  rewrite rmatch_Seq, rmatch_Grp, rmatch_rep_cset in E.
  apply rep_eat_inv in E. destruct E as (st2 & g & E & A2 & F2 & L2 & G2).
  rewrite rmatch_Seq, rmatch_rep_cset in E.
  apply rep_eat_inv in E. destruct E as (st3 & ws2 & E & A3 & F3 & _ & G3).
  rewrite rmatch_Lit in E. apply eat_inv in E.
  destruct E as (c & rest & Hr & Hc & E). cbn [andb] in E. injection E as <-.
  apply N.eqb_eq in Hc. subst c.
  destruct A1 as (R1 & P1 & _). destruct A2 as (R2 & P2 & _).
  destruct A3 as (R3 & P3 & _). cbn [m_rest m_pos m_groups set_group] in *.
  exists ws1, g, ws2, rest.
  assert (Hl : l = ws1 ++ g ++ ws2 ++ ZI :: rest).
  { rewrite R1, R2, R3, Hr. reflexivity. }
  split; [exact Hl|]. split.
  { erewrite forallb_pointwise; [exact F1|]. intros x. simpl. now rewrite orb_false_r. }
  split; [exact F2|]. split; [destruct g; [simpl in L2; lia | discriminate]|].
  split.
  { erewrite forallb_pointwise; [exact F3|]. intros x. simpl. now rewrite orb_false_r. }
  unfold group, mk_match. cbn [mo_groups mo_subject snd m_groups].
  rewrite G3. cbn [lookup_group Nat.eqb].
  f_equal. rewrite P2, P1. cbn [Nat.add]. rewrite Hl at 1. apply slice_mid.
Qed.

Lemma strip_nil_inv (s : pystr) : strip s = [] -> forallb isspace s = true.
Proof.
  unfold strip, rstrip, lstrip. intros H.
  assert (Hd : dropwhile isspace (rev (dropwhile isspace s)) = []).
  { apply (f_equal (@rev char)) in H. rewrite rev_involutive in H. exact H. }
  destruct (dropwhile_suffix isspace (rev (dropwhile isspace s))) as (p1 & H1 & F1).
  rewrite Hd, app_nil_r in H1.
  destruct (dropwhile_suffix isspace s) as (p2 & H2 & F2).
  rewrite H2, forallb_app, F2. simpl.
  rewrite forallb_forall in *. intros x Hx. apply F1. rewrite <- H1.
  now apply -> in_rev.
Qed.

(** An anchor line is not blank. *)
Lemma anchor_not_blank (l : pystr) : is_anchor U l = true -> is_blank l = false.
Proof.
  unfold is_anchor. destruct (re_search U WORDCOUNT_RE l) as [m|] eqn:E; [|discriminate].
  intros _. destruct (@wordcount_inv _ _ E) as (ws1 & g & ws2 & rest & Hl & _).
  unfold is_blank. destruct (strip l) eqn:Hs; [|reflexivity].
  apply strip_nil_inv in Hs. rewrite forallb_forall in Hs.
  assert (Hz : isspace ZI = true).
  { apply Hs. rewrite Hl. rewrite !in_app_iff. right. right. right. now left. }
  discriminate Hz.
Qed.

End Anchor.

(** ** The word count *)

Lemma replace_loop_remove (c : char) :
  forall fuel s, (List.length s <= fuel)%nat ->
    replace_loop fuel [c] [] s = filter (fun x => negb (c =? x)%N) s.
Proof.
  induction fuel as [|fuel IH]; intros s Hs.
  - destruct s; [reflexivity | simpl in Hs; lia].
  - destruct s as [|x t]; [reflexivity|]. simpl in Hs.
    cbn [replace_loop strip_prefix filter].
    destruct (c =? x)%N; cbn [negb app]; rewrite IH by lia; reflexivity.
Qed.

(** Removing the commas of a count. *)
Lemma str_replace_commas (g : pystr) :
  str_replace (u ",") [] g = filter (fun x => negb (COMMA =? x)%N) g.
Proof. unfold str_replace. change (u ",") with [COMMA]. now apply replace_loop_remove. Qed.

Lemma strip_no_space (s : pystr) :
  forallb (fun c => negb (isspace c)) s = true -> strip s = s.
Proof.
  intros H. rewrite forallb_forall in H.
  assert (Hl : lstrip s = s).
  { unfold lstrip. apply dropwhile_fixed. destruct s as [|x t]; [exact I|].
    specialize (H x ltac:(now left)). now destruct (isspace x). }
  unfold strip. rewrite Hl. unfold rstrip. rewrite dropwhile_fixed.
  - apply rev_involutive.
  - destruct (rev s) as [|x t] eqn:E; [exact I|].
    assert (Hx : In x s) by (apply in_rev; rewrite E; now left).
    specialize (H x Hx). now destruct (isspace x).
Qed.

(** The count of an anchor line is read from group 1 without its
    commas. *)
Lemma anchor_group (U : UnicodeData) (l : pystr) :
  is_anchor U l = true ->
  exists ws1 g ws2 rest,
    l = ws1 ++ g ++ ws2 ++ ZI :: rest
    /\ forallb isspace ws1 = true
    /\ forallb (digit_or_comma U) g = true
    /\ g <> []
    /\ forallb isspace ws2 = true
    /\ word_count_of U l = py_int U (filter (fun x => negb (COMMA =? x)%N) g).
Proof.
  unfold is_anchor. destruct (re_search U WORDCOUNT_RE l) as [m|] eqn:E; [|discriminate].
  intros _.
  destruct (@wordcount_inv U l m E) as (ws1 & g & ws2 & rest & Hl & F1 & Fg & Hg & F2 & Hgrp).
  exists ws1, g, ws2, rest. repeat (split; [assumption|]).
  unfold word_count_of. now rewrite E, Hgrp, str_replace_commas.
Qed.

Section WordCount.

Variable U : UnicodeData.
Hypothesis Hsane : sane_digits U.

Lemma decimal_not_sign (c : char) :
  isdecimal U c = true -> c <> 95%N /\ c <> uc "-" /\ c <> uc "+" /\ c <> COMMA.
Proof.
  intros H. repeat split; intros ->; discriminate H.
Qed.

Lemma digits_value_ok (s : pystr) :
  forall acc b, forallb (isdecimal U) s = true -> (0 <= acc)%Z ->
    s <> [] \/ b = true ->
    exists v, digits_value U acc b s = Some v /\ (0 <= v)%Z.
Proof.
  induction s as [|c t IH]; intros acc b Hall Hacc Hne; cbn [digits_value].
  - destruct Hne as [Hne | ->]; [congruence|]. exists acc. auto.
  - simpl in Hall. apply andb_true_iff in Hall as (Hc & Ht).
    destruct (@decimal_not_sign c Hc) as (H95 & _).
    apply N.eqb_neq in H95. rewrite H95.
    unfold isdecimal in Hc. destruct (decimal_value U c) as [d|] eqn:Hd; [|discriminate].
    destruct Hsane as (_ & Hrange). specialize (Hrange c d Hd).
    apply IH; [assumption | lia | now right].
Qed.

(** [int] on a run of decimal digits: a number that is not negative, or
    [ValueError] when the run is empty. *)
Lemma py_int_digits (digits : pystr) :
  forallb (isdecimal U) digits = true ->
  match digits with
  | [] => py_int U digits = Raise ValueError
  | _ => exists n, py_int U digits = Ok n /\ (0 <= n)%Z
  end.
Proof.
  intros Hdig.
  assert (Hstrip : strip digits = digits).
  { apply strip_no_space. apply forallb_forall. intros x Hx.
    rewrite forallb_forall in Hdig. destruct Hsane as (Hsp & _).
    now rewrite (Hsp x (Hdig x Hx)). }
  unfold py_int. rewrite Hstrip.
  destruct digits as [|c t]; [reflexivity|].
  assert (Hc : isdecimal U c = true).
  { simpl in Hdig. now apply andb_true_iff in Hdig as (Hc & _). }
  destruct (@decimal_not_sign c Hc) as (_ & Hm & Hp & _).
  apply N.eqb_neq in Hm, Hp. rewrite Hm, Hp.
  destruct (@digits_value_ok (@cons char c t) 0%Z false Hdig ltac:(lia)
              ltac:(left; discriminate)) as (v & Hv & Hpos).
  rewrite Hv. exists (1 * v)%Z. split; [reflexivity | lia].
Qed.

(** The digits of a count: what is left of a run of digits and commas
    without its commas. *)
Lemma count_digits (g : pystr) :
  forallb (digit_or_comma U) g = true ->
  forallb (isdecimal U) (filter (fun x => negb (COMMA =? x)%N) g) = true
  /\ (existsb (isdecimal U) g = true
      <-> filter (fun x => negb (COMMA =? x)%N) g <> []).
Proof.
  intros Fg. rewrite forallb_forall in Fg. split.
  - apply forallb_forall. intros x Hx. apply filter_In in Hx. destruct Hx as (Hx & Hc).
    specialize (Fg x Hx).
    unfold digit_or_comma in Fg. cbn [existsb item_match] in Fg.
    rewrite orb_false_r in Fg. apply orb_true_iff in Fg. destruct Fg as [Fg|Fg]; [exact Fg|].
    apply N.eqb_eq in Fg. subst x. change (uc ",") with COMMA in Hc.
    now rewrite N.eqb_refl in Hc.
  - split.
    + intros Hex. apply existsb_exists in Hex. destruct Hex as (x & Hx & Hxd).
      assert (Hin : In x (filter (fun x => negb (COMMA =? x)%N) g)).
      { apply filter_In. split; [assumption|].
        destruct (@decimal_not_sign x Hxd) as (_ & _ & _ & Hc).
        apply negb_true_iff, N.eqb_neq. congruence. }
      intros Hnil. rewrite Hnil in Hin. destruct Hin.
    + intros Hne.
      destruct (filter (fun x => negb (COMMA =? x)%N) g) as [|c t] eqn:Hd;
        [congruence|].
      assert (Hc : In c (c :: t)) by now left.
      rewrite <- Hd in Hc. apply filter_In in Hc. destruct Hc as (Hc & Hnc).
      apply existsb_exists. exists c. split; [assumption|].
      specialize (Fg c Hc).
      unfold digit_or_comma in Fg. cbn [existsb item_match] in Fg.
      rewrite orb_false_r in Fg. apply orb_true_iff in Fg. destruct Fg as [Fg|Fg]; [exact Fg|].
      apply N.eqb_eq in Fg. subst c. change (uc ",") with COMMA in Hnc.
      now rewrite N.eqb_refl in Hnc.
Qed.

End WordCount.

(** X2. On an anchor line the count is a run of digits and commas. With
    a digit in it, the word count is read from the digits and is not
    negative; without one, [int] raises [ValueError]. No other exception
    comes from this step. The line is taken to have at most 4300
    characters: beyond that many digits the interpreter's [int] refuses
    the conversion, which [py_int] leaves out. *)
Theorem word_count_of_anchor (U : UnicodeData) (l : pystr) :
  sane_digits U ->
  (List.length l <= 4300)%nat ->
  is_anchor U l = true ->
  exists ws1 g ws2 rest,
    l = ws1 ++ g ++ ws2 ++ ZI :: rest
    /\ forallb isspace ws1 = true
    /\ forallb (digit_or_comma U) g = true
    /\ g <> []
    /\ forallb isspace ws2 = true
    /\ (if existsb (isdecimal U) g
        then exists n, word_count_of U l = Ok n /\ (0 <= n)%Z
        else word_count_of U l = Raise ValueError).
Proof.
  intros Hsane _ Ha.
  destruct (@anchor_group U l Ha) as (ws1 & g & ws2 & rest & Hl & F1 & Fg & Hg & F2 & Hwc).
  exists ws1, g, ws2, rest. repeat (split; [assumption|]).
  destruct (@count_digits U g Fg) as (Hdig & Hex).
  pose proof (@py_int_digits U Hsane _ Hdig) as Hint. rewrite Hwc.
  destruct (filter (fun x => negb (COMMA =? x)%N) g) as [|c t].
  - destruct (existsb (isdecimal U) g); [|exact Hint].
    now destruct (proj1 Hex eq_refl).
  - rewrite (proj2 Hex ltac:(discriminate)). exact Hint.
Qed.

Lemma sane_digits_cjk : sane_digits cjk_tables.
Proof.
  split.
  - intros c. unfold isdecimal, decimal_value, cjk_tables, u_decimal.
    destruct (is_ascii c); [|discriminate].
    unfold ascii_digit, isspace, in_range.
    destruct (N.leb_spec 48 c), (N.leb_spec c 57); simpl; try discriminate.
    intros _.
    repeat match goal with
           | |- context [(?a <=? ?b)%N] => destruct (N.leb_spec a b); try lia
           | |- context [(?a =? ?b)%N] => destruct (N.eqb_spec a b); try lia
           end; reflexivity.
  - intros c d. unfold decimal_value, cjk_tables, u_decimal.
    destruct (is_ascii c); [|discriminate].
    unfold ascii_digit, in_range.
    destruct (N.leb_spec 48 c) as [Hlo|Hlo], (N.leb_spec c 57) as [Hhi|Hhi];
      simpl; try discriminate.
    intros Hd; injection Hd as <-. lia.
Qed.

Lemma word_count_of_anchor_witness :
  sane_digits cjk_tables
  /\ (List.length (u "1,234字") <= 4300)%nat
  /\ is_anchor cjk_tables (u "1,234字") = true
  /\ word_count_of cjk_tables (u "1,234字") = Ok 1234%Z
  /\ exists ws1 g ws2 rest,
       u "1,234字" = ws1 ++ g ++ ws2 ++ ZI :: rest
       /\ forallb isspace ws1 = true
       /\ forallb (digit_or_comma cjk_tables) g = true
       /\ g <> []
       /\ forallb isspace ws2 = true
       /\ (if existsb (isdecimal cjk_tables) g
           then exists n, word_count_of cjk_tables (u "1,234字") = Ok n /\ (0 <= n)%Z
           else word_count_of cjk_tables (u "1,234字") = Raise ValueError).
Proof.
  assert (H : is_anchor cjk_tables (u "1,234字") = true) by (vm_compute; reflexivity).
  assert (Hlen : (List.length (u "1,234字") <= 4300)%nat)
    by (apply Nat.leb_le; vm_compute; reflexivity).
  split; [exact sane_digits_cjk|]. split; [exact Hlen|].
  split; [exact H|]. split; [vm_compute; reflexivity|].
  exact (@word_count_of_anchor cjk_tables (u "1,234字") sane_digits_cjk Hlen H).
Defined.

(** ** The order of the records *)

Lemma seq_sorted (n a : nat) : StronglySorted lt (seq a n).
Proof.
  revert a. induction n as [|n IH]; intros a; simpl; constructor; [apply IH|].
  apply Forall_forall. intros x Hx. apply in_seq in Hx. lia.
Qed.

Lemma filter_sorted {A} (R : A -> A -> Prop) (f : A -> bool) (l : list A) :
  StronglySorted R l -> StronglySorted R (filter f l).
Proof.
  induction 1 as [|x l Hs IH Hx]; simpl; [constructor|].
  destruct (f x); [|assumption]. constructor; [assumption|].
  rewrite Forall_forall in *. intros y Hy. apply filter_In in Hy. now apply Hx.
Qed.

Lemma sorted_nth {A} (R : A -> A -> Prop) (l : list A) :
  StronglySorted R l ->
  forall i k a b, (i < k)%nat -> nth_error l i = Some a -> nth_error l k = Some b ->
    R a b.
Proof.
  induction 1 as [|x l Hs IH Hx]; intros i k a b Hik Ha Hb.
  - destruct i; discriminate.
  - destruct k as [|k]; [lia|]. simpl in Hb. destruct i as [|i].
    + simpl in Ha. injection Ha as <-. rewrite Forall_forall in Hx.
      apply Hx. eapply nth_error_In, Hb.
    + simpl in Ha. apply (IH i k); [lia | assumption | assumption].
Qed.

Section Order.

Variable U : UnicodeData.

Lemma first_pass_length (lines : list pystr) (idxs : list nat) (ds : list draft) :
  first_pass U lines idxs = Ok ds -> (List.length ds <= List.length idxs)%nat.
Proof.
  revert ds. induction idxs as [|w idxs IH]; simpl; intros ds.
  - intros H; injection H as <-. simpl. lia.
  - destruct (scan_anchor U lines w) as [r|]; cbn [bind]; [|discriminate].
    destruct (first_pass U lines idxs) as [ds'|]; cbn [bind]; [|discriminate].
    intros H; injection H as <-. specialize (IH ds' eq_refl).
    destruct r; simpl; lia.
Qed.

(** The title line of an anchor is not above an earlier line that is not
    blank. *)
Lemma scan_up_after (lines : list pystr) (w w' j : nat) :
  scan_up lines w' = Some j -> (w < w')%nat ->
  is_blank (line_at lines w) = false -> (w <= j)%nat.
Proof.
  intros Hj Hw Hb. destruct (@scan_up_spec lines w' j Hj) as (_ & _ & Hblank).
  destruct (Nat.le_gt_cases w j) as [Hle|Hgt]; [assumption|].
  rewrite (Hblank w ltac:(lia)) in Hb. discriminate.
Qed.

Lemma first_pass_sorted (lines : list pystr) (idxs : list nat) (ds : list draft) :
  StronglySorted lt idxs ->
  (forall w, In w idxs -> is_anchor U (line_at lines w) = true) ->
  first_pass U lines idxs = Ok ds ->
  StronglySorted (anchor_between U lines) ds.
Proof.
  intros Hs. revert ds. induction Hs as [|w idxs Hs IH Hw]; intros ds Hanchor; simpl.
  - intros H; injection H as <-. constructor.
  - destruct (scan_anchor U lines w) as [r|] eqn:Hscan; cbn [bind]; [|discriminate].
    destruct (first_pass U lines idxs) as [ds'|] eqn:Hfp; cbn [bind]; [|discriminate].
    intros H; injection H as <-.
    assert (Hrest : StronglySorted (anchor_between U lines) ds').
    { apply IH; [|reflexivity]. intros w0 Hw0. apply Hanchor. now right. }
    destruct r as [d|]; [|assumption].
    constructor; [assumption|].
    apply Forall_forall. intros d' Hd'.
    pose proof (@first_pass_accepted U _ _ _ Hfp) as Hall.
    rewrite Forall_forall in Hall. destruct (Hall d' Hd') as (w' & Hw' & Hscan').
    destruct (@scan_anchor_accepted U _ _ _ Hscan) as (j & p & dt & A).
    destruct (@scan_anchor_accepted U _ _ _ Hscan') as (j' & p' & dt' & A').
    rewrite Forall_forall in Hw. specialize (Hw w' Hw').
    assert (Ha : is_anchor U (line_at lines w) = true) by (apply Hanchor; now left).
    exists w. split; [assumption|].
    rewrite (acc_d_idx A), (acc_d_idx A').
    destruct (@scan_up_spec lines w j (acc_title A)) as (Hjw & _).
    split; [assumption|].
    apply (@scan_up_after lines w w' j' (acc_title A') Hw).
    now apply anchor_not_blank with (U := U).
Qed.

End Order.

(** X3. The records come in the order of the document: there are no more
    records than anchor lines, and of two records the later one has its
    title line at or below an anchor line that is below the title line of
    the earlier one; so the title lines strictly increase. *)
Theorem records_in_document_order (U : UnicodeData) (text : pystr)
  (arts : list article) :
  split_articles U text = Ok arts ->
  (List.length arts <= List.length (anchor_indices U (lines_of text))
                    <= List.length (lines_of text))%nat
  /\ forall i k a b, (i < k)%nat ->
       nth_error arts i = Some a -> nth_error arts k = Some b ->
       exists w, is_anchor U (line_at (lines_of text) w) = true
                 /\ (a_title_line_idx a < w <= a_title_line_idx b)%nat.
Proof.
  intros Hs. destruct (@split_articles_inv U text arts Hs) as (ds & Hfp & Hlen & Hnth).
  split.
  - rewrite Hlen. split; [now apply first_pass_length with (U := U) (lines := lines_of text)|].
    unfold anchor_indices.
    etransitivity; [apply filter_length_le|]. now rewrite length_seq.
  - intros i k a b Hik Ha Hb. rewrite Hnth in Ha, Hb.
    destruct (nth_error ds i) as [d1|] eqn:H1; [|discriminate].
    destruct (nth_error ds k) as [d2|] eqn:H2; [|discriminate].
    injection Ha as <-. injection Hb as <-.
    assert (Hsorted : StronglySorted (anchor_between U (lines_of text)) ds).
    { apply first_pass_sorted with (idxs := anchor_indices U (lines_of text)).
      - unfold anchor_indices. apply filter_sorted, seq_sorted.
      - intros w Hw. unfold anchor_indices in Hw. apply filter_In in Hw. apply Hw.
      - exact Hfp. }
    exact (@sorted_nth _ _ _ Hsorted i k d1 d2 Hik H1 H2).
Qed.

Lemma records_in_document_order_witness :
  split_articles cjk_tables doc_sample = Ok sample_articles
  /\ List.length sample_articles = 2%nat
  /\ (List.length sample_articles
      <= List.length (anchor_indices cjk_tables (lines_of doc_sample))
      <= List.length (lines_of doc_sample))%nat
  /\ forall i k a b, (i < k)%nat ->
       nth_error sample_articles i = Some a ->
       nth_error sample_articles k = Some b ->
       exists w, is_anchor cjk_tables (line_at (lines_of doc_sample) w) = true
                 /\ (a_title_line_idx a < w <= a_title_line_idx b)%nat.
Proof.
  assert (Hs : split_articles cjk_tables doc_sample = Ok sample_articles)
    by (vm_compute; reflexivity).
  split; [exact Hs|]. split; [reflexivity|].
  exact (@records_in_document_order cjk_tables doc_sample sample_articles Hs).
Defined.

(** ** The characters of the cleaned text *)

Lemma Forall_firstn {A} (P : A -> Prop) (n : nat) (l : list A) :
  Forall P l -> Forall P (firstn n l).
Proof.
  intros H. rewrite <- (firstn_skipn n l) in H. now apply Forall_app in H.
Qed.

Lemma Forall_skipn {A} (P : A -> Prop) (n : nat) (l : list A) :
  Forall P l -> Forall P (skipn n l).
Proof.
  intros H. rewrite <- (firstn_skipn n l) in H. now apply Forall_app in H.
Qed.

Lemma Forall_slice {A} (P : A -> Prop) (b e : nat) (l : list A) :
  Forall P l -> Forall P (slice l b e).
Proof. intros H. unfold slice. now apply Forall_firstn, Forall_skipn. Qed.

Lemma Forall_dropwhile {A} (P : A -> Prop) (f : A -> bool) (l : list A) :
  Forall P l -> Forall P (dropwhile f l).
Proof.
  intros H. destruct (dropwhile_suffix f l) as (p & Hp & _).
  rewrite Hp in H. now apply Forall_app in H.
Qed.

Lemma Forall_strip (P : char -> Prop) (s : pystr) :
  Forall P s -> Forall P (strip s).
Proof.
  intros H. unfold strip, rstrip, lstrip.
  now apply Forall_rev, Forall_dropwhile, Forall_rev, Forall_dropwhile.
Qed.

(** A substitution brings in no character but those of the replacement. *)
Lemma Forall_sub_pieces (P : char -> Prop) (s v : pystr) :
  Forall P s -> Forall P v ->
  forall ms pos, Forall P (sub_pieces s (const_repl v) pos ms).
Proof.
  intros Hs Hv. induction ms as [|m ms IH]; intros pos; cbn [sub_pieces].
  - now apply Forall_skipn.
  - apply Forall_app. split; [now apply Forall_slice|].
    apply Forall_app. split; [exact Hv | apply IH].
Qed.

Lemma Forall_re_sub (U : UnicodeData) (P : char -> Prop) (r : regex)
  (s v : pystr) :
  Forall P s -> Forall P v -> Forall P (re_sub U r (const_repl v) s).
Proof. intros Hs Hv. unfold re_sub. now apply Forall_sub_pieces. Qed.

Lemma Forall_strip_prefix (P : char -> Prop) (p : pystr) :
  forall s rest, strip_prefix p s = Some rest -> Forall P s -> Forall P rest.
Proof.
  induction p as [|x p IH]; intros s rest; simpl.
  - intros H; now injection H as <-.
  - destruct s as [|y s]; [discriminate|].
    destruct (x =? y)%N; [|discriminate].
    intros H Hs. apply (IH s rest H). now inversion Hs.
Qed.

Lemma Forall_replace_loop (P : char -> Prop) (old new : pystr) :
  Forall P new ->
  forall fuel s, Forall P s -> Forall P (replace_loop fuel old new s).
Proof.
  intros Hn. induction fuel as [|fuel IH]; intros s Hs; cbn [replace_loop];
    [assumption|].
  destruct s as [|c t]; [constructor|].
  destruct (strip_prefix old (c :: t)) as [rest|] eqn:E.
  - apply Forall_app. split; [assumption|]. apply IH.
    now apply (@Forall_strip_prefix P old (c :: t) rest E).
  - inversion Hs; subst. constructor; [assumption | now apply IH].
Qed.

Lemma Forall_str_replace (P : char -> Prop) (old new s : pystr) :
  Forall P new -> Forall P s -> Forall P (str_replace old new s).
Proof. intros Hn Hs. unfold str_replace. now apply Forall_replace_loop. Qed.

Lemma Forall_join (P : char -> Prop) (sep : pystr) (parts : list pystr) :
  Forall P sep -> Forall (Forall P) parts -> Forall P (join sep parts).
Proof.
  intros Hsep. induction 1 as [|x l Hx Hl IH]; [constructor|].
  destruct l as [|y l]; [exact Hx|].
  change (join sep (x :: y :: l)) with (x ++ sep ++ join sep (y :: l)).
  apply Forall_app. split; [assumption|]. apply Forall_app. now split.
Qed.

Section CleanText.

Variable U : UnicodeData.

Lemma clean_char_LF : clean_char U LF.
Proof. now left. Qed.

Lemma clean_char_printable (c : char) : isprintable U c = true -> clean_char U c.
Proof. now right. Qed.

Lemma scrub_clean (l : pystr) : Forall (clean_char U) (scrub U l).
Proof.
  unfold scrub. apply Forall_forall. intros x Hx. apply in_map_iff in Hx.
  destruct Hx as (c & <- & _). apply clean_char_printable.
  destruct (isprintable U c) eqn:Hc; [assumption | reflexivity].
Qed.

Lemma clean_line_clean (line : pystr) :
  Forall (Forall (clean_char U)) (clean_line U line).
Proof.
  unfold clean_line. destruct (negb (nonempty (strip line))).
  - repeat constructor.
  - destruct (noise_line (strip line)); [constructor|].
    constructor; [apply scrub_clean | constructor].
Qed.

Lemma clean_factiva_text_clean (t : pystr) :
  Forall (clean_char U) (clean_factiva_text U t).
Proof.
  unfold clean_factiva_text. apply Forall_strip, Forall_re_sub.
  - apply Forall_join; [constructor; [apply clean_char_LF | constructor]|].
    apply Forall_forall. intros l Hl. apply in_flat_map in Hl.
    destruct Hl as (line & _ & Hl).
    pose proof (clean_line_clean line) as H. rewrite Forall_forall in H. now apply H.
  - constructor; [apply clean_char_LF|].
    constructor; [apply clean_char_LF | constructor].
Qed.

Lemma preprocess_clean (t : pystr) :
  Forall (clean_char U) t -> Forall (clean_char U) (preprocess U t).
Proof.
  intros H. unfold preprocess.
  assert (Hsp : clean_char U SP) by (apply clean_char_printable; reflexivity).
  assert (Hlf : Forall (clean_char U) [LF])
    by (constructor; [apply clean_char_LF | constructor]).
  apply Forall_strip.
  apply Forall_re_sub; [|exact Hlf].
  apply Forall_re_sub; [|constructor; [exact Hsp | constructor]].
  apply Forall_re_sub;
    [|constructor; [apply clean_char_LF | exact Hlf]].
  apply Forall_re_sub; [|constructor].
  apply Forall_re_sub; [|constructor].
  apply Forall_re_sub; [|constructor].
  apply Forall_re_sub; [|exact Hlf].
  apply Forall_str_replace; [|exact H].
  constructor; [apply clean_char_printable; reflexivity | constructor].
Qed.

End CleanText.

(** X4. Whatever the input, the text that leaves the noise filter is made
    of line feeds and printable characters only (tabs, carriage returns,
    other line separators and control characters are gone), and
    [preprocess] keeps it so. *)
Theorem cleaned_text_characters (U : UnicodeData) (t : pystr) :
  Forall (clean_char U) (clean_factiva_text U t)
  /\ Forall (clean_char U) (preprocess U (clean_factiva_text U t)).
Proof.
  split; [apply clean_factiva_text_clean|].
  apply preprocess_clean, clean_factiva_text_clean.
Qed.

(** ** Braces *)

Lemma filter_Forall_neq (c : char) (s : pystr) :
  Forall (fun x => x <> c) (filter (fun x => negb (c =? x)%N) s).
Proof.
  apply Forall_forall. intros x Hx. apply filter_In in Hx. destruct Hx as (_ & Hx).
  apply negb_true_iff, N.eqb_neq in Hx. congruence.
Qed.

Lemma filter_Forall_keep {A} (P : A -> Prop) (f : A -> bool) (s : list A) :
  Forall P s -> Forall P (filter f s).
Proof.
  intros H. rewrite Forall_forall in *. intros x Hx. apply filter_In in Hx.
  now apply H.
Qed.

(** X5. The decoded text has no brace left, whatever the escapes of the
    input decode to. *)
Theorem rtf_to_text_no_braces (U : UnicodeData) (rtf : pystr) :
  ~ In (uc "{") (rtf_to_text U rtf) /\ ~ In (uc "}") (rtf_to_text U rtf).
Proof.
  assert (H : Forall (fun x => x <> uc "{" /\ x <> uc "}") (rtf_to_text U rtf)).
  { unfold rtf_to_text. cbv zeta.
    apply Forall_strip.
    apply Forall_re_sub; [|repeat constructor; discriminate].
    apply Forall_re_sub; [|repeat constructor; discriminate].
    change (u "}") with [uc "}"]. change (u "{") with [uc "{"].
    unfold str_replace at 1 2. rewrite !replace_loop_remove by lia.
    apply Forall_forall. intros x Hx.
    apply filter_In in Hx. destruct Hx as (Hx & H2).
    apply filter_In in Hx. destruct Hx as (_ & H1).
    apply negb_true_iff, N.eqb_neq in H1, H2. split; congruence. }
  rewrite Forall_forall in H. split; intros Hin; apply H in Hin; tauto.
Qed.

(** ** The cleaned title *)

Lemma dropwhile_length {A} (f : A -> bool) (l : list A) :
  (List.length (dropwhile f l) <= List.length l)%nat.
Proof.
  induction l as [|x l IH]; simpl; [lia|]. destruct (f x); simpl; lia.
Qed.

Lemma dropwhile_ext {A} (f g : A -> bool) (l : list A) :
  (forall x, f x = g x) -> dropwhile f l = dropwhile g l.
Proof.
  intros H. induction l as [|x l IH]; simpl; [reflexivity|].
  rewrite <- H. destruct (f x); [exact IH | reflexivity].
Qed.

Lemma dropwhile_nil {A} (f : A -> bool) (l : list A) :
  dropwhile f l = [] <-> forallb f l = true.
Proof.
  induction l as [|x l IH]; simpl; [tauto|].
  destruct (f x); simpl; [exact IH|]. split; discriminate.
Qed.

Lemma skipn_dropwhile {A} (f : A -> bool) (l : list A) :
  skipn (List.length l - List.length (dropwhile f l)) l = dropwhile f l.
Proof.
  destruct (dropwhile_suffix f l) as (pre & Hl & _).
  rewrite Hl at 1 3. rewrite length_app.
  replace (List.length pre + List.length (dropwhile f l)
           - List.length (dropwhile f l))%nat with (List.length pre) by lia.
  rewrite skipn_app, skipn_all, Nat.sub_diag. reflexivity.
Qed.

Section Greedy.

Variable P : char -> bool.

(** A greedy quantifier over one class, followed by nothing that can fail,
    takes the whole run of the class. *)
Lemma rep_eat_max (lo : nat) :
  forall fuel count st,
    (List.length (m_rest st) < fuel)%nat ->
    match rep_loop (eat P) lo true (fun st' => Some st') fuel count st with
    | Some st' =>
        m_rest st' = dropwhile P (m_rest st)
        /\ (m_pos st' + List.length (m_rest st')
            = m_pos st + List.length (m_rest st))%nat
        /\ (lo <= count + (List.length (m_rest st) - List.length (m_rest st')))%nat
        /\ m_groups st' = m_groups st
    | None =>
        (count + (List.length (m_rest st)
                  - List.length (dropwhile P (m_rest st))) < lo)%nat
    end.
Proof.
  induction fuel as [|fuel IH]; intros count st Hf; [lia|].
  cbn [rep_loop]. unfold eat at 1.
  destruct (m_rest st) as [|c r] eqn:Hr.
  - destruct (Nat.leb_spec lo count) as [Hle|Hlt]; simpl.
    + rewrite Hr. simpl. repeat split; lia.
    + lia.
  - pose proof (dropwhile_length P r) as Hlen.
    cbn [dropwhile]. destruct (P c) eqn:Hc.
    + cbn [m_pos].
      replace (Nat.eqb (S (m_pos st)) (m_pos st)) with false
        by (symmetry; apply Nat.eqb_neq; lia).
      rewrite andb_false_r.
      match goal with
      | |- context [rep_loop ?a ?b ?c0 ?d ?e ?f ?g] =>
          specialize (IH f g); destruct (rep_loop a b c0 d e f g) as [st'|] eqn:E
      end.
      * cbn [m_rest m_pos m_groups] in IH. simpl in Hf.
        destruct (IH ltac:(lia)) as (H1 & H2 & H3 & H4).
        assert (Hle : (List.length (m_rest st') <= List.length r)%nat)
          by (rewrite H1; exact Hlen).
        cbn [List.length].
        repeat split; [assumption | lia | lia | assumption].
      * cbn [m_rest] in IH. simpl in Hf. specialize (IH ltac:(lia)).
        destruct (Nat.leb_spec lo count) as [Hle|Hlt]; [lia|].
        cbn [List.length]. lia.
    + destruct (Nat.leb_spec lo count) as [Hle|Hlt].
      * rewrite Hr. repeat split; lia.
      * cbn [List.length]. lia.
Qed.

End Greedy.

Section Title.

Variable U : UnicodeData.

Lemma search_from_none (r : regex) (adv : bool) (pos : nat)
  (prev : option char) (rest : pystr) :
  search_from U r adv pos prev rest = None ->
  match_here U r adv
    {| m_pos := pos; m_prev := prev; m_rest := rest; m_groups := [] |} = None.
Proof.
  destruct rest as [|c t]; cbn [search_from];
    destruct (match_here U r adv _); congruence.
Qed.

Lemma nonword_class (x : char) :
  negb (existsb (item_match U x) [IWord]) = nonword U x.
Proof. unfold nonword. simpl. now rewrite orb_false_r. Qed.

(** [re.sub(r"^\W+", "", t)] removes the leading characters that are not
    word characters. *)
Lemma re_sub_nonword_prefix (t : pystr) :
  re_sub U re_nonword_prefix (const_repl []) t = dropwhile (nonword U) t.
Proof.
  unfold re_sub, re_finditer, re_nonword_prefix, Plus.
  replace (2 * List.length t + 2)%nat with (S (S (2 * List.length t))) by lia.
  cbn [matches_loop].
  pose proof (@rep_eat_max (fun x => negb (existsb (item_match U x) [IWord])) 1
                (1 + List.length t) 0
                {| m_pos := 0; m_prev := None; m_rest := t; m_groups := [] |}
                ltac:(simpl; lia)) as Hmax.
  cbn [m_rest m_pos m_groups] in Hmax.
  rewrite (dropwhile_ext _ (nonword U) t nonword_class) in Hmax.
  destruct (search_from U _ false 0 None t) as [[b st']|] eqn:E.
  - apply search_bol in E. destruct E as (_ & -> & E).
    unfold match_here in E. rewrite rmatch_Seq, rmatch_Bol in E.
    cbn [m_pos Nat.eqb] in E. rewrite rmatch_rep_nset in E.
    cbn [m_rest andb] in E. rewrite E in Hmax.
    destruct Hmax as (H1 & H2 & H3 & _).
    destruct (m_pos st') as [|n] eqn:Hp; [simpl in H2; lia|].
    rewrite search_bol_none.
    cbn [sub_pieces mk_match mo_start mo_end fst snd const_repl app].
    rewrite Hp. unfold slice. cbn [Nat.sub firstn app].
    rewrite <- (skipn_dropwhile (nonword U) t). f_equal.
    rewrite <- H1. lia.
  - apply search_from_none in E.
    unfold match_here in E. rewrite rmatch_Seq, rmatch_Bol in E.
    cbn [m_pos Nat.eqb] in E. rewrite rmatch_rep_nset in E.
    cbn [m_rest andb] in E. rewrite E in Hmax.
    cbn [sub_pieces skipn].
    destruct (dropwhile_suffix (nonword U) t) as (pre & Hl & _).
    pose proof (dropwhile_length (nonword U) t) as Hlen.
    assert (Hpre : pre = []).
    { apply (f_equal (@List.length char)) in Hl. rewrite length_app in Hl.
      destruct pre; [reflexivity | simpl in Hl; lia]. }
    subst pre. simpl in Hl. congruence.
Qed.

Hypothesis Hspace : space_not_word U.

Lemma word_not_space (c : char) : isword U c = true -> isspace c = false.
Proof.
  intros Hw. destruct (isspace c) eqn:Hs; [|reflexivity].
  rewrite (Hspace c Hs) in Hw. discriminate.
Qed.

Lemma rstrip_nil_inv (s : pystr) : rstrip s = [] -> forallb isspace s = true.
Proof.
  intros H. destruct (rstrip_prefix s) as (tl & Hs & Htl).
  rewrite H in Hs. simpl in Hs. now subst.
Qed.

Lemma clean_title_eq (title : pystr) :
  clean_title U title =
  rstrip (dropwhile (nonword U)
            (strip (re_sub U re_toc_prefix (const_repl []) title))).
Proof.
  unfold clean_title. cbv zeta. rewrite re_sub_nonword_prefix.
  unfold strip at 1. f_equal. unfold lstrip. apply dropwhile_fixed.
  destruct (dropwhile (nonword U) _) as [|x d] eqn:E; [exact I|].
  apply dropwhile_head in E. apply word_not_space.
  unfold nonword in E. now apply negb_false_iff in E.
Qed.

End Title.

(** X6. With no white-space character a word character, the cleaned
    title is the raw title without its [toc] tokens, stripped, without its
    leading non-word characters and without trailing white space. It is
    empty exactly when no word character is left after the [toc] tokens,
    and otherwise it starts with a word character. *)
Theorem clean_title_word (U : UnicodeData) (title : pystr) :
  space_not_word U ->
  let t := strip (re_sub U re_toc_prefix (const_repl []) title) in
  clean_title U title = rstrip (dropwhile (nonword U) t)
  /\ (clean_title U title = [] <-> forallb (nonword U) t = true)
  /\ (forall c r, clean_title U title = c :: r -> isword U c = true).
Proof.
  intros Hsp t. pose proof (@clean_title_eq U Hsp title) as Heq. fold t in Heq.
  split; [exact Heq|]. rewrite Heq. split.
  - split.
    + intros H. apply rstrip_nil_inv in H. apply dropwhile_nil.
      destruct (dropwhile (nonword U) t) as [|x d] eqn:E; [reflexivity|].
      exfalso. pose proof (dropwhile_head _ _ E) as Hx.
      unfold nonword in Hx. apply negb_false_iff in Hx.
      simpl in H. apply andb_true_iff in H as (H & _).
      rewrite (Hsp x H) in Hx. discriminate.
    + intros H. apply dropwhile_nil in H. rewrite H. reflexivity.
  - intros c r H. destruct (rstrip_prefix (dropwhile (nonword U) t)) as (tl & Hd & _).
    rewrite H in Hd. simpl in Hd. apply dropwhile_head in Hd.
    unfold nonword in Hd. now apply negb_false_iff in Hd.
Qed.

Lemma space_not_word_cjk : space_not_word cjk_tables.
Proof.
  intros c H. unfold isspace, in_range in H.
  unfold isword, isalnum, is_ascii, ascii_upper, ascii_lower, ascii_digit,
    cjk_tables, u_isalnum, is_cjk, in_range.
  repeat rewrite orb_true_iff in H. repeat rewrite andb_true_iff in H.
  repeat rewrite N.leb_le in H. repeat rewrite N.eqb_eq in H.
  assert (Hc : (9 <= c <= 13 \/ 28 <= c <= 32 \/ c = 133 \/ c = 160 \/ c = 5760
                \/ 8192 <= c <= 8202 \/ c = 8232 \/ c = 8233 \/ c = 8239
                \/ c = 8287 \/ c = 12288)%N) by lia.
  clear H.
  repeat match goal with
         | |- context [(?a <? ?b)%N] => destruct (N.ltb_spec a b); try lia
         | |- context [(?a <=? ?b)%N] => destruct (N.leb_spec a b); try lia
         | |- context [(?a =? ?b)%N] => destruct (N.eqb_spec a b); try lia
         end; reflexivity.
Qed.

Lemma clean_title_word_witness :
  space_not_word cjk_tables
  /\ clean_title cjk_tables (u "toc12  -- Hello ") = u "Hello"
  /\ let t := strip (re_sub cjk_tables re_toc_prefix (const_repl [])
                       (u "toc12  -- Hello ")) in
     clean_title cjk_tables (u "toc12  -- Hello ")
     = rstrip (dropwhile (nonword cjk_tables) t)
     /\ (clean_title cjk_tables (u "toc12  -- Hello ") = []
         <-> forallb (nonword cjk_tables) t = true)
     /\ (forall c r, clean_title cjk_tables (u "toc12  -- Hello ") = c :: r ->
           isword cjk_tables c = true).
Proof.
  split; [exact space_not_word_cjk|]. split; [vm_compute; reflexivity|].
  exact (@clean_title_word cjk_tables (u "toc12  -- Hello ") space_not_word_cjk).
Defined.

(** ** Matches as parts of the subject *)

Lemma keeps_groups_refl (st : mstate) : keeps_groups st st.
Proof. intros n H. exact H. Qed.

Lemma keeps_groups_trans (st1 st2 st3 : mstate) :
  keeps_groups st1 st2 -> keeps_groups st2 st3 -> keeps_groups st1 st3.
Proof. intros H1 H2 n H. apply H2, H1, H. Qed.

Lemma keeps_groups_set (n b e : nat) (st : mstate) :
  keeps_groups st (set_group n b e st).
Proof.
  intros k H. cbn [set_group m_groups lookup_group].
  destruct (Nat.eqb n k); [discriminate | exact H].
Qed.

Lemma lookup_set_group (n b e : nat) (st : mstate) :
  lookup_group n (m_groups (set_group n b e st)) = Some (b, e).
Proof. cbn [set_group m_groups lookup_group]. now rewrite Nat.eqb_refl. Qed.

Lemma extends_refl (st : mstate) : extends st st [].
Proof. split; [apply advanced_refl | apply keeps_groups_refl]. Qed.

Lemma extends_trans (st1 st2 st3 : mstate) (p q : pystr) :
  extends st1 st2 p -> extends st2 st3 q -> extends st1 st3 (p ++ q).
Proof.
  intros (A1 & K1) (A2 & K2). split.
  - eapply advanced_trans; eassumption.
  - eapply keeps_groups_trans; eassumption.
Qed.

Section Extension.

Variable U : UnicodeData.

Lemma eat_extends (P : char -> bool) (st : mstate) (k : mstate -> option mstate)
  (m : mstate) :
  eat P st k = Some m ->
  exists st' pre, k st' = Some m /\ extends st st' pre.
Proof.
  intros H. destruct (@eat_inv _ _ _ _ H) as (c & r & Hr & _ & Hk).
  eexists. exists [c]. split; [exact Hk|]. split.
  - unfold advanced. simpl. repeat split; [assumption | lia].
  - intros n Hn. exact Hn.
Qed.

Lemma rep_loop_extends
  (ma : mstate -> (mstate -> option mstate) -> option mstate)
  (lo : nat) (greedy : bool) (k : mstate -> option mstate) :
  (forall st k' m, ma st k' = Some m ->
     exists st' pre, k' st' = Some m /\ extends st st' pre) ->
  forall fuel count st m,
    rep_loop ma lo greedy k fuel count st = Some m ->
    exists st' pre, k st' = Some m /\ extends st st' pre.
Proof.
  intros Hma. induction fuel as [|fuel IH]; intros count st m; cbn [rep_loop].
  - destruct (Nat.leb lo count); [|discriminate].
    intros H. exists st, []. split; [assumption | apply extends_refl].
  - assert (Hagain : forall m0,
      ma st (fun st' =>
               if Nat.leb lo count && Nat.eqb (m_pos st') (m_pos st) then None
               else rep_loop ma lo greedy k fuel (S count) st') = Some m0 ->
      exists st' pre, k st' = Some m0 /\ extends st st' pre).
    { intros m0 H. destruct (Hma _ _ _ H) as (st1 & p1 & H1 & A1).
      destruct (Nat.leb lo count && Nat.eqb (m_pos st1) (m_pos st)); [discriminate|].
      destruct (IH _ _ _ H1) as (st2 & p2 & H2 & A2).
      exists st2, (p1 ++ p2). split; [assumption | eapply extends_trans; eassumption]. }
    assert (Hstop : forall m0,
      (if Nat.leb lo count then k st else None) = Some m0 ->
      exists st' pre, k st' = Some m0 /\ extends st st' pre).
    { intros m0 H. destruct (Nat.leb lo count); [|discriminate].
      exists st, []. split; [assumption | apply extends_refl]. }
    destruct greedy.
    + match goal with
      | |- match ?x with _ => _ end = _ -> _ => destruct x as [m1|] eqn:E
      end.
      * intros H; injection H as <-. now apply Hagain.
      * apply Hstop.
    + match goal with
      | |- match ?x with _ => _ end = _ -> _ => destruct x as [m1|] eqn:E
      end.
      * intros H; injection H as <-. now apply Hstop.
      * apply Hagain.
Qed.

(** A successful match calls the continuation on a state further on in the
    subject, with the groups it had and possibly more. *)
Lemma rmatch_extends (r : regex) :
  forall st k m,
    rmatch U r st k = Some m ->
    exists st' pre, k st' = Some m /\ extends st st' pre.
Proof.
  induction r as [| c | c | | items | items | a IHa b IHb | a IHa b IHb
                 | lo hi greedy a IHa | n a IHa | |];
    intros st k m; cbn [rmatch].
  - intros H. exists st, []. split; [assumption | apply extends_refl].
  - apply eat_extends.
  - apply eat_extends.
  - apply eat_extends.
  - apply eat_extends.
  - apply eat_extends.
  - intros H. destruct (IHa _ _ _ H) as (st1 & p1 & H1 & A1).
    destruct (IHb _ _ _ H1) as (st2 & p2 & H2 & A2).
    exists st2, (p1 ++ p2). split; [assumption | eapply extends_trans; eassumption].
  - destruct (rmatch U a st k) as [m1|] eqn:E.
    + intros H; injection H as <-. now apply IHa.
    + apply IHb.
  - apply rep_loop_extends. exact IHa.
  - intros H. destruct (IHa _ _ _ H) as (st1 & p1 & H1 & (A1 & K1)).
    exists (set_group n (m_pos st) (m_pos st1) st1), p1. split; [assumption|].
    split; [exact A1|].
    eapply keeps_groups_trans; [exact K1 | apply keeps_groups_set].
  - destruct (Nat.eqb (m_pos st) 0); [|discriminate].
    intros H. exists st, []. split; [assumption | apply extends_refl].
  - destruct (xorb _ _); [|discriminate].
    intros H. exists st, []. split; [assumption | apply extends_refl].
Qed.

(** A group of the pattern is set once its part has matched. *)
Lemma rmatch_Grp_extends (n : nat) (a : regex) (st : mstate)
  (k : mstate -> option mstate) (m : mstate) :
  rmatch U (Grp n a) st k = Some m ->
  exists st' pre,
    k st' = Some m /\ extends st st' pre
    /\ lookup_group n (m_groups st') = Some (m_pos st, m_pos st').
Proof.
  rewrite rmatch_Grp. intros H.
  destruct (@rmatch_extends a _ _ _ H) as (st1 & p1 & H1 & (A1 & K1)).
  exists (set_group n (m_pos st) (m_pos st1) st1), p1. split; [assumption|].
  split; [|apply lookup_set_group].
  split; [exact A1|].
  eapply keeps_groups_trans; [exact K1 | apply keeps_groups_set].
Qed.

(** The match that a search finds starts somewhere in the text searched. *)
Lemma search_from_inv (r : regex) :
  forall rest adv pos prev b st',
    search_from U r adv pos prev rest = Some (b, st') ->
    exists adv' pre rest',
      rest = pre ++ rest' /\ b = (pos + List.length pre)%nat
      /\ match_here U r adv'
           {| m_pos := b; m_prev := last_char prev pre; m_rest := rest';
              m_groups := [] |} = Some st'.
Proof.
  induction rest as [|c rest IH]; intros adv pos prev b st'; cbn [search_from].
  - destruct (match_here U r adv _) as [m|] eqn:E; [|discriminate].
    intros H; injection H as <- <-. exists adv, [], [].
    split; [reflexivity|]. split; [simpl; lia|].
    replace (pos + List.length (@nil char))%nat with pos by (simpl; lia). exact E.
  - destruct (match_here U r adv _) as [m|] eqn:E.
    + intros H; injection H as <- <-. exists adv, [], (c :: rest).
      split; [reflexivity|]. split; [simpl; lia|].
      replace (pos + List.length (@nil char))%nat with pos by (simpl; lia). exact E.
    + intros H. destruct (IH _ _ _ _ _ H) as (adv' & pre & rest' & Hr & Hb & Hm).
      exists adv', (c :: pre), rest'. split; [simpl; congruence|].
      split; [simpl; lia|]. exact Hm.
Qed.

Lemma match_here_inv (r : regex) (adv : bool) (st st' : mstate) :
  match_here U r adv st = Some st' -> exists pre, extends st st' pre.
Proof.
  unfold match_here. intros H.
  destruct (@rmatch_extends r _ _ _ H) as (st1 & pre & H1 & E1).
  destruct (adv && Nat.eqb (m_pos st1) (m_pos st)); [discriminate|].
  injection H1 as <-. now exists pre.
Qed.

(** Every match of the scan is a part [mid] of the subject, found by an
    attempt at its first character. *)
Lemma matches_loop_inv (r : regex) (s : pystr) :
  forall fuel adv pos prev rest done m,
    s = done ++ rest -> pos = List.length done -> prev = last_char None done ->
    In m (matches_loop U fuel r s adv pos prev rest) ->
    exists adv' pre mid post st',
      s = pre ++ mid ++ post
      /\ match_here U r adv'
           {| m_pos := List.length pre; m_prev := last_char None pre;
              m_rest := mid ++ post; m_groups := [] |} = Some st'
      /\ m = mk_match s (List.length pre, st')
      /\ m_pos st' = (List.length pre + List.length mid)%nat
      /\ m_rest st' = post
      /\ m_prev st' = last_char None (pre ++ mid).
Proof.
  induction fuel as [|fuel IH]; intros adv pos prev rest done m Hs Hpos Hprev;
    cbn [matches_loop]; [intros []|].
  destruct (search_from U r adv pos prev rest) as [[b st1]|] eqn:E; [|intros []].
  destruct (@search_from_inv _ _ _ _ _ _ _ E) as (adv' & pre1 & rest1 & Hr & Hb & Hm).
  destruct (@match_here_inv _ _ _ _ Hm) as (mid & (R1 & P1 & V1) & _).
  cbn [m_rest m_pos m_prev] in R1, P1, V1.
  assert (Hb' : b = List.length (done ++ pre1)) by (rewrite length_app; lia).
  assert (Hprev' : last_char prev pre1 = last_char None (done ++ pre1))
    by (rewrite last_char_app; congruence).
  intros [Hm0 | Hin].
  - exists adv', (done ++ pre1), mid, (m_rest st1), st1.
    split; [rewrite Hs, Hr, R1, <- app_assoc; reflexivity|].
    split; [rewrite <- Hb', <- Hprev', <- R1; exact Hm|].
    split; [rewrite <- Hb'; now symmetry|].
    split; [lia|]. split; [reflexivity|].
    rewrite last_char_app, <- Hprev'. exact V1.
  - apply (IH _ _ _ _ ((done ++ pre1) ++ mid) m) in Hin; [assumption | | |].
    + rewrite Hs, Hr, R1, <- !app_assoc. reflexivity.
    + rewrite length_app. lia.
    + rewrite last_char_app, <- Hprev'. exact V1.
Qed.

Lemma re_finditer_inv (r : regex) (s : pystr) (m : rmatch_obj) :
  In m (re_finditer U r s) ->
  exists adv pre mid post st',
    s = pre ++ mid ++ post
    /\ match_here U r adv
         {| m_pos := List.length pre; m_prev := last_char None pre;
            m_rest := mid ++ post; m_groups := [] |} = Some st'
    /\ m = mk_match s (List.length pre, st')
    /\ m_pos st' = (List.length pre + List.length mid)%nat
    /\ m_rest st' = post
    /\ m_prev st' = last_char None (pre ++ mid).
Proof.
  unfold re_finditer. apply matches_loop_inv with (done := []); reflexivity.
Qed.

Lemma re_search_inv (r : regex) (s : pystr) (m : rmatch_obj) :
  re_search U r s = Some m ->
  exists adv pre mid post st',
    s = pre ++ mid ++ post
    /\ match_here U r adv
         {| m_pos := List.length pre; m_prev := last_char None pre;
            m_rest := mid ++ post; m_groups := [] |} = Some st'
    /\ m = mk_match s (List.length pre, st')
    /\ m_pos st' = (List.length pre + List.length mid)%nat
    /\ m_rest st' = post.
Proof.
  unfold re_search.
  destruct (search_from U r false 0 None s) as [[b st']|] eqn:E; [|discriminate].
  intros H; injection H as <-.
  destruct (@search_from_inv _ _ _ _ _ _ _ E) as (adv & pre & rest & Hr & Hb & Hm).
  destruct (@match_here_inv _ _ _ _ Hm) as (mid & (R1 & P1 & V1) & _).
  cbn [m_rest m_pos m_prev] in R1, P1, V1. simpl in Hb. subst b.
  exists adv, pre, mid, (m_rest st'), st'.
  split; [rewrite Hr, R1; reflexivity|].
  split; [rewrite <- R1; exact Hm|]. split; [reflexivity|]. split; [lia | reflexivity].
Qed.

End Extension.

(** ** Dates and exceptions *)

Section Dates.

Variable U : UnicodeData.

Lemma re_date_eq :
  re_date =
  Seq (Grp 1 (Rep 4 (Some 4%nat) true Digit))
    (Seq gap10
       (Seq (Grp 2 digits12)
          (Seq gap10
             (Seq (Grp 3 digits12)
                (Seq gap10
                   (Seq (Lit RI)
                      (Opt (seqs [gap10; Grp 4 digits12; Lit (uc ":");
                                  Grp 5 (Rep 2 (Some 2%nat) true Digit)])))))))).
Proof. reflexivity. Qed.

(** A match of the date pattern reads the day mark, and sets the groups
    of the year, the month and the day. *)
Lemma re_date_inv (adv : bool) (st st' : mstate) :
  match_here U re_date adv st = Some st' ->
  In RI (m_rest st)
  /\ lookup_group 1 (m_groups st') <> None
  /\ lookup_group 2 (m_groups st') <> None
  /\ lookup_group 3 (m_groups st') <> None.
Proof.
  unfold match_here. rewrite re_date_eq. intros E.
  rewrite rmatch_Seq in E. apply rmatch_Grp_extends in E.
  destruct E as (s1 & p1 & E & (A1 & K1) & G1). cbv beta in E.
  rewrite rmatch_Seq in E. apply rmatch_extends in E.
  destruct E as (s2 & p2 & E & (A2 & K2)). cbv beta in E.
  rewrite rmatch_Seq in E. apply rmatch_Grp_extends in E.
  destruct E as (s3 & p3 & E & (A3 & K3) & G3). cbv beta in E.
  rewrite rmatch_Seq in E. apply rmatch_extends in E.
  destruct E as (s4 & p4 & E & (A4 & K4)). cbv beta in E.
  rewrite rmatch_Seq in E. apply rmatch_Grp_extends in E.
  destruct E as (s5 & p5 & E & (A5 & K5) & G5). cbv beta in E.
  rewrite rmatch_Seq in E. apply rmatch_extends in E.
  destruct E as (s6 & p6 & E & (A6 & K6)). cbv beta in E.
  rewrite rmatch_Seq, rmatch_Lit in E. apply eat_inv in E.
  destruct E as (c & r & Hr & Hc & E). apply N.eqb_eq in Hc. subst c.
  apply rmatch_extends in E. destruct E as (s8 & p8 & E & (A8 & K8)).
  destruct (adv && Nat.eqb (m_pos s8) (m_pos st)); [discriminate|].
  injection E as <-. cbn [m_groups] in K8.
  destruct A1 as (R1 & _). destruct A2 as (R2 & _). destruct A3 as (R3 & _).
  destruct A4 as (R4 & _). destruct A5 as (R5 & _). destruct A6 as (R6 & _).
  split.
  - rewrite R1, R2, R3, R4, R5, R6, Hr. rewrite !in_app_iff.
    do 6 right. now left.
  - assert (H1 : lookup_group 1 (m_groups s1) <> None) by (rewrite G1; discriminate).
    assert (H3 : lookup_group 2 (m_groups s3) <> None) by (rewrite G3; discriminate).
    assert (H5 : lookup_group 3 (m_groups s5) <> None) by (rewrite G5; discriminate).
    split; [|split].
    + apply K8, K6, K5, K4, K3, K2, H1.
    + apply K8, K6, K5, K4, H3.
    + apply K8, K6, H5.
Qed.

Lemma py_int_raise (s : pystr) (e : exn) :
  py_int U s = Raise e -> e = ValueError.
Proof.
  unfold py_int. destruct (strip s) as [|c t]; [congruence|].
  destruct (c =? uc "-")%N; [|destruct (c =? uc "+")%N];
    match goal with
    | |- context [digits_value U ?a ?b ?x] => destruct (digits_value U a b x)
    end; congruence.
Qed.

Lemma mk_datetime_raise (y mo d hh mm : Z) (e : exn) :
  mk_datetime y mo d hh mm = Raise e -> e = ValueError.
Proof. unfold mk_datetime. destruct (valid_datetime y mo d hh mm); congruence. Qed.

Lemma int_or_zero_raise (g : option pystr) (e : exn) :
  int_or_zero U g = Raise e -> e = ValueError.
Proof.
  unfold int_or_zero. destruct g as [s|]; [|discriminate].
  destruct (nonempty s); [apply py_int_raise | discriminate].
Qed.

Lemma int_group_raise (m : rmatch_obj) (n : nat) (e : exn) :
  lookup_group (S n) (mo_groups m) <> None ->
  int_group U (group m (S n)) = Raise e -> e = ValueError.
Proof.
  intros Hg. unfold group.
  destruct (lookup_group (S n) (mo_groups m)) as [[b e0]|]; [|congruence].
  apply py_int_raise.
Qed.

(** [parse_factiva_date] raises nothing but [ValueError]. *)
Lemma parse_factiva_date_raise (line : pystr) (e : exn) :
  parse_factiva_date U line = Raise e -> e = ValueError.
Proof.
  unfold parse_factiva_date.
  destruct (re_search U re_date (strip line)) as [m|] eqn:E; [|discriminate].
  destruct (@re_search_inv U _ _ _ E)
    as (adv & pre & mid & post & st' & _ & Hm & -> & _).
  apply re_date_inv in Hm. destruct Hm as (_ & G1 & G2 & G3).
  unfold mk_match in *. cbn [snd] in *.
  set (m := {| mo_subject := strip line; mo_start := fst (List.length pre, st');
               mo_end := m_pos st'; mo_groups := m_groups st' |}) in *.
  destruct (int_group U (group m 1)) as [y|e1] eqn:E1; cbn [bind];
    [|intros H; injection H as <-; now apply (@int_group_raise m 0 e1)].
  destruct (int_group U (group m 2)) as [mo|e2] eqn:E2; cbn [bind];
    [|intros H; injection H as <-; now apply (@int_group_raise m 1 e2)].
  destruct (int_group U (group m 3)) as [d|e3] eqn:E3; cbn [bind];
    [|intros H; injection H as <-; now apply (@int_group_raise m 2 e3)].
  destruct (int_or_zero U (group m 4)) as [hh|e4] eqn:E4; cbn [bind];
    [|intros H; injection H as <-; now apply (@int_or_zero_raise _ e4 E4)].
  destruct (int_or_zero U (group m 5)) as [mm|e5] eqn:E5; cbn [bind];
    [|intros H; injection H as <-; now apply (@int_or_zero_raise _ e5 E5)].
  destruct (mk_datetime y mo d hh mm) as [dt|e6] eqn:E6; cbn [bind];
    [discriminate|].
  intros H; injection H as <-. now apply (@mk_datetime_raise _ _ _ _ _ e6 E6).
Qed.

Lemma word_count_of_raise (l : pystr) (e : exn) :
  is_anchor U l = true -> word_count_of U l = Raise e -> e = ValueError.
Proof.
  unfold is_anchor, word_count_of.
  destruct (re_search U WORDCOUNT_RE l) as [m|] eqn:E; [|discriminate].
  intros _. destruct (@wordcount_inv U l m E) as (ws1 & g & ws2 & rest & _ & _ & _ & _ & _ & Hg).
  rewrite Hg. apply py_int_raise.
Qed.

Lemma scan_anchor_raise (lines : list pystr) (wc_i : nat) (e : exn) :
  is_anchor U (line_at lines wc_i) = true ->
  scan_anchor U lines wc_i = Raise e -> e = ValueError.
Proof.
  intros Ha. unfold scan_anchor.
  destruct (scan_up lines wc_i) as [j|]; [|discriminate].
  destruct (nth_error lines (skip_blank lines (wc_i + 1))) as [l|]; cbn [bind];
    [|discriminate].
  destruct (parse_factiva_date U l) as [[dt|]|e1] eqn:Hdt; cbn [bind];
    [|discriminate|intros H; injection H as <-; now apply (@parse_factiva_date_raise l)].
  destruct (word_count_of U (line_at lines wc_i)) as [wc|e2] eqn:Hwc; cbn [bind].
  - destruct (ipd_step U lines _) as [ipd p']. destruct (lang_scan U 25 lines p').
    discriminate.
  - intros H; injection H as <-. now apply (@word_count_of_raise (line_at lines wc_i)).
Qed.

Lemma first_pass_raise (lines : list pystr) (idxs : list nat) (e : exn) :
  (forall w, In w idxs -> is_anchor U (line_at lines w) = true) ->
  first_pass U lines idxs = Raise e -> e = ValueError.
Proof.
  induction idxs as [|w idxs IH]; intros Ha; cbn [first_pass]; [discriminate|].
  destruct (scan_anchor U lines w) as [r|e1] eqn:Hw; cbn [bind].
  - destruct (first_pass U lines idxs) as [ds|e2] eqn:Hfp; cbn [bind]; [discriminate|].
    intros H; injection H as <-. apply IH; [|reflexivity].
    intros w0 Hw0. apply Ha. now right.
  - intros H; injection H as <-. apply (@scan_anchor_raise lines w); [|assumption].
    apply Ha. now left.
Qed.

End Dates.

(** A date is found only in a text with the day mark. *)
Lemma date_has_day_mark (U : UnicodeData) (s : pystr) (m : rmatch_obj) :
  re_search U re_date s = Some m -> In RI s.
Proof.
  intros E.
  destruct (@re_search_inv U _ _ _ E)
    as (adv & pre & mid & post & st' & Hs & Hm & _).
  apply re_date_inv in Hm. destruct Hm as (Hin & _). cbn [m_rest] in Hin.
  rewrite Hs. apply in_or_app. now right.
Qed.

(** X7. A line without the day mark is no date: [parse_factiva_date]
    returns [None] for it, and raises nothing. *)
Theorem date_needs_day_mark (U : UnicodeData) (line : pystr) :
  ~ In RI line -> parse_factiva_date U line = Ok None.
Proof.
  intros Hri. unfold parse_factiva_date.
  destruct (re_search U re_date (strip line)) as [m|] eqn:E; [|reflexivity].
  exfalso. apply Hri. apply strip_incl.
  exact (@date_has_day_mark U _ _ E).
Qed.

Lemma date_needs_day_mark_witness :
  ~ In RI (u "5 March 2024 09:30")
  /\ parse_factiva_date cjk_tables (u "5 March 2024 09:30") = Ok None.
Proof.
  assert (H : ~ In RI (u "5 March 2024 09:30")).
  { intros H. vm_compute in H. repeat (destruct H as [H|H]; [discriminate H|]).
    exact H. }
  split; [exact H|].
  exact (@date_needs_day_mark cjk_tables (u "5 March 2024 09:30") H).
Defined.

(** X8. [split_articles] raises nothing but [ValueError]: the match of an
    anchor line and the groups of a date are always there when they are
    read, so the only failures are those of [int] and of [datetime]. *)
Theorem only_value_error (U : UnicodeData) (text : pystr)
  (e : exn) :
  split_articles U text = Raise e -> e = ValueError.
Proof.
  unfold split_articles. cbv zeta.
  destruct (first_pass U (map rstrip (splitlines text))
              (anchor_indices U (map rstrip (splitlines text)))) as [ds|e1] eqn:E;
    cbn [bind]; [discriminate|].
  intros H; injection H as <-.
  apply (@first_pass_raise U _ _ e1) in E; [assumption|].
  intros w Hw. unfold anchor_indices in Hw. apply filter_In in Hw. apply Hw.
Qed.

Lemma only_value_error_witness :
  exists e, split_articles cjk_tables doc_month13 = Raise e /\ e = ValueError.
Proof.
  assert (H : exists e, split_articles cjk_tables doc_month13 = Raise e)
    by (eexists; vm_compute; reflexivity).
  destruct H as (e & H). exists e. split; [exact H|].
  exact (@only_value_error cjk_tables doc_month13 e H).
Defined.

(** ** Company names *)

Lemma last_char_nonempty (p : option char) (s : pystr) :
  s <> [] -> last_char p s = last_char None s.
Proof.
  destruct s as [|c t]; [congruence|]. intros _. unfold last_char. simpl.
  reflexivity.
Qed.

Section Companies.

Variable U : UnicodeData.

Lemma rmatch_Wordb (st : mstate) (k : mstate -> option mstate) :
  rmatch U Wordb st k =
  if xorb (wordish U (m_prev st)) (wordish U (hd_error (m_rest st)))
  then k st else None.
Proof. reflexivity. Qed.

Lemma rmatch_CSet (items : list item) (st : mstate)
  (k : mstate -> option mstate) :
  rmatch U (CSet items) st k =
  eat (fun x => existsb (item_match U x) items) st k.
Proof. reflexivity. Qed.

(** A literal string reads itself. *)
Lemma rmatch_lits (s : pystr) :
  forall st k m,
    rmatch U (lits s) st k = Some m ->
    exists st', k st' = Some m /\ advanced st st' s
                /\ m_groups st' = m_groups st.
Proof.
  induction s as [|c t IH]; intros st k m; cbn [lits].
  - intros H. exists st. split; [exact H|]. split; [apply advanced_refl | reflexivity].
  - assert (Hone : forall k0 m0,
      rmatch U (Lit c) st k0 = Some m0 ->
      exists st1, k0 st1 = Some m0 /\ advanced st st1 [c]
                  /\ m_groups st1 = m_groups st).
    { intros k0 m0 H. rewrite rmatch_Lit in H. apply eat_inv in H.
      destruct H as (x & r & Hr & Hx & H). apply N.eqb_eq in Hx. subst x.
      eexists. split; [exact H|]. split; [|reflexivity].
      unfold advanced. simpl. repeat split; [assumption | lia]. }
    destruct t as [|d t'].
    + intros H. destruct (Hone _ _ H) as (st1 & H1 & A1 & G1).
      exists st1. auto.
    + rewrite rmatch_Seq. intros H. destruct (Hone _ _ H) as (st1 & H1 & A1 & G1).
      destruct (IH _ _ _ H1) as (st2 & H2 & A2 & G2).
      exists st2. split; [exact H2|]. split.
      * change (c :: d :: t') with ([c] ++ d :: t').
        eapply advanced_trans; eassumption.
      * congruence.
Qed.

(** An alternation of literal strings reads one of them. *)
Lemma rmatch_alts_lits (l : list pystr) :
  l <> [] ->
  forall st k m,
    rmatch U (alts (map lits l)) st k = Some m ->
    exists s st', In s l /\ k st' = Some m /\ advanced st st' s
                  /\ m_groups st' = m_groups st.
Proof.
  induction l as [|s l IH]; [congruence|]. intros _ st k m.
  destruct l as [|s2 l'].
  - cbn [map alts]. intros H. destruct (@rmatch_lits s _ _ _ H) as (st' & H1 & A1 & G1).
    exists s, st'. split; [now left | auto].
  - change (alts (map lits (s :: s2 :: l')))
      with (Alt (lits s) (alts (map lits (s2 :: l')))).
    cbn [rmatch]. destruct (rmatch U (lits s) st k) as [m1|] eqn:E.
    + intros H; injection H as <-.
      destruct (@rmatch_lits s _ _ _ E) as (st' & H1 & A1 & G1).
      exists s, st'. split; [now left | auto].
    + intros H. destruct (IH ltac:(discriminate) _ _ _ H) as (s' & st' & Hin & H1).
      exists s', st'. split; [now right | exact H1].
Qed.

Lemma upper_isword (x : char) : upper x = true -> isword U x = true.
Proof.
  unfold upper, isword, isalnum, is_ascii, ascii_upper, in_range.
  change (uc "A") with 65%N. change (uc "Z") with 90%N.
  intros H. apply andb_true_iff in H as (H1 & H2).
  apply N.leb_le in H1, H2.
  replace (x <? 128)%N with true by (symmetry; apply N.ltb_lt; lia).
  replace (65 <=? x)%N with true by (symmetry; apply N.leb_le; lia).
  replace (x <=? 90)%N with true by (symmetry; apply N.leb_le; lia).
  reflexivity.
Qed.

Lemma COMPANY_RE_eq :
  COMPANY_RE =
  Seq Wordb
    (Seq (Grp 1
            (Seq (Seq (CSet [AZ])
                    (Rep 0 None true
                       (CSet [AZ; az; d09; ICh (uc "&"); ICh (uc "."); ICh (uc "-")])))
               (Seq (Rep 0 (Some 6%nat) true (Seq (Plus Space) company_token))
                  (Seq (Rep 1 None true (CSet [ISpace]))
                     (alts (map lits COMPANY_SUFFIXES))))))
       Wordb).
Proof. reflexivity. Qed.

(** What an attempt of [COMPANY_RE] that succeeds has read. *)
Lemma company_inv (adv : bool) (st st' : mstate) :
  match_here U COMPANY_RE adv st = Some st' ->
  exists st_e x name ws suf,
    advanced st st_e ((x :: name) ++ ws ++ suf)
    /\ st' = set_group 1 (m_pos st) (m_pos st_e) st_e
    /\ upper x = true
    /\ ws <> [] /\ forallb isspace ws = true
    /\ In suf COMPANY_SUFFIXES
    /\ wordish U (m_prev st) = false
    /\ xorb (wordish U (m_prev st_e)) (wordish U (hd_error (m_rest st_e))) = true.
Proof.
  unfold match_here. rewrite COMPANY_RE_eq. intros E.
  rewrite rmatch_Seq, rmatch_Wordb in E.
  destruct (xorb (wordish U (m_prev st)) (wordish U (hd_error (m_rest st))))
    eqn:W1; [|discriminate].
  rewrite rmatch_Seq, rmatch_Grp, rmatch_Seq, rmatch_Seq, rmatch_CSet in E.
  apply eat_inv in E. destruct E as (x & r & Hr & Hx & E).
  rewrite rmatch_rep_cset in E. apply rep_eat_inv in E.
  destruct E as (st2 & name & E & A2 & _ & _ & _). cbv beta in E.
  rewrite rmatch_Seq in E. apply rmatch_sound in E.
  destruct E as (st3 & more & E & A3). cbv beta in E.
  rewrite rmatch_Seq, rmatch_rep_cset in E. apply rep_eat_inv in E.
  destruct E as (st4 & ws & E & A4 & F4 & L4 & _). cbv beta in E.
  apply rmatch_alts_lits in E; [|discriminate].
  destruct E as (suf & st5 & Hsuf & E & A5 & _).
  rewrite rmatch_Wordb in E. cbn [set_group m_prev m_rest] in E.
  destruct (xorb (wordish U (m_prev st5)) (wordish U (hd_error (m_rest st5))))
    eqn:W2; [|discriminate].
  destruct (adv && _); [discriminate|]. injection E as <-.
  assert (Hup : upper x = true).
  { simpl in Hx. now rewrite orb_false_r in Hx. }
  exists st5, x, (name ++ more), ws, suf.
  split.
  { assert (A1 : advanced st
                   {| m_pos := S (m_pos st); m_prev := Some x; m_rest := r;
                      m_groups := m_groups st |} [x]).
    { unfold advanced. simpl. repeat split; [assumption | lia]. }
    pose proof (advanced_trans A1 (advanced_trans A2
                 (advanced_trans A3 (advanced_trans A4 A5)))) as A.
    replace ((x :: name ++ more) ++ ws ++ suf)
      with ([x] ++ name ++ more ++ ws ++ suf)
      by (simpl; now rewrite <- app_assoc).
    exact A. }
  split; [reflexivity|]. split; [exact Hup|].
  split; [destruct ws; [simpl in L4; lia | discriminate]|].
  split; [erewrite forallb_pointwise; [exact F4|];
          intros c; simpl; now rewrite orb_false_r|].
  split; [exact Hsuf|]. split; [|exact W2].
  rewrite Hr in W1. cbn [hd_error wordish] in W1.
  rewrite (upper_isword _ Hup) in W1.
  destruct (wordish U (m_prev st)); [discriminate | reflexivity].
Qed.

End Companies.

(** X9. Every company name that the extractor returns stands in the text;
    it is made of a part that starts with an upper-case Basic Latin
    letter, white space and one of the listed endings; no word character
    stands before it, and it ends at a word boundary: of its last
    character and the character after it, exactly one is a word
    character. So a name with an ending in a period is found only when a
    word character follows the period. *)
Theorem company_names (U : UnicodeData) (text c : pystr) :
  In c (companies_of U text) ->
  exists pre post x name ws suf,
    text = pre ++ c ++ post
    /\ c = (x :: name) ++ ws ++ suf
    /\ upper x = true
    /\ ws <> [] /\ forallb isspace ws = true
    /\ In suf COMPANY_SUFFIXES
    /\ wordish U (last_char None pre) = false
    /\ xorb (wordish U (last_char None c)) (wordish U (hd_error post)) = true.
Proof.
  unfold companies_of. intros Hc.
  apply (proj1 (proj2 (sorted_set_spec _) c)) in Hc. apply in_flat_map in Hc.
  destruct Hc as (m & Hm & Hc).
  destruct (group m 1) as [g|] eqn:Hg; [|destruct Hc].
  destruct Hc as [<-|[]].
  destruct (@re_finditer_inv U _ _ _ Hm)
    as (adv & pre & mid & post & st' & Hs & Hh & -> & Hpos & Hrest & Hprev).
  destruct (@company_inv U _ _ _ Hh)
    as (st_e & x & name & ws & suf & (R & P & V) & -> & Hx & Hws & Fws & Hsuf & W1 & W2).
  cbn [m_rest m_pos m_prev set_group] in *.
  set (body := (x :: name) ++ ws ++ suf) in *.
  assert (Hmid : mid = body).
  { rewrite Hrest in R. now apply app_inv_tail in R. }
  subst mid.
  assert (Hgrp : g = body).
  { unfold group, mk_match in Hg. cbn [mo_groups mo_subject snd m_groups set_group
      lookup_group Nat.eqb] in Hg. injection Hg as <-.
    rewrite P, Hs. apply slice_mid. }
  exists pre, post, x, name, ws, suf.
  split; [now rewrite Hgrp|]. split; [exact Hgrp|].
  split; [exact Hx|]. split; [exact Hws|]. split; [exact Fws|]. split; [exact Hsuf|].
  split; [exact W1|].
  rewrite Hgrp, Hrest in *. rewrite V in W2.
  rewrite last_char_nonempty in W2 by (unfold body; discriminate). exact W2.
Qed.

Lemma company_names_witness :
  In (u "Acme Robotics Group") (companies_of cjk_tables text_companies_plain)
  /\ exists pre post x name ws suf,
       text_companies_plain = pre ++ u "Acme Robotics Group" ++ post
       /\ u "Acme Robotics Group" = (x :: name) ++ ws ++ suf
       /\ upper x = true
       /\ ws <> [] /\ forallb isspace ws = true
       /\ In suf COMPANY_SUFFIXES
       /\ wordish cjk_tables (last_char None pre) = false
       /\ xorb (wordish cjk_tables (last_char None (u "Acme Robotics Group")))
               (wordish cjk_tables (hd_error post)) = true.
Proof.
  assert (H : In (u "Acme Robotics Group")
                (companies_of cjk_tables text_companies_plain))
    by (vm_compute; left; reflexivity).
  split; [exact H|].
  exact (@company_names cjk_tables text_companies_plain (u "Acme Robotics Group") H).
Defined.

(** ** File numbers *)

Section FileId.

Variable U : UnicodeData.

(** A quantifier over a one-character class with an upper bound reads no
    more than the bound. *)
Lemma rep_eat_inv_bound (P : char -> bool) (lo : nat) (greedy : bool)
  (k : mstate -> option mstate) :
  forall fuel count st m,
    rep_loop (eat P) lo greedy k fuel count st = Some m ->
    exists st' pre,
      k st' = Some m /\ advanced st st' pre
      /\ forallb P pre = true
      /\ (lo <= count + List.length pre)%nat
      /\ (List.length pre <= fuel)%nat
      /\ m_groups st' = m_groups st.
Proof.
  induction fuel as [|fuel IH]; intros count st m; cbn [rep_loop].
  - destruct (Nat.leb_spec lo count) as [Hle|Hlt]; [|discriminate].
    intros H. exists st, []. split; [exact H|]. split; [apply advanced_refl|].
    split; [reflexivity|]. split; [simpl; lia|]. split; [simpl; lia | reflexivity].
  - assert (Hagain : forall m0,
      eat P st (fun st' =>
               if Nat.leb lo count && Nat.eqb (m_pos st') (m_pos st) then None
               else rep_loop (eat P) lo greedy k fuel (S count) st') = Some m0 ->
      exists st' pre, k st' = Some m0 /\ advanced st st' pre
        /\ forallb P pre = true /\ (lo <= count + List.length pre)%nat
        /\ (List.length pre <= S fuel)%nat
        /\ m_groups st' = m_groups st).
    { intros m0 H. destruct (@eat_inv _ _ _ _ H) as (c & r & Hr & Hc & H1).
      destruct (Nat.leb lo count && Nat.eqb _ _); [discriminate|].
      destruct (IH _ _ _ H1) as (st2 & p2 & H2 & A2 & F2 & L2 & B2 & G2).
      exists st2, (c :: p2). split; [exact H2|]. split.
      { change (c :: p2) with ([c] ++ p2).
        eapply advanced_trans; [|exact A2].
        unfold advanced. simpl. repeat split; [assumption | lia]. }
      split; [simpl; now rewrite Hc, F2|].
      split; [simpl; lia|]. split; [simpl; lia | exact G2]. }
    assert (Hstop : forall m0,
      (if Nat.leb lo count then k st else None) = Some m0 ->
      exists st' pre, k st' = Some m0 /\ advanced st st' pre
        /\ forallb P pre = true /\ (lo <= count + List.length pre)%nat
        /\ (List.length pre <= S fuel)%nat
        /\ m_groups st' = m_groups st).
    { intros m0 H. destruct (Nat.leb_spec lo count) as [Hle|Hlt]; [|discriminate].
      exists st, []. split; [exact H|]. split; [apply advanced_refl|].
      split; [reflexivity|]. split; [simpl; lia|]. split; [simpl; lia | reflexivity]. }
    destruct greedy.
    + match goal with
      | |- match ?x with _ => _ end = _ -> _ => destruct x as [m1|] eqn:E
      end.
      * intros H; injection H as <-. now apply Hagain.
      * apply Hstop.
    + match goal with
      | |- match ?x with _ => _ end = _ -> _ => destruct x as [m1|] eqn:E
      end.
      * intros H; injection H as <-. now apply Hstop.
      * apply Hagain.
Qed.

Lemma FILE_ID_PATTERN_eq :
  FILE_ID_PATTERN =
  Seq Wordb
    (Seq (Rep 2 (Some 10%nat) true (CSet [AZ]))
       (Seq (Rep 8 None true (CSet [IDigit]))
          (Seq (Rep 3 None true (CSet [AZ; az; d09])) Wordb))).
Proof. reflexivity. Qed.

(** What [FILE_ID_PATTERN] reads. *)
Lemma file_id_inv (st : mstate) (k : mstate -> option mstate) (m : mstate) :
  rmatch U FILE_ID_PATTERN st k = Some m ->
  exists st' a b c,
    k st' = Some m /\ advanced st st' (a ++ b ++ c)
    /\ m_groups st' = m_groups st /\ file_id_parts U a b c.
Proof.
  rewrite FILE_ID_PATTERN_eq. intros E.
  rewrite rmatch_Seq, rmatch_Wordb in E.
  destruct (xorb _ _); [|discriminate].
  rewrite rmatch_Seq, rmatch_rep_cset in E. apply rep_eat_inv_bound in E.
  destruct E as (s1 & a & E & A1 & F1 & L1 & B1 & G1). cbv beta in E.
  rewrite rmatch_Seq, rmatch_rep_cset in E. apply rep_eat_inv in E.
  destruct E as (s2 & b & E & A2 & F2 & L2 & G2). cbv beta in E.
  rewrite rmatch_Seq, rmatch_rep_cset in E. apply rep_eat_inv in E.
  destruct E as (s3 & c & E & A3 & F3 & L3 & G3). cbv beta in E.
  rewrite rmatch_Wordb in E. destruct (xorb _ _); [|discriminate].
  exists s3, a, b, c. split; [exact E|].
  split; [exact (advanced_trans A1 (advanced_trans A2 A3))|].
  split; [congruence|].
  split; [simpl in L1; lia|].
  split; [erewrite forallb_pointwise; [exact F1|];
          intros x; unfold upper; simpl; now rewrite orb_false_r|].
  split; [simpl in L2; lia|].
  split; [erewrite forallb_pointwise; [exact F2|];
          intros x; simpl; now rewrite orb_false_r|].
  split; [simpl in L3; lia|].
  erewrite forallb_pointwise; [exact F3|].
  intros x. unfold file_id_char, upper. simpl.
  now rewrite orb_false_r, orb_assoc.
Qed.

Lemma re_file_near_eq :
  re_file_near =
  Seq (lits (u "文件"))
    (Seq (Rep 0 (Some 15%nat) true (NSet [IDigit])) (Grp 1 FILE_ID_PATTERN)).
Proof. reflexivity. Qed.

Lemma last_In {A} (l : list A) (d : A) : l <> [] -> In (last l d) l.
Proof.
  induction l as [|x l IH]; [congruence|]. intros _.
  destruct l as [|y l']; [now left|].
  right. apply IH. discriminate.
Qed.

End FileId.

(** The file number found near the mark [文件]. *)
Lemma file_id_near (U : UnicodeData) (text : pystr) (m : rmatch_obj)
  (g : pystr) :
  re_search U re_file_near text = Some m -> group m 1 = Some g ->
  exists pre post a b c,
    text = pre ++ g ++ post /\ g = a ++ b ++ c /\ file_id_parts U a b c.
Proof.
  intros E Hg.
  destruct (@re_search_inv U _ _ _ E)
    as (adv & pre & mid & post & st' & Hs & Hh & -> & Hpos & Hrest).
  unfold match_here in Hh. rewrite re_file_near_eq in Hh.
  rewrite rmatch_Seq in Hh. apply rmatch_lits in Hh.
  destruct Hh as (s1 & Hh & (R1 & P1 & _) & _). cbv beta in Hh.
  rewrite rmatch_Seq, rmatch_rep_nset in Hh. apply rep_eat_inv in Hh.
  destruct Hh as (s2 & gap & Hh & (R2 & P2 & _) & _). cbv beta in Hh.
  rewrite rmatch_Grp in Hh. apply file_id_inv in Hh.
  destruct Hh as (s3 & a & b & c & Hh & (R3 & P3 & _) & G3 & Hparts).
  destruct (adv && _); [discriminate|]. injection Hh as <-.
  cbn [m_rest m_pos] in R1, P1.
  assert (Htext : text = (pre ++ u "文件" ++ gap) ++ (a ++ b ++ c) ++ m_rest s3).
  { rewrite Hs, R1, R2, R3, <- !app_assoc. reflexivity. }
  assert (Hg' : g = a ++ b ++ c).
  { unfold group, mk_match in Hg.
    cbn [mo_groups mo_subject snd m_groups set_group lookup_group Nat.eqb] in Hg.
    injection Hg as <-. rewrite Htext at 1.
    replace (m_pos s2) with (List.length (pre ++ u "文件" ++ gap))
      by (rewrite !length_app; lia).
    replace (m_pos s3)
      with (List.length (pre ++ u "文件" ++ gap) + List.length (a ++ b ++ c))%nat
      by (rewrite !length_app in *; lia).
    apply slice_mid. }
  exists (pre ++ u "文件" ++ gap), (m_rest s3), a, b, c.
  rewrite Hg'. auto.
Qed.

(** Every file number that [findall] lists. *)
Lemma file_id_any (U : UnicodeData) (text id : pystr) :
  In id (re_findall U FILE_ID_PATTERN text) ->
  exists pre post a b c,
    text = pre ++ id ++ post /\ id = a ++ b ++ c /\ file_id_parts U a b c.
Proof.
  intros Hin. unfold re_findall in Hin. apply in_map_iff in Hin.
  destruct Hin as (m & Hid & Hm).
  destruct (@re_finditer_inv U _ _ _ Hm)
    as (adv & pre & mid & post & st' & Hs & Hh & -> & Hpos & Hrest & _).
  unfold match_here in Hh. apply file_id_inv in Hh.
  destruct Hh as (s3 & a & b & c & Hh & (R3 & P3 & _) & G3 & Hparts).
  destruct (adv && _); [discriminate|]. injection Hh as <-.
  cbn [m_rest m_pos] in R3, P3.
  assert (Hmid : mid = a ++ b ++ c).
  { rewrite Hrest in R3. now apply app_inv_tail in R3. }
  assert (Hid' : id = mid).
  { rewrite <- Hid. unfold mk_match. cbn [mo_start mo_end fst snd].
    rewrite Hpos, Hs. apply slice_mid. }
  exists pre, post, a, b, c. rewrite Hid', <- Hmid. auto.
Qed.

(** X10. The file number of a body is empty, or it is a part of the body
    made of two to ten upper-case Basic Latin letters, at least eight
    decimal digits and at least three Basic Latin letters or digits: a
    string of at least thirteen characters. *)
Theorem extract_file_id_shape (U : UnicodeData) (text : pystr) :
  extract_file_id U text = []
  \/ exists pre post a b c,
       text = pre ++ extract_file_id U text ++ post
       /\ extract_file_id U text = a ++ b ++ c
       /\ file_id_parts U a b c.
Proof.
  unfold extract_file_id.
  destruct (re_search U re_file_near text) as [m|] eqn:E.
  - destruct (group m 1) as [g|] eqn:Hg; [|now left]. right.
    exact (@file_id_near U text m g E Hg).
  - destruct (re_findall U FILE_ID_PATTERN text) as [|x l] eqn:Hall; [now left|].
    right. rewrite <- Hall. apply file_id_any.
    apply last_In. rewrite Hall. discriminate.
Qed.

(** ** Keywords *)

Section Keywords.

Variable U : UnicodeData.

Lemma rmatch_rep_dot (lo : nat) (hi : option nat) (greedy : bool)
  (st : mstate) (k : mstate -> option mstate) :
  rmatch U (Rep lo hi greedy Dot) st k =
  rep_loop (eat (fun x => negb (x =? LF)%N)) lo greedy k
    (match hi with
     | Some h => h
     | None => (lo + List.length (m_rest st))%nat
     end) 0 st.
Proof. reflexivity. Qed.

Lemma re_keywords_eq :
  re_keywords =
  Seq (lits KEYWORDS_LABEL)
    (Seq (Rep 0 None true (CSet [ISpace])) (Grp 1 (Rep 1 None true Dot))).
Proof.
  unfold re_keywords, KEYWORDS_LABEL, Star, Plus, Space. cbn [seqs]. reflexivity.
Qed.

(** Where the keywords of a body are read: after the label and white
    space, on one line. *)
Lemma keywords_inv (label body : pystr) (m : rmatch_obj) :
  re_search U
    (Seq (lits label)
       (Seq (Rep 0 None true (CSet [ISpace])) (Grp 1 (Rep 1 None true Dot))))
    body = Some m ->
  exists pre ws g post,
    body = pre ++ label ++ ws ++ g ++ post
    /\ forallb isspace ws = true
    /\ g <> [] /\ ~ In LF g
    /\ group m 1 = Some g.
Proof.
  intros E.
  destruct (@re_search_inv U _ _ _ E)
    as (adv & pre & mid & post & st' & Hs & Hh & -> & Hpos & Hrest).
  unfold match_here in Hh.
  rewrite rmatch_Seq in Hh. apply rmatch_lits in Hh.
  destruct Hh as (s1 & Hh & (R1 & P1 & _) & _). cbv beta in Hh.
  rewrite rmatch_Seq, rmatch_rep_cset in Hh. apply rep_eat_inv in Hh.
  destruct Hh as (s2 & ws & Hh & (R2 & P2 & _) & F2 & _ & _). cbv beta in Hh.
  rewrite rmatch_Grp, rmatch_rep_dot in Hh. apply rep_eat_inv in Hh.
  destruct Hh as (s3 & g & Hh & (R3 & P3 & _) & F3 & L3 & _).
  destruct (adv && _); [discriminate|]. injection Hh as <-.
  cbn [m_rest m_pos] in R1, P1.
  assert (Hbody : body = (pre ++ label ++ ws) ++ g ++ m_rest s3).
  { rewrite Hs, R1, R2, R3, <- !app_assoc. reflexivity. }
  exists pre, ws, g, (m_rest s3).
  split; [rewrite Hbody, <- !app_assoc; reflexivity|].
  split; [erewrite forallb_pointwise; [exact F2|];
          intros x; simpl; now rewrite orb_false_r|].
  split; [destruct g; [simpl in L3; lia | discriminate]|].
  split.
  - intros Hin. rewrite forallb_forall in F3. specialize (F3 LF Hin). discriminate.
  - unfold group, mk_match.
    cbn [mo_groups mo_subject snd m_groups set_group lookup_group Nat.eqb].
    f_equal. rewrite Hbody at 1.
    replace (m_pos s2) with (List.length (pre ++ label ++ ws))
      by (rewrite !length_app; lia).
    replace (m_pos s3)
      with (List.length (pre ++ label ++ ws) + List.length g)%nat
      by (rewrite !length_app in *; lia).
    apply slice_mid.
Qed.

Lemma rstrip_dots_incl (s : pystr) (x : char) :
  In x (rstrip_dots s) -> In x s.
Proof.
  unfold rstrip_dots. intros H. apply in_rev in H.
  destruct (dropwhile_suffix (N.eqb (uc ".")) (rev s)) as (p & Hp & _).
  apply in_rev. rewrite Hp. apply in_or_app. now right.
Qed.

Lemma rstrip_dots_last (s t : pystr) : rstrip_dots s <> t ++ [uc "."].
Proof.
  unfold rstrip_dots. intros H. apply (f_equal (@rev char)) in H.
  rewrite rev_involutive, rev_app_distr in H. simpl in H.
  apply dropwhile_head in H. now rewrite N.eqb_refl in H.
Qed.

End Keywords.

(** X11. The keywords of a record hold no line feed and do not end with
    a period. When they are not empty, the body has the label, white
    space and a run [g] of characters of one line after it, and the
    keywords are [g] stripped, without its trailing periods. *)
Theorem keywords_one_line (U : UnicodeData) (text : pystr)
  (arts : list article) (a : article) :
  split_articles U text = Ok arts ->
  In a arts ->
  ~ In LF (a_keywords a)
  /\ (forall t, a_keywords a <> t ++ [uc "."])
  /\ (a_keywords a <> [] ->
      exists pre ws g post,
        a_body a = pre ++ KEYWORDS_LABEL ++ ws ++ g ++ post
        /\ forallb isspace ws = true
        /\ ~ In LF g
        /\ a_keywords a = rstrip_dots (strip g)).
Proof.
  intros Hs Ha. apply In_nth_error in Ha. destruct Ha as (i & Ha).
  destruct (@split_articles_inv U text arts Hs) as (ds & _ & _ & Hnth).
  rewrite Hnth in Ha. destruct (nth_error ds i) as [d|] eqn:Hd; [|discriminate].
  injection Ha as <-.
  unfold attach. cbn [a_keywords a_body].
  match goal with
  | |- context [re_search U re_keywords ?b] =>
      generalize b; intros body;
      destruct (re_search U re_keywords body) as [m|] eqn:Hm
  end.
  - rewrite re_keywords_eq in Hm.
    destruct (@keywords_inv U _ body m Hm)
      as (pre & ws & g & post & Hb & Fws & Hg & Hlf & Hgrp).
    rewrite Hgrp. split; [|split].
    + intros Hin. apply Hlf. now apply strip_incl, rstrip_dots_incl.
    + intros t. apply rstrip_dots_last.
    + intros _. exists pre, ws, g, post. auto.
  - split; [intros []|]. split; [intros [|? ?]; discriminate|].
    intros H. now contradiction H.
Qed.

Lemma keywords_one_line_witness :
  exists text arts a,
    split_articles cjk_tables text = Ok arts
    /\ In a arts
    /\ a_keywords a = u "China, Oil"
    /\ ~ In LF (a_keywords a)
    /\ (forall t, a_keywords a <> t ++ [uc "."])
    /\ (a_keywords a <> [] ->
        exists pre ws g post,
          a_body a = pre ++ KEYWORDS_LABEL ++ ws ++ g ++ post
          /\ forallb isspace ws = true
          /\ ~ In LF g
          /\ a_keywords a = rstrip_dots (strip g)).
Proof.
  exists doc_keywords, keywords_articles.
  assert (Hs : split_articles cjk_tables doc_keywords = Ok keywords_articles)
    by (vm_compute; reflexivity).
  assert (Hin : exists a, In a keywords_articles /\ a_keywords a = u "China, Oil")
    by (eexists; split; [left; reflexivity | vm_compute; reflexivity]).
  destruct Hin as (a & Hin & Hk). exists a.
  split; [exact Hs|]. split; [exact Hin|]. split; [exact Hk|].
  exact (@keywords_one_line cjk_tables doc_keywords keywords_articles a Hs Hin).
Defined.

(** ** Records at the end of the document *)

Section NoBody.

Variable U : UnicodeData.

Lemma body_sanitize_nil : body_sanitize U [] = [].
Proof. reflexivity. Qed.

Lemma re_keywords_nil : re_search U re_keywords [] = None.
Proof. reflexivity. Qed.

Lemma re_byline_nil : re_search U re_byline [] = None.
Proof. reflexivity. Qed.

Lemma extract_file_id_nil : extract_file_id U [] = [].
Proof. reflexivity. Qed.

End NoBody.

(** X12. A record whose anchor is not followed by a body line (the
    document ends, or only blank lines are left) has no body start; its
    body, its keywords, its file number and its author are then empty. *)
Theorem record_without_body (U : UnicodeData) (text : pystr)
  (arts : list article) (a : article) :
  split_articles U text = Ok arts ->
  In a arts ->
  a_body_start_idx a = None ->
  a_body a = [] /\ a_keywords a = [] /\ a_file_no a = [] /\ a_author a = [].
Proof.
  intros Hs Ha. apply In_nth_error in Ha. destruct Ha as (i & Ha).
  destruct (@split_articles_inv U text arts Hs) as (ds & Hfp & _ & Hnth).
  rewrite Hnth in Ha. destruct (nth_error ds i) as [d|] eqn:Hd; [|discriminate].
  injection Ha as <-.
  pose proof (@first_pass_accepted U _ _ _ Hfp) as Hall.
  rewrite Forall_forall in Hall.
  destruct (Hall d (nth_error_In _ _ Hd)) as (w & _ & Hscan).
  pose proof (@scan_anchor_author _ _ _ _ Hscan) as Hauthor.
  unfold attach. cbn [a_body_start_idx a_body a_keywords a_file_no a_author].
  intros Hnone. rewrite Hnone, Hauthor, body_sanitize_nil.
  rewrite re_keywords_nil, re_byline_nil, extract_file_id_nil.
  auto.
Qed.

Lemma record_without_body_witness :
  exists a,
    split_articles cjk_tables doc_dashes = Ok dashes_articles
    /\ In a dashes_articles
    /\ a_body_start_idx a = None
    /\ a_body a = [] /\ a_keywords a = [] /\ a_file_no a = [] /\ a_author a = [].
Proof.
  assert (Hs : split_articles cjk_tables doc_dashes = Ok dashes_articles)
    by (vm_compute; reflexivity).
  assert (Hin : exists a, In a dashes_articles /\ a_body_start_idx a = None)
    by (eexists; split; [left; reflexivity | reflexivity]).
  destruct Hin as (a & Hin & Hnone). exists a.
  split; [exact Hs|]. split; [exact Hin|]. split; [exact Hnone|].
  exact (@record_without_body cjk_tables doc_dashes dashes_articles a Hs Hin Hnone).
Defined.

(** ** The language field *)

Section Language.

Variable U : UnicodeData.

Lemma detect_language_value (line : pystr) :
  language_value (detect_language U line).
Proof.
  unfold detect_language, language_value. cbv zeta.
  destruct (_ || _ || _); [right; left; reflexivity|].
  destruct (_ || _ || _); [right; right; reflexivity | left; reflexivity].
Qed.

Lemma lang_scan_value (n : nat) (lines : list pystr) (q : nat) :
  language_value (fst (lang_scan U n lines q)).
Proof.
  revert q. induction n as [|n IH]; intros q; cbn [lang_scan].
  - now left.
  - destruct (nth_error lines q) as [l|]; [|now left]. cbv zeta.
    destruct (nonempty (detect_language U l)); [apply detect_language_value | apply IH].
Qed.

End Language.

(** X13. The language of a record is the empty string, [英文] or [中文],
    whatever the lines after the anchor hold. *)
Theorem language_values (U : UnicodeData) (text : pystr)
  (arts : list article) (a : article) :
  split_articles U text = Ok arts ->
  In a arts ->
  language_value (a_language a).
Proof.
  intros Hs Ha. apply In_nth_error in Ha. destruct Ha as (i & Ha).
  destruct (@split_articles_entry U _ _ _ _ Hs Ha)
    as (ds & d & wc_i & j & p & dt & _ & _ & -> & _ & A).
  unfold attach. cbn [a_language]. rewrite (acc_d_lang A).
  apply lang_scan_value.
Qed.

Lemma language_values_witness :
  exists a,
    split_articles cjk_tables doc_sample = Ok sample_articles
    /\ In a sample_articles
    /\ a_language a = u "英文"
    /\ language_value (a_language a).
Proof.
  assert (Hs : split_articles cjk_tables doc_sample = Ok sample_articles)
    by (vm_compute; reflexivity).
  assert (Hin : exists a, In a sample_articles /\ a_language a = u "英文")
    by (eexists; split; [left; reflexivity | vm_compute; reflexivity]).
  destruct Hin as (a & Hin & Hl). exists a.
  split; [exact Hs|]. split; [exact Hin|]. split; [exact Hl|].
  exact (@language_values cjk_tables doc_sample sample_articles a Hs Hin).
Defined.

Lemma author_only_from_byline_witness :
  exists a,
    split_articles cjk_tables doc_byline = Ok byline_articles
    /\ In a byline_articles
    /\ a_author a = u "Jane Doe"
    /\ (a_author a = []
        \/ exists m g, re_search cjk_tables re_byline (a_body a) = Some m
                       /\ group m 1 = Some g /\ a_author a = strip g).
Proof.
  assert (Hs : split_articles cjk_tables doc_byline = Ok byline_articles)
    by (vm_compute; reflexivity).
  assert (Hin : exists a, In a byline_articles /\ a_author a = u "Jane Doe")
    by (eexists; split; [left; reflexivity | vm_compute; reflexivity]).
  destruct Hin as (a & Hin & Hl). exists a.
  split; [exact Hs|]. split; [exact Hin|]. split; [exact Hl|].
  exact (@author_only_from_byline cjk_tables doc_byline byline_articles a Hs Hin).
Defined.

(** ** Runs of blank lines *)

Lemma blank_run_cons (x : char) (t : pystr) :
  blank_run t = true -> blank_run (x :: t) = true.
Proof.
  destruct t as [|b [|c t']]; simpl; try discriminate.
  intros ->. apply orb_true_r.
Qed.

Lemma blank_run_tail (x : char) (t : pystr) :
  blank_run (x :: t) = false -> blank_run t = false.
Proof.
  intros H. destruct (blank_run t) eqn:E; [|reflexivity].
  now rewrite (blank_run_cons x t E) in H.
Qed.

Lemma blank_run_unfold (a b c : char) (t : pystr) :
  blank_run (a :: b :: c :: t)
  = ((a =? LF) && (b =? LF) && (c =? LF))%N || blank_run (b :: c :: t).
Proof. reflexivity. Qed.

(** [blank_run] finds every run of three line feeds. *)
Lemma blank_run_spec (s : pystr) :
  blank_run s = false -> forall a b, s <> a ++ [LF; LF; LF] ++ b.
Proof.
  intros H a b ->. revert H. induction a as [|x a IH]; simpl app.
  - rewrite blank_run_unfold. discriminate.
  - intros H. apply blank_run_tail in H. now apply IH.
Qed.

Lemma blank_run_app_head (x y : pystr) :
  blank_run x = false -> blank_run y = false -> hd_error y <> Some LF ->
  blank_run (x ++ y) = false.
Proof.
  intros Hx Hy Hhd. induction x as [|a x IH]; [exact Hy|].
  specialize (IH (blank_run_tail _ _ Hx)).
  destruct x as [|b [|c x3]].
  - simpl app in *. destruct y as [|y0 [|y1 y2]]; try reflexivity.
    rewrite blank_run_unfold, IH.
    destruct (N.eqb_spec y0 LF) as [->|]; [now contradiction Hhd|].
    now rewrite andb_false_r.
  - simpl app in *. destruct y as [|y0 y1]; [reflexivity|].
    rewrite blank_run_unfold, IH.
    destruct (N.eqb_spec y0 LF) as [->|]; [now contradiction Hhd|].
    now rewrite andb_false_r.
  - simpl app in *. rewrite blank_run_unfold in *. rewrite IH.
    apply orb_false_iff in Hx as (Hx & _). now rewrite Hx.
Qed.

Lemma blank_run_app_last (x y : pystr) :
  blank_run x = false -> last_char None x <> Some LF -> blank_run y = false ->
  blank_run (x ++ y) = false.
Proof.
  intros Hx Hl Hy. induction x as [|a x IH]; [exact Hy|].
  destruct x as [|b [|c x3]].
  - simpl app. unfold last_char in Hl. simpl in Hl.
    destruct y as [|y0 [|y1 y2]]; try reflexivity.
    rewrite blank_run_unfold, Hy.
    destruct (N.eqb_spec a LF) as [->|]; [now contradiction Hl | reflexivity].
  - assert (IH' : blank_run ([b] ++ y) = false).
    { apply IH; [reflexivity|]. rewrite <- (last_char_nonempty (Some a)); [exact Hl|].
      discriminate. }
    simpl app in *. unfold last_char in Hl. simpl in Hl.
    destruct y as [|y0 y1]; [reflexivity|].
    rewrite blank_run_unfold, IH'.
    destruct (N.eqb_spec b LF) as [->|]; [now contradiction Hl|].
    now rewrite andb_false_r, andb_false_l.
  - assert (IH' : blank_run ((b :: c :: x3) ++ y) = false).
    { apply IH; [exact (blank_run_tail _ _ Hx)|].
      rewrite <- (last_char_nonempty (Some a)); [exact Hl | discriminate]. }
    simpl app in *. rewrite blank_run_unfold in *. rewrite IH'.
    apply orb_false_iff in Hx as (Hx & _). now rewrite Hx.
Qed.

Section BlankRuns.

Variable U : UnicodeData.

Local Ltac clia := unfold char in *; lia.

Lemma match_blank (st : mstate) :
  match_here U re_blank_runs false st =
  rep_loop (eat (fun x => (x =? LF)%N)) 3 true (fun st' => Some st')
    (3 + List.length (m_rest st)) 0 st.
Proof. reflexivity. Qed.

(** A run shorter than three does not start with three line feeds. *)
Lemma run_window (rest : pystr) :
  (List.length rest
   - List.length (dropwhile (fun x => (x =? LF)%N) rest) < 3)%nat ->
  match rest with
  | a :: b :: c :: _ => ((a =? LF) && (b =? LF) && (c =? LF))%N = false
  | _ => True
  end.
Proof.
  destruct rest as [|a [|b [|c t]]]; try exact (fun _ => I).
  cbn [dropwhile].
  destruct (a =? LF)%N; [|intros _; reflexivity].
  destruct (b =? LF)%N; [|intros _; reflexivity].
  destruct (c =? LF)%N; [|intros _; reflexivity].
  pose proof (dropwhile_length (fun x => (x =? LF)%N) t).
  cbn [List.length]. intros Hlt. unfold char in *. lia.
Qed.

(** The search for a run of three or more line feeds: what it skips has
    no such run and does not end with a line feed; what it finds is
    followed by another character, or by nothing. *)
Lemma blank_search :
  forall rest pos prev,
    match search_from U re_blank_runs false pos prev rest with
    | None => blank_run rest = false
    | Some (b, st') =>
        exists pre run,
          rest = pre ++ run ++ m_rest st'
          /\ b = (pos + List.length pre)%nat
          /\ forallb (fun x => (x =? LF)%N) run = true
          /\ (3 <= List.length run)%nat
          /\ m_pos st' = (b + List.length run)%nat
          /\ hd_error (m_rest st') <> Some LF
          /\ blank_run pre = false
          /\ last_char None pre <> Some LF
    end.
Proof.
  induction rest as [|c t IH]; intros pos prev; cbn [search_from];
    rewrite match_blank; cbn [m_rest];
    match goal with
    | |- context [rep_loop ?a ?b ?c0 ?d ?e ?f ?g] =>
        pose proof (@rep_eat_max (fun x => (x =? LF)%N) 3 e f g
                      ltac:(cbn [m_rest List.length]; clia)) as Hmax;
        destruct (rep_loop a b c0 d e f g) as [st'|]
    end; cbn [m_rest m_pos m_groups] in Hmax.
  - destruct Hmax as (_ & _ & H3 & _). simpl in H3. clia.
  - reflexivity.
  - destruct Hmax as (H1 & H2 & H3 & _).
    destruct (dropwhile_suffix (fun x => (x =? LF)%N) (c :: t)) as (run & Hrun & Frun).
    exists [], run.
    assert (Hrun' : c :: t = run ++ m_rest st') by (rewrite H1; exact Hrun).
    assert (Hlen : List.length (c :: t)
                   = (List.length run + List.length (m_rest st'))%nat)
      by (rewrite Hrun' at 1; apply length_app).
    split; [exact Hrun'|]. split; [simpl; clia|]. split; [exact Frun|].
    split; [clia|]. split; [simpl; clia|].
    split; [|split; [reflexivity | discriminate]].
    rewrite H1. destruct (dropwhile _ (c :: t)) as [|x d] eqn:E; [discriminate|].
    apply dropwhile_head in E. intros Hx. injection Hx as ->. discriminate.
  - pose proof (run_window (c :: t) Hmax) as Hwin.
    specialize (IH (S pos) (Some c)).
    destruct (search_from U re_blank_runs false (S pos) (Some c) t)
      as [[b st']|].
    + destruct IH as (pre & run & Ht & Hb & Frun & Lrun & Hpos & Hhd & Hpre & Hlast).
      exists (c :: pre), run.
      split; [simpl; now rewrite <- Ht|]. split; [simpl; clia|].
      split; [exact Frun|]. split; [exact Lrun|]. split; [exact Hpos|].
      split; [exact Hhd|].
      destruct pre as [|p0 pre'].
      * split; [reflexivity|].
        unfold last_char. simpl. intros Hc. injection Hc as ->.
        simpl in Ht. rewrite Ht in Hwin.
        destruct run as [|r0 [|r1 run']]; try (simpl in Lrun; clia).
        simpl in Frun. apply andb_true_iff in Frun as (F0 & Frun).
        apply andb_true_iff in Frun as (F1 & _).
        simpl in Hwin. rewrite F0, F1 in Hwin. discriminate.
      * split.
        -- destruct pre' as [|p1 pre'']; [reflexivity|].
           rewrite blank_run_unfold, Hpre.
           rewrite Ht in Hwin. simpl in Hwin. now rewrite Hwin.
        -- rewrite <- (last_char_nonempty (Some c)) in Hlast by discriminate.
           exact Hlast.
    + destruct t as [|b0 [|c0 t']]; try reflexivity.
      rewrite blank_run_unfold, IH. now rewrite Hwin.
Qed.

Lemma skipn_app_length {A} (a b : list A) : skipn (List.length a) (a ++ b) = b.
Proof. rewrite skipn_app, skipn_all, Nat.sub_diag. reflexivity. Qed.

(** The text after the substitution, from any point of the scan on. *)
Lemma blank_loop (s : pystr) :
  forall fuel prev rest done,
    s = done ++ rest -> (List.length rest < fuel)%nat ->
    let out := sub_pieces s (const_repl [LF; LF]) (List.length done)
                 (matches_loop U fuel re_blank_runs s false
                    (List.length done) prev rest) in
    blank_run out = false
    /\ (hd_error rest <> Some LF -> hd_error out <> Some LF).
Proof.
  induction fuel as [|fuel IH]; intros prev rest done Hs Hfuel; [clia|].
  cbv zeta. cbn [matches_loop].
  pose proof (blank_search rest (List.length done) prev) as Hsearch.
  destruct (search_from U re_blank_runs false (List.length done) prev rest)
    as [[b st']|].
  - destruct Hsearch as (pre & run & Hr & Hb & Frun & Lrun & Hpos & Hhd & Hpre & Hlast).
    replace (Nat.eqb (m_pos st') b) with false
      by (symmetry; apply Nat.eqb_neq; clia).
    cbn [sub_pieces mk_match mo_start mo_end fst snd const_repl].
    assert (Hs' : s = (done ++ pre ++ run) ++ m_rest st')
      by (rewrite Hs, Hr, <- !app_assoc; reflexivity).
    assert (Hpos' : m_pos st' = List.length (done ++ pre ++ run))
      by (rewrite !length_app; clia).
    assert (Hlen : (List.length (m_rest st') < fuel)%nat).
    { apply (f_equal (@List.length char)) in Hr. rewrite !length_app in Hr. clia. }
    destruct (IH (m_prev st') (m_rest st') (done ++ pre ++ run) Hs' Hlen)
      as (IH1 & IH2).
    cbv zeta in IH1, IH2. rewrite <- Hpos' in IH1, IH2. specialize (IH2 Hhd).
    assert (Hslice : slice s (List.length done) b = pre).
    { rewrite Hs, Hr, Hb. apply slice_mid. }
    rewrite Hslice.
    match goal with
    | |- context [sub_pieces ?a ?b ?c0 ?d] => set (out' := sub_pieces a b c0 d) in *
    end.
    assert (Hmid : blank_run ([LF; LF] ++ out') = false)
      by (apply blank_run_app_head; [reflexivity | exact IH1 | exact IH2]).
    split.
    + apply blank_run_app_last; assumption.
    + intros Hrest. destruct pre as [|p0 pre'].
      * exfalso. apply Hrest. rewrite Hr. simpl.
        destruct run as [|r0 run']; [simpl in Lrun; clia|].
        simpl in Frun. apply andb_true_iff in Frun as (F0 & _).
        apply N.eqb_eq in F0. now subst r0.
      * rewrite Hr in Hrest. exact Hrest.
  - cbn [sub_pieces]. rewrite Hs, skipn_app_length. split; [exact Hsearch | tauto].
Qed.

Lemma re_sub_blank_runs (s : pystr) :
  blank_run (re_sub U re_blank_runs (const_repl [LF; LF]) s) = false.
Proof.
  unfold re_sub, re_finditer.
  apply (@blank_loop s (2 * List.length s + 2) None s []); [reflexivity | clia].
Qed.

Lemma strip_part (s : pystr) : exists p q, s = p ++ strip s ++ q.
Proof.
  unfold strip. destruct (rstrip_prefix (lstrip s)) as (tl & Hl & _).
  destruct (dropwhile_suffix isspace s) as (pre & Hs & _).
  exists pre, tl. fold (lstrip s) in Hs. now rewrite <- Hl.
Qed.

End BlankRuns.

(** X14. Neither a sanitized body nor the text that leaves the noise
    filter has three line feeds in a row: blank lines never come in runs
    of two or more. *)
Theorem no_blank_runs (U : UnicodeData) (t : pystr) :
  (forall a b, body_sanitize U t <> a ++ [LF; LF; LF] ++ b)
  /\ (forall a b, clean_factiva_text U t <> a ++ [LF; LF; LF] ++ b).
Proof.
  split.
  - apply blank_run_spec. unfold body_sanitize. cbv zeta. apply re_sub_blank_runs.
  - intros a b H. unfold clean_factiva_text in H. cbv zeta in H.
    match type of H with
    | strip ?x = _ =>
        destruct (strip_part x) as (p & q & Hx);
        pose proof (@re_sub_blank_runs U (join [LF] (flat_map (clean_line U) (splitlines t)))) as Hb
    end.
    rewrite H in Hx.
    apply (@blank_run_spec _ Hb (p ++ a) (b ++ q)).
    rewrite Hx, <- !app_assoc. reflexivity.
Qed.

(** ** The word count of a record *)

(** X15. With decimal digits as Unicode has them, the word count of every
    record is a number that is not negative. *)
Theorem word_count_nonneg (U : UnicodeData) (text : pystr)
  (arts : list article) (a : article) :
  sane_digits U ->
  split_articles U text = Ok arts ->
  In a arts ->
  (0 <= a_word_count a)%Z.
Proof.
  intros Hsane Hs Ha. apply In_nth_error in Ha. destruct Ha as (i & Ha).
  destruct (@split_articles_entry U _ _ _ _ Hs Ha)
    as (ds & d & wc_i & j & p & dt & _ & _ & -> & Hanchor & A).
  unfold attach. cbn [a_word_count].
  pose proof (acc_count A) as Hc.
  destruct (@anchor_group U _ Hanchor)
    as (ws1 & g & ws2 & rest & _ & _ & Fg & _ & _ & Hwc).
  destruct (@count_digits U g Fg) as (Hdig & _).
  pose proof (@py_int_digits U Hsane _ Hdig) as Hint. rewrite Hwc in Hc.
  destruct (filter (fun x => negb (COMMA =? x)%N) g) as [|c t].
  - rewrite Hint in Hc. discriminate.
  - destruct Hint as (n & Hn & Hpos). rewrite Hn in Hc. now injection Hc as <-.
Qed.

Lemma word_count_nonneg_witness :
  exists a,
    sane_digits cjk_tables
    /\ split_articles cjk_tables doc_sample = Ok sample_articles
    /\ In a sample_articles
    /\ a_word_count a = 1234%Z
    /\ (0 <= a_word_count a)%Z.
Proof.
  assert (Hs : split_articles cjk_tables doc_sample = Ok sample_articles)
    by (vm_compute; reflexivity).
  assert (Hin : exists a, In a sample_articles /\ a_word_count a = 1234%Z)
    by (eexists; split; [left; reflexivity | vm_compute; reflexivity]).
  destruct Hin as (a & Hin & Hl). exists a.
  split; [exact sane_digits_cjk|]. split; [exact Hs|]. split; [exact Hin|].
  split; [exact Hl|].
  exact (@word_count_nonneg cjk_tables doc_sample sample_articles a
           sane_digits_cjk Hs Hin).
Defined.

(** ** Text without control sequences *)

Section Plain.

Variable U : UnicodeData.

(** A pattern that starts with a character is not found in a text
    without that character. *)
Lemma search_lit_absent (c : char) (r : regex) :
  forall rest adv pos prev,
    ~ In c rest -> search_from U (Seq (Lit c) r) adv pos prev rest = None.
Proof.
  induction rest as [|x rest IH]; intros adv pos prev Hin; cbn [search_from];
    unfold match_here; rewrite rmatch_Seq, rmatch_Lit; unfold eat; cbn [m_rest].
  - reflexivity.
  - destruct (N.eqb_spec x c) as [->|Hne]; [exfalso; apply Hin; now left|].
    apply IH. intros H. apply Hin. now right.
Qed.

Lemma re_sub_lit_absent (c : char) (r : regex) (repl : rmatch_obj -> pystr)
  (s : pystr) :
  ~ In c s -> re_sub U (Seq (Lit c) r) repl s = s.
Proof.
  intros Hin. unfold re_sub, re_finditer.
  replace (2 * List.length s + 2)%nat with (S (2 * List.length s + 1)) by lia.
  cbn [matches_loop]. rewrite search_lit_absent by exact Hin. reflexivity.
Qed.

Lemma replace_loop_absent (c : char) (old new : pystr) :
  forall fuel s, ~ In c s -> replace_loop fuel (c :: old) new s = s.
Proof.
  induction fuel as [|fuel IH]; intros s Hin; cbn [replace_loop]; [reflexivity|].
  destruct s as [|x t]; [reflexivity|]. cbn [strip_prefix].
  destruct (N.eqb_spec c x) as [->|Hne]; [exfalso; apply Hin; now left|].
  rewrite IH; [reflexivity|]. intros H. apply Hin. now right.
Qed.

Lemma str_replace_absent (c : char) (old new s : pystr) :
  ~ In c s -> str_replace (c :: old) new s = s.
Proof. intros H. unfold str_replace. now apply replace_loop_absent. Qed.

Lemma unix_newlines_keeps (c : char) (s : pystr) :
  c <> LF -> ~ In c s -> ~ In c (unix_newlines s).
Proof.
  intros Hc Hin H.
  assert (F : Forall (fun x => x <> c) (unix_newlines s)).
  { unfold unix_newlines.
    assert (Hlf : Forall (fun x => x <> c) [LF])
      by (constructor; [congruence | constructor]).
    apply Forall_str_replace; [exact Hlf|].
    apply Forall_str_replace; [exact Hlf|].
    apply Forall_forall. intros x Hx ->. now apply Hin. }
  rewrite Forall_forall in F. now apply (F c H).
Qed.

End Plain.

(** X16. In a text without a backslash the decoder finds no escape and no
    control sequence: it only turns the line ends into line feeds, drops
    the braces, squeezes the blank lines and the blanks before a line
    feed, and strips the result. *)
Theorem rtf_to_text_plain (U : UnicodeData) (rtf : pystr) :
  ~ In BACKSLASH rtf ->
  rtf_to_text U rtf
  = strip (squeeze_newlines U (drop_braces (unix_newlines rtf))).
Proof.
  intros Hin. unfold rtf_to_text. cbv zeta. fold (unix_newlines rtf).
  pose proof (@unix_newlines_keeps BACKSLASH rtf ltac:(discriminate) Hin) as H.
  change re_uni_escape
    with (Seq (Lit BACKSLASH)
            (Seq (Lit (uc "u"))
               (Seq (Grp 1 (Seq (Opt (Lit (uc "-"))) (Plus Digit)))
                  (Opt (Lit (uc "?")))))).
  rewrite (@re_sub_lit_absent U BACKSLASH _ _ (unix_newlines rtf) H).
  change re_hex_escape
    with (Seq (Lit BACKSLASH)
            (Seq (Lit (uc "'"))
               (Grp 1 (Rep 2 (Some 2%nat) true
                         (CSet [d09; IRange (uc "a") (uc "f");
                                IRange (uc "A") (uc "F")]))))).
  rewrite (@re_sub_lit_absent U BACKSLASH _ _ (unix_newlines rtf) H).
  rewrite !(@str_replace_absent BACKSLASH _ _ (unix_newlines rtf) H).
  change re_control_word
    with (Seq (Lit BACKSLASH)
            (Seq (Plus (CSet [az; AZ])) (Seq (Star Digit) (Opt (Lit SP))))).
  rewrite (@re_sub_lit_absent U BACKSLASH _ _ (unix_newlines rtf) H).
  unfold re_control_symbol. rewrite (@re_sub_lit_absent U BACKSLASH _ _ (unix_newlines rtf) H).
  reflexivity.
Qed.

Lemma rtf_to_text_plain_witness :
  ~ In BACKSLASH (u "{Plain}  text")
  /\ rtf_to_text cjk_tables (u "{Plain}  text") = u "Plain  text"
  /\ rtf_to_text cjk_tables (u "{Plain}  text")
     = strip (squeeze_newlines cjk_tables
                (drop_braces (unix_newlines (u "{Plain}  text")))).
Proof.
  assert (H : ~ In BACKSLASH (u "{Plain}  text")).
  { intros H. vm_compute in H. repeat (destruct H as [H|H]; [discriminate H|]).
    exact H. }
  split; [exact H|]. split; [vm_compute; reflexivity|].
  exact (@rtf_to_text_plain cjk_tables (u "{Plain}  text") H).
Defined.

(** ** Documents without anchors or dates *)

Lemma splitlines_aux_incl :
  forall n s cur l x,
    (List.length s <= n)%nat ->
    In l (splitlines_aux cur s) -> In x l -> In x cur \/ In x s.
Proof.
  induction n as [|n IH]; intros s cur l x Hn Hl Hx.
  - destruct s; [|simpl in Hn; lia]. simpl in Hl.
    destruct cur; [destruct Hl|]. destruct Hl as [<-|[]].
    left. now apply in_rev.
  - destruct s as [|c t].
    + simpl in Hl. destruct cur; [destruct Hl|]. destruct Hl as [<-|[]].
      left. now apply in_rev.
    + simpl in Hn. cbn [splitlines_aux] in Hl.
      assert (Hcur : l = rev cur -> In x cur \/ In x (c :: t))
        by (intros ->; left; now apply in_rev).
      assert (Htail : forall s', (List.length s' <= n)%nat ->
                (forall y, In y s' -> In y (c :: t)) ->
                In l (splitlines_aux [] s') -> In x cur \/ In x (c :: t)).
      { intros s' Hs' Hsub H. destruct (IH s' [] l x Hs' H Hx) as [[]|H'].
        right. now apply Hsub. }
      destruct (is_linebreak c).
      * destruct (c =? CR)%N.
        -- destruct t as [|d t'].
           ++ destruct Hl as [Hl|[]]. now apply Hcur.
           ++ destruct (d =? LF)%N; destruct Hl as [Hl|Hl];
                try (now apply Hcur).
              ** apply (Htail t'); [simpl in Hn; lia | | exact Hl].
                 intros y Hy. right. now right.
              ** apply (Htail (d :: t')); [lia | | exact Hl].
                 intros y Hy. now right.
        -- destruct Hl as [Hl|Hl]; [now apply Hcur|].
           apply (Htail t); [lia | | exact Hl]. intros y Hy. now right.
      * destruct (IH t (c :: cur) l x ltac:(lia) Hl Hx) as [[<-|H']|H'].
        -- right. now left.
        -- now left.
        -- right. now right.
Qed.

(** The characters of the lines come from the text. *)
Lemma lines_of_incl (text l : pystr) (x : char) :
  In l (lines_of text) -> In x l -> In x text.
Proof.
  unfold lines_of. intros Hl Hx. apply in_map_iff in Hl.
  destruct Hl as (l0 & <- & Hl0).
  destruct (rstrip_prefix l0) as (tl & Hl & _).
  assert (Hx0 : In x l0) by (rewrite Hl; apply in_or_app; now left).
  destruct (@splitlines_aux_incl (List.length text) text [] l0 x
              (le_n _) Hl0 Hx0) as [[]|H].
  exact H.
Qed.

Section NoRecords.

Variable U : UnicodeData.

Lemma first_pass_none (lines : list pystr) (idxs : list nat) :
  (forall w, In w idxs -> scan_anchor U lines w = Ok None) ->
  first_pass U lines idxs = Ok [].
Proof.
  induction idxs as [|w idxs IH]; intros H; cbn [first_pass]; [reflexivity|].
  rewrite (H w ltac:(now left)). cbn [bind].
  rewrite IH by (intros w0 Hw0; apply H; now right). reflexivity.
Qed.

Lemma anchor_has_marker (l : pystr) : is_anchor U l = true -> In ZI l.
Proof.
  unfold is_anchor. destruct (re_search U WORDCOUNT_RE l) as [m|] eqn:E; [|discriminate].
  intros _. destruct (@wordcount_inv U l m E) as (ws1 & g & ws2 & rest & -> & _).
  rewrite !in_app_iff. right. right. right. now left.
Qed.

Lemma no_marker_no_anchor (text : pystr) :
  ~ In ZI text -> anchor_indices U (lines_of text) = [].
Proof.
  intros Hz. unfold anchor_indices.
  apply filter_none. apply Forall_forall. intros i Hi. apply in_seq in Hi.
  destruct (is_anchor U (line_at (lines_of text) i)) eqn:E; [|reflexivity].
  exfalso. apply Hz. apply anchor_has_marker in E.
  apply (@lines_of_incl text (line_at (lines_of text) i) ZI); [|exact E].
  unfold line_at. apply nth_In. lia.
Qed.

Lemma no_day_mark_no_draft (text : pystr) (w : nat) :
  ~ In RI text -> scan_anchor U (lines_of text) w = Ok None.
Proof.
  intros Hr. unfold scan_anchor.
  destruct (scan_up (lines_of text) w) as [j|]; [|reflexivity].
  destruct (nth_error (lines_of text) (skip_blank (lines_of text) (w + 1)))
    as [l|] eqn:El; cbn [bind]; [|reflexivity].
  assert (Hl : ~ In RI l).
  { intros Hin. apply Hr.
    apply (@lines_of_incl text l RI); [|exact Hin].
    eapply nth_error_In, El. }
  unfold parse_factiva_date.
  destruct (re_search U re_date (strip l)) as [m|] eqn:E; [|reflexivity].
  exfalso. apply Hl, strip_incl.
  exact (@date_has_day_mark U _ _ E).
Qed.

End NoRecords.

(** X17. A text without the count marker has no anchor, and in a text
    without the day mark no anchor has a date: in both cases
    [split_articles] returns no record and raises nothing, whatever else
    the text holds. *)
Theorem no_marker_no_records (U : UnicodeData) (text : pystr) :
  ~ In ZI text \/ ~ In RI text -> split_articles U text = Ok [].
Proof.
  intros H. unfold split_articles. cbv zeta. fold (lines_of text).
  assert (Hfp : first_pass U (lines_of text) (anchor_indices U (lines_of text))
                = Ok []).
  { destruct H as [Hz|Hr].
    - now rewrite no_marker_no_anchor.
    - apply first_pass_none. intros w _. now apply no_day_mark_no_draft. }
  rewrite Hfp. reflexivity.
Qed.

Lemma no_marker_no_records_witness :
  (~ In ZI doc_plain \/ ~ In RI doc_plain)
  /\ split_articles cjk_tables doc_plain = Ok [].
Proof.
  assert (H : ~ In ZI doc_plain).
  { intros H. vm_compute in H. repeat (destruct H as [H|H]; [discriminate H|]).
    exact H. }
  split; [left; exact H|].
  exact (@no_marker_no_records cjk_tables doc_plain (or_introl H)).
Defined.

(** ** Fields of one line *)

Lemma splitlines_aux_no_lf :
  forall n s cur l,
    (List.length s <= n)%nat -> ~ In LF cur ->
    In l (splitlines_aux cur s) -> ~ In LF l.
Proof.
  induction n as [|n IH]; intros s cur l Hn Hcur Hl.
  - destruct s; [|simpl in Hn; lia]. simpl in Hl.
    destruct cur; [destruct Hl|]. destruct Hl as [<-|[]].
    intros H. now apply in_rev in H.
  - destruct s as [|c t].
    + simpl in Hl. destruct cur; [destruct Hl|]. destruct Hl as [<-|[]].
      intros H. now apply in_rev in H.
    + simpl in Hn. cbn [splitlines_aux] in Hl.
      assert (Hrev : l = rev cur -> ~ In LF l)
        by (intros -> H; now apply in_rev in H).
      assert (Htail : forall s', (List.length s' <= n)%nat ->
                In l (splitlines_aux [] s') -> ~ In LF l).
      { intros s' Hs' H. apply (IH s' [] l Hs'); [intros [] | exact H]. }
      destruct (is_linebreak c) eqn:Hb.
      * destruct (c =? CR)%N.
        -- destruct t as [|d t'].
           ++ destruct Hl as [Hl|[]]. now apply Hrev.
           ++ destruct (d =? LF)%N; destruct Hl as [Hl|Hl];
                try (now apply Hrev).
              ** apply (Htail t'); [simpl in Hn; lia | exact Hl].
              ** apply (Htail (d :: t')); [lia | exact Hl].
        -- destruct Hl as [Hl|Hl]; [now apply Hrev|].
           apply (Htail t); [lia | exact Hl].
      * apply (IH t (c :: cur) l); [lia | | exact Hl].
        intros [->|H]; [discriminate Hb | now apply Hcur].
Qed.

Lemma lines_of_no_lf (text l : pystr) : In l (lines_of text) -> ~ In LF l.
Proof.
  unfold lines_of. intros Hl Hx. apply in_map_iff in Hl.
  destruct Hl as (l0 & <- & Hl0).
  destruct (rstrip_prefix l0) as (tl & Hl & _).
  apply (@splitlines_aux_no_lf (List.length text) text [] l0 (le_n _)
           (fun H => H) Hl0).
  rewrite Hl. apply in_or_app. now left.
Qed.

Lemma line_at_no_lf (text : pystr) (i : nat) :
  ~ In LF (strip (line_at (lines_of text) i)).
Proof.
  intros H. apply strip_incl in H. unfold line_at in H.
  destruct (nth_in_or_default i (lines_of text) []) as [Hin|Hd].
  - exact (lines_of_no_lf _ _ Hin H).
  - rewrite Hd in H. destruct H.
Qed.

Lemma stripped_at_no_lf (text : pystr) (p : nat) :
  ~ In LF (stripped_at (lines_of text) p).
Proof.
  unfold stripped_at. destruct (nth_error (lines_of text) p) as [l|] eqn:E;
    [|intros []].
  intros H. apply strip_incl in H.
  exact (lines_of_no_lf _ _ (nth_error_In _ _ E) H).
Qed.

Lemma digit_char_no_lf (n : Z) : digit_char (n mod 10) <> LF.
Proof.
  pose proof (Z.mod_pos_bound n 10 ltac:(lia)) as Hd.
  unfold digit_char, LF. intros H.
  apply (f_equal Z.of_N) in H. rewrite Z2N.id in H by lia.
  change (Z.of_N 10) with 10%Z in H. lia.
Qed.

Lemma isoformat_no_lf (dt : datetime) : ~ In LF (isoformat dt).
Proof.
  unfold isoformat, pad4, pad2.
  change (u "-") with [45%N]. change (u " ") with [32%N].
  change (u ":") with [58%N]. change (u ":00") with [58%N; 48%N; 48%N].
  cbn [app]. intros H.
  repeat (destruct H as [H|H];
          [first [discriminate H | exact (digit_char_no_lf _ H)]|]).
  exact H.
Qed.

Section OneLine.

Variable U : UnicodeData.

Lemma file_id_no_lf (text : pystr) : ~ In LF (extract_file_id U text).
Proof.
  assert (Hshape : extract_file_id U text = []
                   \/ exists a b c, extract_file_id U text = a ++ b ++ c
                                    /\ file_id_parts U a b c).
  { unfold extract_file_id.
    destruct (re_search U re_file_near text) as [m|] eqn:E.
    - destruct (group m 1) as [g|] eqn:Hg; [|now left]. right.
      destruct (@file_id_near U text m g E Hg) as (_ & _ & a & b & c & _ & H).
      now exists a, b, c.
    - destruct (re_findall U FILE_ID_PATTERN text) as [|x l] eqn:Hall; [now left|].
      right. rewrite <- Hall.
      destruct (@file_id_any U text (last (re_findall U FILE_ID_PATTERN text) []))
        as (_ & _ & a & b & c & _ & H);
        [apply last_In; rewrite Hall; discriminate|].
      now exists a, b, c. }
  destruct Hshape as [->|(a & b & c & -> & Hp)]; [intros []|].
  destruct Hp as (_ & Fa & _ & Fb & _ & Fc).
  rewrite forallb_forall in Fa, Fb, Fc.
  intros H. rewrite !in_app_iff in H.
  destruct H as [H|[H|H]];
    [apply Fa in H | apply Fb in H | apply Fc in H]; discriminate H.
Qed.

(** The name after [-- By] is read on one line. *)
Lemma byline_inv (l1 l2 : pystr) (body : pystr) (m : rmatch_obj) (g : pystr) :
  re_search U
    (Seq (lits l1)
       (Seq (Rep 0 None true (CSet [ISpace]))
          (Seq (lits l2)
             (Seq (Rep 1 None true (CSet [ISpace]))
                (Grp 1 (Rep 1 None true (NSet [ICh (uc "-"); ICh LF])))))))
    body = Some m ->
  group m 1 = Some g -> ~ In LF g.
Proof.
  intros E Hg.
  destruct (@re_search_inv U _ _ _ E)
    as (adv & pre & mid & post & st' & Hs & Hh & -> & Hpos & Hrest).
  unfold match_here in Hh.
  rewrite rmatch_Seq in Hh. apply rmatch_lits in Hh.
  destruct Hh as (s1 & Hh & (R1 & P1 & _) & _). cbv beta in Hh.
  rewrite rmatch_Seq, rmatch_rep_cset in Hh. apply rep_eat_inv in Hh.
  destruct Hh as (s2 & ws & Hh & (R2 & P2 & _) & _). cbv beta in Hh.
  rewrite rmatch_Seq in Hh. apply rmatch_lits in Hh.
  destruct Hh as (s3 & Hh & (R3 & P3 & _) & _). cbv beta in Hh.
  rewrite rmatch_Seq, rmatch_rep_cset in Hh. apply rep_eat_inv in Hh.
  destruct Hh as (s4 & ws2 & Hh & (R4 & P4 & _) & _). cbv beta in Hh.
  rewrite rmatch_Grp, rmatch_rep_nset in Hh. apply rep_eat_inv in Hh.
  destruct Hh as (s5 & name & Hh & (R5 & P5 & _) & F5 & _ & _).
  destruct (adv && _); [discriminate|]. injection Hh as <-.
  cbn [m_rest m_pos] in R1, P1.
  assert (Hbody : body = (pre ++ l1 ++ ws ++ l2 ++ ws2) ++ name ++ m_rest s5).
  { rewrite Hs, R1, R2, R3, R4, R5, <- !app_assoc. reflexivity. }
  unfold group, mk_match in Hg.
  cbn [mo_groups mo_subject snd m_groups set_group lookup_group Nat.eqb] in Hg.
  injection Hg as <-. rewrite Hbody at 1.
  replace (m_pos s4) with (List.length (pre ++ l1 ++ ws ++ l2 ++ ws2))
    by (rewrite !length_app; lia).
  replace (m_pos s5)
    with (List.length (pre ++ l1 ++ ws ++ l2 ++ ws2) + List.length name)%nat
    by (rewrite !length_app in *; lia).
  rewrite slice_mid. intros Hin.
  rewrite forallb_forall in F5. specialize (F5 LF Hin).
  simpl in F5. discriminate F5.
Qed.

Lemma re_byline_eq :
  re_byline =
  Seq (lits (u "--"))
    (Seq (Rep 0 None true (CSet [ISpace]))
       (Seq (lits (u "By"))
          (Seq (Rep 1 None true (CSet [ISpace]))
             (Grp 1 (Rep 1 None true (NSet [ICh (uc "-"); ICh LF])))))).
Proof. reflexivity. Qed.

Lemma language_no_lf (s : pystr) : language_value s -> ~ In LF s.
Proof.
  intros [-> | [-> | ->]] H; vm_compute in H;
    repeat (destruct H as [H|H]; [discriminate H|]); exact H.
Qed.

End OneLine.

(** X18. In every record the title, the author, the time, the language,
    the publisher, the IPD, the keywords and the file number hold no line
    feed: each is a field of one line. (The body is not, and a company
    name may be: its parts are separated by any white space.) *)
Theorem fields_one_line (U : UnicodeData) (text : pystr)
  (arts : list article) (a : article) :
  split_articles U text = Ok arts ->
  In a arts ->
  ~ In LF (a_title a) /\ ~ In LF (a_author a) /\ ~ In LF (a_time a)
  /\ ~ In LF (a_language a) /\ ~ In LF (a_publisher a) /\ ~ In LF (a_ipd a)
  /\ ~ In LF (a_keywords a) /\ ~ In LF (a_file_no a).
Proof.
  intros Hs Ha.
  apply In_nth_error in Ha. destruct Ha as (i & Ha).
  destruct (@split_articles_entry U _ _ _ _ Hs Ha)
    as (ds & d & wc_i & j & p & dt & Hfp & Hd & -> & _ & A).
  pose proof (@first_pass_accepted U _ _ _ Hfp) as Hall.
  rewrite Forall_forall in Hall.
  destruct (Hall d (nth_error_In _ _ Hd)) as (w & _ & Hscan).
  pose proof (@scan_anchor_author _ _ _ _ Hscan) as Hauthor.
  split; [|split; [|split; [|split; [|split; [|split; [|split]]]]]].
  - unfold attach. cbn [a_title]. rewrite (acc_d_title A). apply line_at_no_lf.
  - unfold attach. cbn [a_author]. rewrite Hauthor. cbn [nonempty].
    match goal with
    | |- context [re_search U re_byline ?b] =>
        generalize b; intros body;
        destruct (re_search U re_byline body) as [m|] eqn:Hm; [|intros []]
    end.
    destruct (group m 1) as [g|] eqn:Hg; [|intros []].
    rewrite re_byline_eq in Hm. intros H. apply strip_incl in H.
    exact (@byline_inv U _ _ _ _ _ Hm Hg H).
  - unfold attach. cbn [a_time]. rewrite (acc_d_time A). apply isoformat_no_lf.
  - unfold attach. cbn [a_language]. rewrite (acc_d_lang A).
    apply language_no_lf, lang_scan_value.
  - unfold attach. cbn [a_publisher]. rewrite (acc_d_pub A). apply stripped_at_no_lf.
  - unfold attach. cbn [a_ipd]. rewrite (acc_d_ipd A).
    rewrite ipd_step_spec. cbv zeta.
    destruct (short_upper_alnum _); cbn [fst];
      [apply stripped_at_no_lf | intros []].
  - unfold attach. cbn [a_keywords].
    match goal with
    | |- context [re_search U re_keywords ?b] =>
        generalize b; intros body;
        destruct (re_search U re_keywords body) as [m|] eqn:Hm; [|intros []]
    end.
    rewrite re_keywords_eq in Hm.
    destruct (@keywords_inv U _ body m Hm) as (_ & _ & g & _ & _ & _ & _ & Hlf & Hgrp).
    rewrite Hgrp. intros H. apply rstrip_dots_incl, strip_incl in H. now apply Hlf.
  - unfold attach. cbn [a_file_no]. apply file_id_no_lf.
Qed.

Lemma fields_one_line_witness :
  exists a,
    split_articles cjk_tables doc_keywords = Ok keywords_articles
    /\ In a keywords_articles
    /\ ~ In LF (a_title a) /\ ~ In LF (a_author a) /\ ~ In LF (a_time a)
    /\ ~ In LF (a_language a) /\ ~ In LF (a_publisher a) /\ ~ In LF (a_ipd a)
    /\ ~ In LF (a_keywords a) /\ ~ In LF (a_file_no a).
Proof.
  assert (Hs : split_articles cjk_tables doc_keywords = Ok keywords_articles)
    by (vm_compute; reflexivity).
  assert (Hin : exists a, In a keywords_articles)
    by (eexists; left; reflexivity).
  destruct Hin as (a & Hin). exists a.
  split; [exact Hs|]. split; [exact Hin|].
  exact (@fields_one_line cjk_tables doc_keywords keywords_articles a Hs Hin).
Defined.

(** ** The IPD rule names the lines of one header *)

(** Two articles with the same title line have the same header lines, and
    so the same publisher, IPD and language: the rule does not hold of an
    article that carries the fields of another header. *)
Lemma ipd_rule_determined (U : UnicodeData) (lines : list pystr)
  (a a' : article) (w p pub c w' p' pub' c' : nat) :
  ipd_rule U lines a w p pub c ->
  ipd_rule U lines a' w' p' pub' c' ->
  a_title_line_idx a = a_title_line_idx a' ->
  w = w' /\ p = p' /\ pub = pub' /\ c = c'
  /\ a_publisher a = a_publisher a' /\ a_ipd a = a_ipd a'
  /\ a_language a = a_language a'.
Proof.
  intros (Hw & Ha & Hb & Np & _ & Npub & Nc & Hpubl & Hr)
         (Hw' & Ha' & Hb' & Np' & _ & Npub' & Nc' & Hpubl' & Hr') Hj.
  rewrite <- Hj in Hw', Hb'.
  assert (Ew : w = w').
  { pose proof (@anchor_not_blank U _ Ha) as Hn.
    pose proof (@anchor_not_blank U _ Ha') as Hn'.
    destruct (Nat.lt_trichotomy w w') as [Hlt|[Heq|Hgt]]; [|exact Heq|].
    - rewrite (Hb' w ltac:(lia)) in Hn. discriminate Hn.
    - rewrite (Hb w' ltac:(lia)) in Hn'. discriminate Hn'. }
  subst w'.
  assert (Ep : p = p') by (eapply next_nonblank_unique; eassumption).
  subst p'.
  assert (Epub : pub = pub') by (eapply next_nonblank_unique; eassumption).
  subst pub'.
  assert (Ec : c = c') by (eapply next_nonblank_unique; eassumption).
  subst c'.
  repeat (split; [reflexivity|]).
  split; [congruence|].
  cbv zeta in Hr, Hr'. destruct Hr as (Ht & Hf). destruct Hr' as (Ht' & Hf').
  destruct (short_upper_alnum (stripped_at lines c)) eqn:E.
  - destruct (Ht eq_refl) as (H1 & H2). destruct (Ht' eq_refl) as (H1' & H2').
    split; congruence.
  - destruct (Hf eq_refl) as (H1 & H2 & _). destruct (Hf' eq_refl) as (H1' & H2' & _).
    split; congruence.
Qed.

(** In [doc_gaps] the header is on lines 0 to 8, with blank lines 2, 4, 6
    and 7 passed over: the candidate line 8, [not an ipd], is no IPD, and
    the language scan starts on it and finds the language on line 9. *)
Example ipd_rule_gaps :
  match nth_error gaps_articles 0 with
  | Some a =>
      a_title_line_idx a = 0%nat
      /\ stripped_at (lines_of doc_gaps) 5 = u "Publisher"
      /\ stripped_at (lines_of doc_gaps) 8 = u "not an ipd"
      /\ a_ipd a = [] /\ a_language a = u "中文"
      /\ ipd_rule cjk_tables (lines_of doc_gaps) a 1 3 5 8
  | None => False
  end.
Proof.
  unfold gaps_articles. cbn [nth_error].
  assert (Hlines : lines_of doc_gaps =
            [u "Title"; u "100字"; []; u "2024年3月5日"; []; u "Publisher";
             []; []; u "not an ipd"; u "Chinese"; []; u "Body text."])
    by (vm_compute; reflexivity).
  assert (Hblank : forall from c k, (from <= k < c)%nat ->
            (forall i, (from <= i < c)%nat ->
               nth_error (lines_of doc_gaps) i = Some []) ->
            exists l, nth_error (lines_of doc_gaps) k = Some l
                      /\ is_blank l = true)
    by (intros from c k Hk H; exists []; split; [now apply H | reflexivity]).
  assert (Hthere : forall i l x,
            nth_error (lines_of doc_gaps) i = Some x ->
            is_blank x = false ->
            nth_error (lines_of doc_gaps) i = Some l -> is_blank l = false)
    by (intros i l x H1 Hb H2; rewrite H1 in H2; injection H2 as <-; exact Hb).
  split; [reflexivity|]. split; [vm_compute; reflexivity|].
  split; [vm_compute; reflexivity|]. split; [reflexivity|].
  split; [vm_compute; reflexivity|].
  unfold ipd_rule. cbn [a_title_line_idx a_time a_publisher a_ipd a_language].
  split; [lia|]. split; [vm_compute; reflexivity|].
  split; [intros k Hk; lia|].
  split.
  { split; [lia|]. split.
    - intros k Hk. apply (Hblank 2%nat 3%nat k Hk). intros i Hi.
      replace i with 2%nat by lia. rewrite Hlines. reflexivity.
    - intros l. apply (Hthere 3%nat l (u "2024年3月5日"));
        [rewrite Hlines; reflexivity | vm_compute; reflexivity]. }
  split.
  { exists (u "2024年3月5日").
    exists {| dt_year := 2024; dt_month := 3; dt_day := 5;
              dt_hour := 0; dt_minute := 0 |}.
    split; [rewrite Hlines; reflexivity|]. split; vm_compute; reflexivity. }
  split.
  { split; [lia|]. split.
    - intros k Hk. apply (Hblank 4%nat 5%nat k Hk). intros i Hi.
      replace i with 4%nat by lia. rewrite Hlines. reflexivity.
    - intros l. apply (Hthere 5%nat l (u "Publisher"));
        [rewrite Hlines; reflexivity | vm_compute; reflexivity]. }
  split.
  { split; [lia|]. split.
    - intros k Hk. apply (Hblank 6%nat 8%nat k Hk). intros i Hi.
      assert (Hi' : i = 6%nat \/ i = 7%nat) by lia.
      destruct Hi' as [-> | ->]; rewrite Hlines; reflexivity.
    - intros l. apply (Hthere 8%nat l (u "not an ipd"));
        [rewrite Hlines; reflexivity | vm_compute; reflexivity]. }
  split; [vm_compute; reflexivity|].
  cbv zeta. split.
  - intros H. vm_compute in H. discriminate H.
  - intros _. split; [reflexivity|]. split; [vm_compute; reflexivity|].
    intros l Hl.
    assert (El : l = u "not an ipd").
    { rewrite Hlines in Hl. cbn [nth_error] in Hl. now injection Hl as <-. }
    subst l. vm_compute. reflexivity.
Qed.
